(** * Emirates-ID onboarding backend: extraction, classification and
      recommendation, embedded from [api/views.py] and [api/ocr_space.py].

    Python [str] values are lists of Unicode code points.  Everything the
    code asks of the Unicode character database (case mapping, digit,
    space and alphanumeric classes, case-insensitive literal matching) is
    a parameter [UCD]; the laws assumed about it are collected in
    [UCD_ok].  A concrete table [ascii_ucd] that agrees with CPython on
    ASCII text is used to evaluate the model on concrete inputs. *)

From Stdlib Require Import String Ascii NArith ZArith Bool Arith Lia List.
Import ListNotations.
Local Open Scope list_scope.

(* ================================================================== *)
(** ** Strings *)

Definition char := N.
Bind Scope N_scope with char.
Definition pystr := list char.

(** Decoding of a UTF-8 literal into code points (1 to 4 byte forms). *)
Fixpoint utf8_decode (bs : list N) : pystr :=
  match bs with
  | [] => []
  | b :: r =>
      if (b <? 128)%N then b :: utf8_decode r
      else if (b <? 224)%N then
        match r with
        | c :: r' => ((b - 192) * 64 + (c - 128))%N :: utf8_decode r'
        | _ => []
        end
      else if (b <? 240)%N then
        match r with
        | c :: d :: r' =>
            ((b - 224) * 4096 + (c - 128) * 64 + (d - 128))%N :: utf8_decode r'
        | _ => []
        end
      else
        match r with
        | c :: d :: e :: r' =>
            ((b - 240) * 262144 + (c - 128) * 4096 + (d - 128) * 64 + (e - 128))%N
              :: utf8_decode r'
        | _ => []
        end
  end.

(** [u "..."] is the Python literal written between the quotes. *)
Definition u (s : string) : pystr :=
  utf8_decode (map N_of_ascii (list_ascii_of_string s)).
Arguments u s%_string : simpl never.

Fixpoint str_eqb (a b : pystr) : bool :=
  match a, b with
  | [], [] => true
  | x :: a', y :: b' => (x =? y)%N && str_eqb a' b'
  | _, _ => false
  end.

(** [s.startswith(p)] *)
Fixpoint startswith (p s : pystr) : bool :=
  match p, s with
  | [], _ => true
  | x :: p', y :: s' => (x =? y)%N && startswith p' s'
  | _ :: _, [] => false
  end.

(** [p in s] for strings: substring containment. *)
Fixpoint str_in (p s : pystr) : bool :=
  startswith p s ||
  match s with
  | [] => false
  | _ :: s' => str_in p s'
  end.

(** [sep.join(xs)] *)
Fixpoint join (sep : pystr) (xs : list pystr) : pystr :=
  match xs with
  | [] => []
  | [x] => x
  | x :: rest => x ++ sep ++ join sep rest
  end.

(** [s.replace(a, b)] for single characters [a], [b]. *)
Definition replace_char (a b : char) (s : pystr) : pystr :=
  map (fun c => if (c =? a)%N then b else c) s.

(** [s.split(sep)] for a single-character separator: always at least one
    part. *)
Fixpoint split_on (sep : char) (s : pystr) : list pystr :=
  match s with
  | [] => [[]]
  | c :: t =>
      if (c =? sep)%N then [] :: split_on sep t
      else match split_on sep t with
           | w :: ws => (c :: w) :: ws
           | [] => [[c]]
           end
  end.

Fixpoint dropwhile {A} (p : A -> bool) (l : list A) : list A :=
  match l with
  | [] => []
  | x :: t => if p x then dropwhile p t else l
  end.

(** [s.rstrip(chars)] with [chars] given as a predicate. *)
Definition rstrip_by (p : char -> bool) (s : pystr) : pystr :=
  rev (dropwhile p (rev s)).

Definition strip_by (p : char -> bool) (s : pystr) : pystr :=
  rstrip_by p (dropwhile p s).

(** The line boundaries of [str.splitlines]. *)
Definition is_linebreak (c : char) : bool :=
  existsb (N.eqb c) [10; 11; 12; 13; 28; 29; 30; 133; 8232; 8233]%N.

(** The pieces of [s] between line boundaries.  [splitlines] treats
    "\r\n" as one boundary and drops a final empty piece; both only change
    the empty pieces, which every caller in this program filters out. *)
Fixpoint split_lines (s : pystr) : list pystr :=
  match s with
  | [] => [[]]
  | c :: t =>
      if is_linebreak c then [] :: split_lines t
      else match split_lines t with
           | w :: ws => (c :: w) :: ws
           | [] => [[c]]
           end
  end.

(** ASCII case mapping, shared by the laws of [UCD] and by [ascii_ucd]. *)
Definition ascii_lower (c : char) : char :=
  if ((65 <=? c) && (c <=? 90))%N then (c + 32)%N else c.
Definition ascii_upper (c : char) : char :=
  if ((97 <=? c) && (c <=? 122))%N then (c - 32)%N else c.
Definition is_ascii (c : char) : bool := (c <? 128)%N.
Definition ascii_is_letter (c : char) : bool :=
  ((65 <=? c) && (c <=? 90) || (97 <=? c) && (c <=? 122))%N.
Definition ascii_is_digit (c : char) : bool := ((48 <=? c) && (c <=? 57))%N.
Definition ascii_is_space (c : char) : bool :=
  existsb (N.eqb c) [9; 10; 11; 12; 13; 28; 29; 30; 31; 32]%N.

(* ================================================================== *)
(** ** The Unicode character database, as used by [str] and [re] *)

Record UCD := {
  str_lower : pystr -> pystr;      (* str.lower() *)
  str_upper : pystr -> pystr;      (* str.upper() *)
  str_title : pystr -> pystr;      (* str.title() *)
  digit_value : char -> option N;  (* decimal digit: \d and int() *)
  is_digit : char -> bool;         (* ch.isdigit() *)
  is_space : char -> bool;         (* ch.isspace(), \s, strip(), split() *)
  is_alnum : char -> bool;         (* ch.isalnum(); \w is this or '_' *)
  ci_eq : char -> char -> bool     (* (?i): pattern literal vs. text char *)
}.

(** Facts of the database that the proofs rely on. *)
Record UCD_ok (U : UCD) : Prop := {
  lower_ascii : forall s, forallb is_ascii s = true ->
      str_lower U s = map ascii_lower s;
  upper_ascii : forall s, forallb is_ascii s = true ->
      str_upper U s = map ascii_upper s;
  digit_ascii : forall c, is_ascii c = true ->
      digit_value U c = if ascii_is_digit c then Some (c - 48)%N else None;
  digit_is_digit : forall c, digit_value U c <> None -> is_digit U c = true;
  digit_is_alnum : forall c, digit_value U c <> None -> is_alnum U c = true;
  space_ascii : forall c, is_ascii c = true -> is_space U c = ascii_is_space c;
  space_not_alnum : forall c, is_space U c = true -> is_alnum U c = false;
  alnum_ascii : forall c, is_ascii c = true ->
      is_alnum U c = ascii_is_letter c || ascii_is_digit c;
  ci_ascii : forall p t, is_ascii p = true -> is_ascii t = true ->
      ci_eq U p t = (ascii_lower p =? ascii_lower t)%N;
  ci_caseless_text : forall p t, is_ascii t = true -> ascii_is_letter t = false ->
      ci_eq U p t = (p =? t)%N;
  ci_arabic : forall p t, (1536 <= p <= 1791)%N -> ci_eq U p t = (p =? t)%N
}.

(** Title-casing of ASCII text: the first letter of every run of letters
    is upper-cased, the others lower-cased. *)
Fixpoint ascii_title_from (prev_cased : bool) (s : pystr) : pystr :=
  match s with
  | [] => []
  | c :: t =>
      (if ascii_is_letter c
       then if prev_cased then ascii_lower c else ascii_upper c
       else c) :: ascii_title_from (ascii_is_letter c) t
  end.

(** A database that agrees with CPython on ASCII text; Arabic letters are
    caseless alphanumerics, every other code point a caseless symbol. *)
Definition ascii_ucd : UCD := {|
  str_lower := map ascii_lower;
  str_upper := map ascii_upper;
  str_title := ascii_title_from false;
  digit_value := fun c => if ascii_is_digit c then Some (c - 48)%N else None;
  is_digit := ascii_is_digit;
  is_space := ascii_is_space;
  is_alnum := fun c => ascii_is_letter c || ascii_is_digit c
                       || ((1569 <=? c) && (c <=? 1610))%N;
  ci_eq := fun p t => (ascii_lower p =? ascii_lower t)%N
|}.

Section StrMethods.
Variable U : UCD.

Definition strip (s : pystr) : pystr := strip_by (is_space U) s.

(** [s.split()]: the maximal runs of non-space characters. *)
Fixpoint split_ws_aux (cur : pystr) (s : pystr) : list pystr :=
  match s with
  | [] => match cur with [] => [] | _ => [rev cur] end
  | c :: t =>
      if is_space U c
      then match cur with
           | [] => split_ws_aux [] t
           | _ => rev cur :: split_ws_aux [] t
           end
      else split_ws_aux (c :: cur) t
  end.
Definition split_ws (s : pystr) : list pystr := split_ws_aux [] s.

(** [any(ch.isdigit() for ch in s)] *)
Definition any_digit (s : pystr) : bool := existsb (is_digit U) s.

(** [s.isdigit()] *)
Definition str_isdigit (s : pystr) : bool :=
  match s with [] => false | _ => forallb (is_digit U) s end.

(** [[l.strip() for l in s.splitlines() if l.strip()]] *)
Definition stripped_lines (s : pystr) : list pystr :=
  filter (fun l => negb (str_eqb l [])) (map strip (split_lines s)).

(** The value of a run of decimal digits, most significant first. *)
Fixpoint digits_value (acc : N) (s : pystr) : option N :=
  match s with
  | [] => Some acc
  | c :: t =>
      match digit_value U c with
      | Some d => digits_value (acc * 10 + d)%N t
      | None => None
      end
  end.

End StrMethods.

(* ================================================================== *)
(** ** Exceptions and dictionaries *)

Inductive exn := ValueError | IndexError | KeyError | AttributeError.

(** The outcome of a Python computation: a value or a raised exception. *)
Inductive result (A : Type) :=
| Ok (a : A)
| Raise (e : exn).
Arguments Ok {A} a.
Arguments Raise {A} e.

Definition bind {A B} (m : result A) (k : A -> result B) : result B :=
  match m with
  | Ok a => k a
  | Raise e => Raise e
  end.

(** [try: m except: h] with a bare [except]. *)
Definition try_except {A} (m : result A) (h : result A) : result A :=
  match m with
  | Ok a => Ok a
  | Raise _ => h
  end.

Declare Scope py_scope.
Delimit Scope py_scope with py.
Notation "x <- m ;; k" := (bind m (fun x => k))
  (at level 61, m at next level, right associativity) : py_scope.
Local Open Scope py_scope.

(** [xs[i]] for [0 <= i]. *)
Definition index {A} (xs : list A) (i : nat) : result A :=
  match nth_error xs i with
  | Some x => Ok x
  | None => Raise IndexError
  end.

(** [x.strip()] where [x] may be [None]. *)
Definition attr_strip (U : UCD) (x : option pystr) : result pystr :=
  match x with
  | Some s => Ok (strip U s)
  | None => Raise AttributeError
  end.

(** A Python [dict] with string values, in insertion order. *)
Definition dict := list (string * pystr).

Fixpoint dict_get (d : dict) (k : string) : option pystr :=
  match d with
  | [] => None
  | (k', v) :: d' => if String.eqb k' k then Some v else dict_get d' k
  end.

(** [k in d] *)
Definition dict_mem (d : dict) (k : string) : bool :=
  match dict_get d k with Some _ => true | None => false end.

(** [d[k] = v]: replaces in place, or appends a new key. *)
Fixpoint dict_set (d : dict) (k : string) (v : pystr) : dict :=
  match d with
  | [] => [(k, v)]
  | (k', v') :: d' =>
      if String.eqb k' k then (k', v) :: d' else (k', v') :: dict_set d' k v
  end.

(** [d[k]] *)
Definition dict_item (d : dict) (k : string) : result pystr :=
  match dict_get d k with
  | Some v => Ok v
  | None => Raise KeyError
  end.

(** [{**a, **b}] *)
Definition dict_union (a b : dict) : dict :=
  fold_left (fun d kv => dict_set d (fst kv) (snd kv)) b a.

(* ================================================================== *)
(** ** Regular expressions

    The fragment of [re] that the program uses: character classes,
    sequence, alternation, greedy and lazy counted repetition of a class,
    one capturing group, [\b], [$] and lookahead.  Matching is by
    backtracking; [rmatch] lists the outcomes in the order in which the
    backtracking matcher would reach them, so its head is the match
    that [re] reports. *)

Inductive regex :=
| Eps
| Chr (p : char -> bool)
| Seq (a b : regex)
| Alt (a b : regex)
| Rep (greedy : bool) (lo : nat) (hi : option nat) (p : char -> bool)
| Grp (r : regex)
| Bnd
| Eol
| Ahead (r : regex).

(** Position in the subject: the text before it (reversed), the text
    after it, and what group 1 holds. *)
Record mstate := {
  seen : pystr;
  rest : pystr;
  grp1 : option pystr
}.

Definition mk_state (sn rs : pystr) : mstate :=
  {| seen := sn; rest := rs; grp1 := None |}.

Fixpoint advance (k : nat) (st : mstate) : mstate :=
  match k with
  | O => st
  | S k' =>
      match rest st with
      | [] => st
      | c :: t => advance k' {| seen := c :: seen st; rest := t; grp1 := grp1 st |}
      end
  end.

(** Length of the longest prefix whose characters all satisfy [p]. *)
Fixpoint run_length (p : char -> bool) (s : pystr) : nat :=
  match s with
  | [] => O
  | c :: t => if p c then S (run_length p t) else O
  end.

(** [lo, lo+1, ..., lo+n-1] *)
Fixpoint count_up (lo n : nat) : list nat :=
  match n with
  | O => []
  | S n' => lo :: count_up (S lo) n'
  end.

(** The numbers of repetitions to try, in order, when at most [avail]
    characters are available. *)
Definition rep_counts (greedy : bool) (lo : nat) (hi : option nat) (avail : nat)
  : list nat :=
  let top := match hi with Some h => Nat.min h avail | None => avail end in
  let ks := count_up lo (S top - lo) in
  if greedy then rev ks else ks.

Section Regex.
Variable U : UCD.

(** [\w] *)
Definition is_word (c : char) : bool := is_alnum U c || (c =? 95)%N.

Definition word_at (s : pystr) : bool :=
  match s with
  | [] => false
  | c :: _ => is_word c
  end.

(** [\b]: exactly one of the neighbours is a word character. *)
Definition at_boundary (st : mstate) : bool :=
  xorb (word_at (seen st)) (word_at (rest st)).

(** [$]: at the end, or before a newline that ends the subject. *)
Definition at_eol (st : mstate) : bool :=
  match rest st with
  | [] => true
  | [c] => (c =? 10)%N
  | _ => false
  end.

Fixpoint rmatch (r : regex) (st : mstate) : list mstate :=
  match r with
  | Eps => [st]
  | Chr p =>
      match rest st with
      | c :: _ => if p c then [advance 1 st] else []
      | [] => []
      end
  | Seq a b => flat_map (rmatch b) (rmatch a st)
  | Alt a b => rmatch a st ++ rmatch b st
  | Rep g lo hi p =>
      map (fun k => advance k st) (rep_counts g lo hi (run_length p (rest st)))
  | Grp r' =>
      map (fun st' =>
             {| seen := seen st'; rest := rest st';
                grp1 := Some (firstn (length (rest st) - length (rest st')) (rest st)) |})
          (rmatch r' st)
  | Bnd => if at_boundary st then [st] else []
  | Eol => if at_eol st then [st] else []
  | Ahead r' =>
      match rmatch r' st with
      | [] => []
      | st' :: _ => [ {| seen := seen st; rest := rest st; grp1 := grp1 st' |} ]
      end
  end.

(** A match object: where it starts, [group(0)], [group(1)]. *)
Record match_obj := {
  m_start : nat;
  group0 : pystr;
  group1 : option pystr
}.

Definition match_at (r : regex) (sn rs : pystr) : option match_obj :=
  match rmatch r (mk_state sn rs) with
  | [] => None
  | st :: _ =>
      Some {| m_start := length sn;
              group0 := firstn (length rs - length (rest st)) rs;
              group1 := grp1 st |}
  end.

Fixpoint search_from (r : regex) (sn rs : pystr) : option match_obj :=
  match match_at r sn rs with
  | Some m => Some m
  | None =>
      match rs with
      | [] => None
      | c :: t => search_from r (c :: sn) t
      end
  end.

(** [re.search(r, s)] *)
Definition re_search (r : regex) (s : pystr) : option match_obj :=
  search_from r [] s.

(** The successive non-overlapping matches, left to right.  [skip] counts
    the characters of the previous match still to be stepped over. *)
Fixpoint matches_from (r : regex) (skip : nat) (sn rs : pystr) : list match_obj :=
  match skip with
  | S k =>
      match rs with
      | [] => []
      | c :: t => matches_from r k (c :: sn) t
      end
  | O =>
      match match_at r sn rs with
      | Some m =>
          m :: match rs with
               | [] => []
               | c :: t => matches_from r (length (group0 m) - 1) (c :: sn) t
               end
      | None =>
          match rs with
          | [] => []
          | c :: t => matches_from r O (c :: sn) t
          end
      end
  end.

(** [re.findall(r, s)] for a pattern without groups: the matched texts. *)
Definition re_findall0 (r : regex) (s : pystr) : list pystr :=
  map group0 (matches_from r O [] s).

(** [re.findall(r, s)] for a pattern with one group: the group's texts. *)
Definition re_findall1 (r : regex) (s : pystr) : list pystr :=
  map (fun m => match group1 m with Some g => g | None => [] end)
      (matches_from r O [] s).

(** [re.sub(r, '', s)]: the subject without its matches. *)
Fixpoint delete_matches (r : regex) (skip : nat) (sn rs : pystr) : pystr :=
  match rs with
  | [] => []
  | c :: t =>
      match skip with
      | S k => delete_matches r k (c :: sn) t
      | O =>
          match match_at r sn rs with
          | Some m =>
              match length (group0 m) with
              | O => c :: delete_matches r O (c :: sn) t
              | S k => delete_matches r k (c :: sn) t
              end
          | None => c :: delete_matches r O (c :: sn) t
          end
      end
  end.
Definition re_sub_empty (r : regex) (s : pystr) : pystr :=
  delete_matches r O [] s.

(** Pattern builders. *)
Definition chr (c : char) : regex := Chr (N.eqb c).

Fixpoint seqs (rs : list regex) : regex :=
  match rs with
  | [] => Eps
  | [r] => r
  | r :: rs' => Seq r (seqs rs')
  end.

Fixpoint alts (rs : list regex) : regex :=
  match rs with
  | [] => Chr (fun _ => false)
  | [r] => r
  | r :: rs' => Alt r (alts rs')
  end.

(** A literal, case-sensitive. *)
Definition lit (s : pystr) : regex := seqs (map chr s).
(** A literal under [(?i)]. *)
Definition liti (s : pystr) : regex := seqs (map (fun c => Chr (ci_eq U c)) s).

(** [\d], [\s], [[^\n\r]], [[:\-]], [[\s\S]] *)
Definition cls_d (c : char) : bool :=
  match digit_value U c with Some _ => true | None => false end.
Definition cls_s (c : char) : bool := is_space U c.
Definition cls_not_nl (c : char) : bool := negb ((c =? 10)%N || (c =? 13)%N).
Definition cls_colon_dash (c : char) : bool := (c =? 58)%N || (c =? 45)%N.
Definition cls_any (c : char) : bool := true.

Definition exactly (n : nat) (p : char -> bool) : regex := Rep true n (Some n) p.
Definition star (p : char -> bool) : regex := Rep true 0 None p.
Definition plus (p : char -> bool) : regex := Rep true 1 None p.
Definition opt (p : char -> bool) : regex := Rep true 0 (Some 1) p.

(** [\s*[:\-]?\s*], the separator between a label and its value. *)
Definition label_sep : regex := seqs [star cls_s; opt cls_colon_dash; star cls_s].

End Regex.

(* ================================================================== *)
(** ** [parse_fields]: the front-side extractor ([api/views.py]) *)

(** A string is truthy when it is not empty. *)
Definition truthy (s : pystr) : bool :=
  match s with [] => false | _ => true end.

(** Truthiness of a value that is a string or [None]. *)
Definition truthy_opt (x : option pystr) : bool :=
  match x with Some s => truthy s | None => false end.

Definition unpack3 (xs : list pystr) : result (pystr * pystr * pystr) :=
  match xs with
  | [a; b; c] => Ok (a, b, c)
  | _ => Raise ValueError
  end.

(** [xs[-1]] *)
Definition index_last {A} (xs : list A) : result A :=
  index xs (length xs - 1).

Section Extractors.
Variable U : UCD.

Definition stopwords : list pystr :=
  [u "resident"; u "identity"; u "card"; u "id number"; u "id no"; u "number";
   u "nationality"; u "date of birth"; u "date"; u "expiry"; u "issuing";
   u "signature"; u "sex"; u "passport"; u "signature/"; u "issue"].

(** [any(sw in s.lower() for sw in stopwords)] *)
Definition has_stopword (s : pystr) : bool :=
  existsb (fun sw => str_in sw (str_lower U s)) stopwords.

(** [int(s)] for a string whose characters all pass [isdigit] or [\d]:
    the call succeeds exactly when every character is a decimal digit. *)
Definition py_int (s : pystr) : result N :=
  match s with
  | [] => Raise ValueError
  | _ => match digits_value U 0 s with
         | Some n => Ok n
         | None => Raise ValueError
         end
  end.

(** [\b\d{3}-\d{4}-\d{7}-\d\b] *)
Definition id_re : regex :=
  seqs [Bnd; exactly 3 (cls_d U); chr 45; exactly 4 (cls_d U); chr 45;
        exactly 7 (cls_d U); chr 45; Chr (cls_d U); Bnd].

(** [(?i)(?:Name|NAME|...)\s*[:\-]?\s*([^\n\r]{2,80})] *)
Definition name_re : regex :=
  seqs [alts [liti U (u "Name"); liti U (u "NAME"); liti U (u "الاسم"); liti U (u "اسم")];
        label_sep U; Grp (Rep true 2 (Some 80) cls_not_nl)].

(** [[\:\-\/\|]+$] *)
Definition cls_trailing (c : char) : bool :=
  (c =? 58)%N || (c =? 45)%N || (c =? 47)%N || (c =? 124)%N.
Definition trailing_re : regex := Seq (plus cls_trailing) Eol.

(** 1) Emirates ID number *)
Definition step_emirates_id (raw : pystr) (data : dict) : dict :=
  match re_search U id_re raw with
  | Some m => dict_set data "emirates_id" (strip U (group0 m))
  | None => data
  end.

(** 2) Labeled name *)
Definition step_labeled_name (raw : pystr) (data : dict) : result dict :=
  match re_search U name_re raw with
  | Some m =>
      name_val <- attr_strip U (group1 m) ;;
      Ok (dict_set data "name" (strip U (re_sub_empty U trailing_re name_val)))
  | None => Ok data
  end.

(** The line filters shared by the name and address fallbacks. *)
Definition next_line_joins (nxt : pystr) : bool :=
  negb (has_stopword nxt) && negb (any_digit U nxt)
  && (length (split_ws U nxt) <=? 3).

(** The [for idx, line in enumerate(lines)] loop of the name fallback;
    [rem] is what is left to visit, [idx] the index of its head. *)
Fixpoint name_scan (lines rem : list pystr) (idx : nat) : result (option pystr) :=
  match rem with
  | [] => Ok None
  | line :: rem' =>
      let low := str_lower U line in
      if existsb (fun sw => str_in sw low) stopwords then name_scan lines rem' (S idx)
      else if any_digit U line then name_scan lines rem' (S idx)
      else if (2 <=? length (split_ws U line)) && (3 <? length line) then
        if str_in (u "united arab emirates") low || str_in (u "arab emirates") low
        then name_scan lines rem' (S idx)
        else
          name_candidate <-
            (if idx + 1 <? length lines then
               nxt <- index lines (idx + 1) ;;
               Ok (if next_line_joins nxt then line ++ u " " ++ nxt else line)
             else Ok line) ;;
          Ok (Some name_candidate)
      else name_scan lines rem' (S idx)
  end.

(** 3) Fallback name detection *)
Definition step_fallback_name (normalized : pystr) (data : dict) : result dict :=
  if negb (dict_mem data "name") then
    let lines := stripped_lines U normalized in
    candidate <- name_scan lines lines 0 ;;
    Ok (if truthy_opt candidate
        then match candidate with
             | Some c => dict_set data "name" c
             | None => data
             end
        else data)
  else Ok data.

(** [(\d{1,2}[\/\-]\d{1,2}[\/\-]\d{4})] *)
Definition cls_slash_dash (c : char) : bool := (c =? 47)%N || (c =? 45)%N.
Definition date_core : regex :=
  seqs [Rep true 1 (Some 2) (cls_d U); Chr cls_slash_dash;
        Rep true 1 (Some 2) (cls_d U); Chr cls_slash_dash; exactly 4 (cls_d U)].
Definition date_pattern : regex := Grp date_core.

(** [r'(?i)' + lbl + r'\s*[:\-]?\s*' + date_pattern] *)
Definition labelled_date_re (lbl : pystr) : regex :=
  seqs [liti U lbl; label_sep U; date_pattern].

Fixpoint find_date_by_labels (raw : pystr) (labels : list pystr) : option pystr :=
  match labels with
  | [] => None
  | lbl :: labels' =>
      match re_search U (labelled_date_re lbl) raw with
      | Some m => group1 m
      | None => find_date_by_labels raw labels'
      end
  end.

Definition month_names : list pystr :=
  [u "Jan"; u "Feb"; u "Mar"; u "Apr"; u "May"; u "Jun";
   u "Jul"; u "Aug"; u "Sep"; u "Oct"; u "Nov"; u "Dec"].

(** The body of [format_date] after the split, inside its [try]. *)
Definition format_parts (p : pystr * pystr * pystr) : result pystr :=
  let '(day, month, year) := p in
  month' <-
    (if str_isdigit U month then
       n <- py_int month ;;
       if ((1 <=? n) && (n <=? 12))%N
       then index month_names (N.to_nat n - 1)
       else Ok month
     else Ok month) ;;
  Ok (day ++ u "/" ++ month' ++ u "/" ++ year).

Definition format_date (date_str : pystr) : result pystr :=
  try_except
    (if str_in (u "/") date_str then
       p <- unpack3 (split_on 47 date_str) ;; format_parts p
     else if str_in (u "-") date_str then
       p <- unpack3 (split_on 45 date_str) ;; format_parts p
     else Ok date_str)
    (Ok date_str).

Definition dob_labels : list pystr :=
  [u "Date of Birth"; u "DOB"; u "Birth"; u "تاريخ الميلاد"].
Definition issuing_labels : list pystr :=
  [u "Issuing Date"; u "Issue Date"; u "Issuing"; u "Date of Issue"; u "تاريخ الإصدار"].
Definition expiry_labels : list pystr :=
  [u "Expiry Date"; u "Expiry"; u "تاريخ الانتهاء"].

(** [if x: data[k] = format_date(x)] *)
Definition set_date (k : string) (x : option pystr) (data : dict) : result dict :=
  match x with
  | Some d => if truthy d then v <- format_date d ;; Ok (dict_set data k v) else Ok data
  | None => Ok data
  end.

(** 4) Dates *)
Definition step_dates (raw : pystr) (data : dict) : result dict :=
  let all_dates := re_findall1 U date_pattern raw in
  let dob := find_date_by_labels raw dob_labels in
  let issuing := find_date_by_labels raw issuing_labels in
  let expiry := find_date_by_labels raw expiry_labels in
  data <- set_date "dob" dob data ;;
  data <- set_date "issuing_date" issuing data ;;
  data <- set_date "expiry_date" expiry data ;;
  data <-
    (if negb (dict_mem data "expiry_date") && negb (length all_dates =? 0) then
       d <- index_last all_dates ;;
       v <- format_date d ;;
       Ok (dict_set data "expiry_date" v)
     else Ok data) ;;
  if negb (truthy_opt issuing) && negb (length all_dates =? 0) then
    if 2 <=? length all_dates then
      d <- index all_dates 1 ;;
      v <- format_date d ;;
      Ok (dict_set data "issuing_date" v)
    else Ok data
  else Ok data.

(** [(?i)(?:Nationality|...)\s*[:\-]?\s*([^\n\r]{2,80})] *)
Definition nationality_re : regex :=
  seqs [alts [liti U (u "Nationality"); liti U (u "الجنسية")];
        label_sep U; Grp (Rep true 2 (Some 80) cls_not_nl)].

(** 5) Nationality *)
Definition step_nationality (raw : pystr) (data : dict) : result dict :=
  match re_search U nationality_re raw with
  | Some m => v <- attr_strip U (group1 m) ;; Ok (dict_set data "nationality" v)
  | None => Ok data
  end.

Definition gender_label : regex :=
  alts [liti U (u "Sex"); liti U (u "Gender"); liti U (u "الجنس")].
Definition cls_not_n (c : char) : bool := negb (c =? 10)%N.

Definition gender_patterns : list regex :=
  [seqs [gender_label; label_sep U;
         Grp (alts [liti U (u "Male"); liti U (u "Female"); liti U (u "M");
                    liti U (u "F"); liti U (u "ذكر"); liti U (u "أنثى")])];
   seqs [gender_label; label_sep U; Grp (Rep true 1 (Some 20) cls_not_n)];
   Grp (alts [liti U (u "SCANNE"); liti U (u "SCANNED"); liti U (u "SCAN");
              liti U (u "SCANNING")])].

Definition scan_words : list pystr := [u "SCAN"; u "SCANNED"; u "SCANNING"].

(** The [for pattern in gender_patterns] loop. *)
Fixpoint gender_scan (raw : pystr) (patterns : list regex) : option pystr :=
  match patterns with
  | [] => None
  | pattern :: patterns' =>
      match re_search U pattern raw with
      | Some m =>
          let val := if truthy_opt (group1 m)
                     then match group1 m with Some g => strip U g | None => [] end
                     else [] in
          if truthy val
             && negb (existsb (fun word => str_in word (str_upper U val)) scan_words)
          then Some val
          else gender_scan raw patterns'
      | None => gender_scan raw patterns'
      end
  end.

Definition str_mem (x : pystr) (xs : list pystr) : bool := existsb (str_eqb x) xs.

(** 6) Sex / Gender *)
Definition step_gender (raw : pystr) (data : dict) : dict :=
  match gender_scan raw gender_patterns with
  | Some gender_val =>
      if truthy gender_val then
        let val := str_upper U gender_val in
        if str_mem val [u "M"; u "MALE"; u "ذكر"] then
          dict_set (dict_set data "gender" (u "Male")) "sex" (u "Male")
        else if str_mem val [u "F"; u "FEMALE"; u "أنثى"] then
          dict_set (dict_set data "gender" (u "Female")) "sex" (u "Female")
        else dict_set (dict_set data "gender" gender_val) "sex" gender_val
      else data
  | None => data
  end.

(** [(?i)(?:Address|...)\s*[:\-]?\s*([^\n\r]{2,140})] *)
Definition address_re : regex :=
  seqs [alts [liti U (u "Address"); liti U (u "العنوان")];
        label_sep U; Grp (Rep true 2 (Some 140) cls_not_nl)].

(** The loop over the lines that looks for the one after the nationality;
    it stops at the first line it accepts. *)
Fixpoint address_after_nationality (nat_low : pystr) (lines rem : list pystr)
    (idx : nat) : result (option pystr) :=
  match rem with
  | [] => Ok None
  | line :: rem' =>
      if str_in nat_low (str_lower U line) then
        if idx + 1 <? length lines then
          cand <- index lines (idx + 1) ;;
          if (4 <? length cand) && negb (any_digit U cand)
          then Ok (Some cand)
          else address_after_nationality nat_low lines rem' (S idx)
        else address_after_nationality nat_low lines rem' (S idx)
      else address_after_nationality nat_low lines rem' (S idx)
  end.

(** The [for l in reversed(lines)] loop of the last address fallback. *)
Fixpoint address_scan (rlines : list pystr) : option pystr :=
  match rlines with
  | [] => None
  | l :: rlines' =>
      if has_stopword l then address_scan rlines'
      else if any_digit U l then address_scan rlines'
      else if 2 <=? length (split_ws U l) then Some l
      else address_scan rlines'
  end.

(** 7) Address *)
Definition step_address (raw normalized : pystr) (data : dict) : result dict :=
  match re_search U address_re raw with
  | Some m => v <- attr_strip U (group1 m) ;; Ok (dict_set data "address" v)
  | None =>
      data <-
        (if dict_mem data "nationality" then
           let lines := stripped_lines U normalized in
           nat_val <- dict_item data "nationality" ;;
           found <- address_after_nationality (str_lower U nat_val) lines lines 0 ;;
           Ok (match found with
               | Some cand => dict_set data "address" cand
               | None => data
               end)
         else Ok data) ;;
      if negb (dict_mem data "address") then
        let lines := stripped_lines U normalized in
        Ok (match address_scan (rev lines) with
            | Some l => dict_set data "address" l
            | None => data
            end)
      else Ok data
  end.

(** [v.strip().rstrip(':').strip()] *)
Definition clean_value (v : pystr) : pystr :=
  strip U (rstrip_by (N.eqb 58) (strip U v)).

(** The closing loop over [data.items()]. *)
Definition clean_all (data : dict) : dict :=
  map (fun kv => (fst kv, clean_value (snd kv))) data.

Definition parse_fields (text : pystr) : result dict :=
  let data : dict := [] in
  let raw := text in
  let normalized := replace_char 13 10 raw in
  let data := step_emirates_id raw data in
  data <- step_labeled_name raw data ;;
  data <- step_fallback_name normalized data ;;
  data <- step_dates raw data ;;
  data <- step_nationality raw data ;;
  let data := step_gender raw data in
  data <- step_address raw normalized data ;;
  Ok (clean_all data).

End Extractors.

(* ================================================================== *)
(** ** [parse_back_side_fields]: the back-side extractor *)

Section BackSide.
Variable U : UCD.

(** [[^\w\s\-]] *)
Definition cls_junk (c : char) : bool :=
  negb (is_word U c || is_space U c || (c =? 45)%N).
Definition junk_re : regex := Chr cls_junk.

(** [(?=\n|$)] *)
Definition line_end_ahead : regex := Ahead (Alt (chr 10) Eol).

(** The two patterns tried for a free-text field with the given labels:
    [(?i)(?:l1|l2|...)\s*[:\-]?\s*([^\n\r]{2,80})] and
    [(?i)(?:l1|l2|...)[\s\S]{1,100}?([^\n\r]{2,80})(?=\n|$)]. *)
Definition free_text_patterns (labels : list pystr) : list regex :=
  [seqs [alts (map (liti U) labels); label_sep U;
         Grp (Rep true 2 (Some 80) cls_not_nl)];
   seqs [alts (map (liti U) labels); Rep false 1 (Some 100) cls_any;
         Grp (Rep true 2 (Some 80) cls_not_nl); line_end_ahead]].

Definition occupation_patterns : list regex :=
  free_text_patterns [u "Occupation"; u "المهنة"; u "Profession"; u "الوظيفة"].
Definition employer_patterns : list regex :=
  free_text_patterns [u "Employer"; u "صاحب العمل"; u "Company"; u "الشركة"; u "جهة العمل"].
Definition issuing_place_patterns : list regex :=
  free_text_patterns [u "Issuing Place"; u "مكان الإصدار"; u "Place of Issue"; u "جهة الإصدار"].

(** The [for pattern in ..._patterns] loop of a free-text field: the
    first cleaned value longer than one character. *)
Fixpoint free_text_scan (raw : pystr) (patterns : list regex) : result (option pystr) :=
  match patterns with
  | [] => Ok None
  | pattern :: patterns' =>
      match re_search U pattern raw with
      | Some m =>
          v <- attr_strip U (group1 m) ;;
          let v := re_sub_empty U junk_re v in
          if 1 <? length v then Ok (Some v) else free_text_scan raw patterns'
      | None => free_text_scan raw patterns'
      end
  end.

Definition step_free_text (k : string) (patterns : list regex) (raw : pystr)
    (data : dict) : result dict :=
  found <- free_text_scan raw patterns ;;
  Ok (match found with Some v => dict_set data k v | None => data end).

Definition sponsor_label : regex :=
  alts [liti U (u "Family Sponsor"); liti U (u "كفالة عائلية"); liti U (u "Sponsor");
        liti U (u "كفالة"); liti U (u "الکفالة")].
Definition yes_no : regex :=
  Grp (alts [liti U (u "Yes"); liti U (u "No"); liti U (u "نعم"); liti U (u "لا");
             liti U (u "Y"); liti U (u "N")]).

Definition family_sponsor_patterns : list regex :=
  [seqs [sponsor_label; label_sep U; yes_no];
   seqs [sponsor_label; Rep false 1 (Some 50) cls_any; yes_no]].

(** The [for pattern in family_sponsor_patterns] loop: it stops at the
    first pattern that matches, whatever the value. *)
Fixpoint family_sponsor_scan (raw : pystr) (patterns : list regex) (data : dict)
  : result dict :=
  match patterns with
  | [] => Ok data
  | pattern :: patterns' =>
      match re_search U pattern raw with
      | Some m =>
          v <- attr_strip U (group1 m) ;;
          let value := str_lower U v in
          if str_mem value [u "yes"; u "y"; u "نعم"] then
            Ok (dict_set data "family_sponsor" (u "Yes"))
          else if str_mem value [u "no"; u "n"; u "لا"] then
            Ok (dict_set data "family_sponsor" (u "No"))
          else Ok data
      | None => family_sponsor_scan raw patterns' data
      end
  end.

Definition parse_back_side_fields (text : pystr) : result dict :=
  let data : dict := [] in
  let raw := text in
  data <- step_free_text "occupation" occupation_patterns raw data ;;
  data <- step_free_text "employer" employer_patterns raw data ;;
  data <- step_free_text "issuing_place" issuing_place_patterns raw data ;;
  family_sponsor_scan raw family_sponsor_patterns data.

End BackSide.

(* ================================================================== *)
(** ** [detect_document_side] ([api/ocr_space.py]) *)

Inductive side := Front | Back | Unknown.

Definition side_eqb (a b : side) : bool :=
  match a, b with
  | Front, Front | Back, Back | Unknown, Unknown => true
  | _, _ => false
  end.

Definition back_indicators : list pystr :=
  [u "الكفالة"; u "employer"; u "صاحب العمل"; u "occupation"; u "المهنة";
   u "occupation"; u "employer"; u "issuing place"; u "مكان الإصدار";
   u "family sponsor"; u "كفالة عائلية"].

Definition front_indicators : list pystr :=
  [u "emirates id"; u "identity card"; u "بطاقة الهوية"; u "name"; u "الاسم";
   u "nationality"; u "الجنسية"; u "date of birth"; u "تاريخ الميلاد"].

(** [sum(1 for indicator in indicators if indicator in text_lower)] *)
Definition score (indicators : list pystr) (text_lower : pystr) : nat :=
  length (filter (fun indicator => str_in indicator text_lower) indicators).

Definition detect_document_side (U : UCD) (text : pystr) : side :=
  let text_lower := str_lower U text in
  let back_score := score back_indicators text_lower in
  let front_score := score front_indicators text_lower in
  if front_score <? back_score then Back
  else if back_score <? front_score then Front
  else Unknown.

(* ================================================================== *)
(** ** Stored rows ([api/models.py]) *)

(** [EmiratesIDRecord]: the text columns, [None] or a string each. *)
Record EmiratesIDRecord := {
  rec_id : nat;
  emirates_id : option pystr;
  name : option pystr;
  dob : option pystr;
  issuing_date : option pystr;
  nationality : option pystr;
  gender : option pystr;
  address : option pystr;
  occupation : option pystr;
  employer : option pystr;
  issuing_place : option pystr;
  family_sponsor : option pystr;
  family_sponsor_name : option pystr;
  expiry_date : option pystr;
  raw_response : option (pystr * pystr * list pystr);
  status : option pystr
}.

(** [ChatSession]: the columns the upload and the recommendation read or
    write.  The model declares no column [mobile]. *)
Record ChatSession := {
  step : pystr;
  salary : option pystr;
  full_name : option pystr;
  emirates_id_number : option pystr;
  s_dob : option pystr;
  expiry : option pystr;
  s_nationality : option pystr;
  s_occupation : option pystr;
  emirates_id_uploaded : bool
}.

(** The text columns of a record, by name. *)
Definition record_fields : list string :=
  ["emirates_id"; "name"; "dob"; "issuing_date"; "nationality"; "gender";
   "address"; "occupation"; "employer"; "issuing_place"; "family_sponsor";
   "family_sponsor_name"; "expiry_date"; "status"]%string.

(** [hasattr(record, field)], for the names an extractor can produce. *)
Definition hasattr (field : string) : bool :=
  existsb (String.eqb field) record_fields.

(** [getattr(record, field, None)] *)
Definition getattr (r : EmiratesIDRecord) (field : string) : option pystr :=
  if String.eqb field "emirates_id" then emirates_id r
  else if String.eqb field "name" then name r
  else if String.eqb field "dob" then dob r
  else if String.eqb field "issuing_date" then issuing_date r
  else if String.eqb field "nationality" then nationality r
  else if String.eqb field "gender" then gender r
  else if String.eqb field "address" then address r
  else if String.eqb field "occupation" then occupation r
  else if String.eqb field "employer" then employer r
  else if String.eqb field "issuing_place" then issuing_place r
  else if String.eqb field "family_sponsor" then family_sponsor r
  else if String.eqb field "family_sponsor_name" then family_sponsor_name r
  else if String.eqb field "expiry_date" then expiry_date r
  else if String.eqb field "status" then status r
  else None.

Definition upd (f : string) (field : string) (v old : option pystr) : option pystr :=
  if String.eqb field f then v else old.

(** [setattr(record, field, value)] on a text column. *)
Definition setattr (r : EmiratesIDRecord) (field : string) (v : option pystr)
  : EmiratesIDRecord :=
  {| rec_id := rec_id r;
     emirates_id := upd "emirates_id" field v (emirates_id r);
     name := upd "name" field v (name r);
     dob := upd "dob" field v (dob r);
     issuing_date := upd "issuing_date" field v (issuing_date r);
     nationality := upd "nationality" field v (nationality r);
     gender := upd "gender" field v (gender r);
     address := upd "address" field v (address r);
     occupation := upd "occupation" field v (occupation r);
     employer := upd "employer" field v (employer r);
     issuing_place := upd "issuing_place" field v (issuing_place r);
     family_sponsor := upd "family_sponsor" field v (family_sponsor r);
     family_sponsor_name := upd "family_sponsor_name" field v (family_sponsor_name r);
     expiry_date := upd "expiry_date" field v (expiry_date r);
     raw_response := raw_response r;
     status := upd "status" field v (status r) |}.

(** [x == "literal"] for a value that is a string or [None]. *)
Definition opt_eqb (x : option pystr) (s : pystr) : bool :=
  match x with Some v => str_eqb v s | None => false end.

(* ================================================================== *)
(** ** Issuing place, salary band and the product tables *)

Record product := {
  p_name : pystr;
  p_price : pystr;
  p_plan : pystr;
  p_url : option pystr
}.

Definition mk_product (n pr pl : pystr) (url : option pystr) : product :=
  {| p_name := n; p_price := pr; p_plan := pl; p_url := url |}.

Section Recommend.
Variable U : UCD.

(** The canonical issuing place: [None], "Abu Dhabi", "Dubai" or the
    title-cased raw text. *)
Definition normalize_place (record : option EmiratesIDRecord) : option pystr :=
  let issuing_raw :=
    match record with
    | Some r => match issuing_place r with
                | Some s => if truthy s then s else []
                | None => []
                end
    | None => []
    end in
  let issuing_norm := str_lower U (strip U issuing_raw) in
  if truthy issuing_norm then
    if (str_in (u "abu") issuing_norm && negb (str_in (u "dub") issuing_norm))
       || str_in (u "adhabi") issuing_norm || str_in (u "adabi") issuing_norm
       || str_in (u "abudhabi") issuing_norm || str_in (u "abud") issuing_norm
    then Some (u "Abu Dhabi")
    else if str_in (u "duba") issuing_norm || str_in (u "dubai") issuing_norm
            || str_in (u "dubi") issuing_norm
    then Some (u "Dubai")
    else if str_in (u "abu dhabi") issuing_norm then Some (u "Abu Dhabi")
    else if str_in (u "dubai") issuing_norm then Some (u "Dubai")
    else if truthy issuing_raw then Some (str_title U (strip U issuing_raw))
    else None
  else None.

(** The substring rules on the lower-cased salary answer. *)
Definition salary_rules (salary_raw : pystr) : option pystr :=
  if str_in (u "below") salary_raw && str_in (u "4000") salary_raw
  then Some (u "below_4000")
  else if str_in (u "4000") salary_raw && str_in (u "5000") salary_raw
  then Some (u "4000_5000")
  else if str_in (u "above") salary_raw
          && (str_in (u "5000") salary_raw || str_in (u "5000") salary_raw)
  then Some (u "above_5000")
  else if str_in (u "below 4000") salary_raw
          || str_eqb (strip U salary_raw) (u "below 4000 aed")
          || str_eqb (strip U salary_raw) (u "below 4000")
  then Some (u "below_4000")
  else if str_in (u "4000 - 5000") salary_raw || str_in (u "4000-5000") salary_raw
          || str_in (u "4000 to 5000") salary_raw
  then Some (u "4000_5000")
  else if str_in (u "above 5000") salary_raw || str_in (u "more than 5000") salary_raw
          || str_in (u "5000+") salary_raw || str_in (u "5000 =") salary_raw
  then Some (u "above_5000")
  else None.

(** [[int(d) for d in re.findall(r'\d+', salary_raw)]] *)
Definition salary_numbers (salary_raw : pystr) : result (list N) :=
  fold_right (fun d acc => n <- py_int U d ;; ns <- acc ;; Ok (n :: ns)) (Ok [])
             (re_findall0 U (plus (cls_d U)) salary_raw).

(** The band of the first number. *)
Definition bucket (n : N) : option pystr :=
  if (n <? 4000)%N then Some (u "below_4000")
  else if ((4000 <=? n) && (n <=? 5000))%N then Some (u "4000_5000")
  else if (5000 <? n)%N then Some (u "above_5000")
  else None.

(** The salary key: [None] when no band is recognised. *)
Definition normalize_salary (session : option ChatSession) : result (option pystr) :=
  let salary_raw :=
    match session with
    | Some s => str_lower U (match salary s with
                             | Some x => if truthy x then x else []
                             | None => []
                             end)
    | None => []
    end in
  let salary_key := salary_rules salary_raw in
  match salary_key with
  | None =>
      if truthy salary_raw then
        nums <- salary_numbers salary_raw ;;
        match nums with
        | [] => Ok None
        | _ => n <- index nums 0 ;; Ok (bucket n)
        end
      else Ok None
  | Some _ => Ok salary_key
  end.

Definition url_nlsb : pystr := u "https://gia-insurance-provider.com/dha-basic-nlsb".
Definition url_lsb : pystr := u "https://gia-insurance-provider.com/dha-basic-lsb".
Definition url_dha : pystr := u "https://gia-insurance-provider.com/dha-basic".
Definition url_abu_dhabi : pystr := u "https://gia-insurance-provider.com/abu-dhabi-premium".
Definition url_general : pystr := u "https://gia-insurance-provider.com/general-plan".

Definition msg_minimum : pystr :=
  u "The minimum requirement for this product plan is above 5000 AED".
Definition msg_abu_dhabi : pystr :=
  u "Please ensure your salary is above 5000 AED to see available plans for Abu Dhabi.".
Definition msg_place : pystr :=
  u "We couldn't determine issuing place precisely. If you'd like, please confirm the issuing place (Dubai or Abu Dhabi).".

(** The table of [compute_products_based_on_data]. *)
Definition recommend (place salary_key : option pystr)
  : list product * option pystr :=
  if opt_eqb place (u "Dubai") then
    if opt_eqb salary_key (u "below_4000") then
      ([mk_product (u "DHA-Basic") (u "864.00") (u "NLSB") (Some url_nlsb)], None)
    else if opt_eqb salary_key (u "4000_5000") || opt_eqb salary_key (u "above_5000") then
      ([mk_product (u "DHA-Basic") (u "864.00") (u "NLSB") (Some url_nlsb);
        mk_product (u "DHA-Basic") (u "1893.00") (u "LSB") (Some url_lsb)], None)
    else
      ([mk_product (u "DHA-Basic") (u "1893.00") (u "LSB") (Some url_lsb)], None)
  else if opt_eqb place (u "Abu Dhabi") then
    if opt_eqb salary_key (u "below_4000") || opt_eqb salary_key (u "4000_5000") then
      ([], Some msg_minimum)
    else if opt_eqb salary_key (u "above_5000") then
      ([mk_product (u "Abu Dhabi Eligible Plan") (u "1350.00 AED") (u "Premium")
                   (Some url_abu_dhabi)], None)
    else ([], Some msg_abu_dhabi)
  else
    if opt_eqb salary_key (u "above_5000") then
      ([mk_product (u "General Plan (Eligible)") (u "999.00 AED") (u "Standard")
                   (Some url_general)], None)
    else ([], Some msg_place).

Definition compute_products_based_on_data (session : option ChatSession)
    (record : option EmiratesIDRecord) : result (list product * option pystr) :=
  let place := normalize_place record in
  salary_key <- normalize_salary session ;;
  Ok (recommend place salary_key).

(** The table written out inside [emirates_id_upload], before the URLs
    are attached. *)
Definition upload_table (place salary_key : option pystr)
  : list product * option pystr :=
  if opt_eqb place (u "Dubai") then
    if opt_eqb salary_key (u "below_4000") then
      ([mk_product (u "DHA-Basic") (u "864.00") (u "NLSB") None], None)
    else if opt_eqb salary_key (u "4000_5000") || opt_eqb salary_key (u "above_5000") then
      ([mk_product (u "DHA-Basic") (u "1893.00") (u "LSB") None;
        mk_product (u "DHA-Basic") (u "1893.00") (u "LSB") None], None)
    else
      ([mk_product (u "DHA-Basic") (u "1893.00") (u "LSB") None], None)
  else if opt_eqb place (u "Abu Dhabi") then
    if opt_eqb salary_key (u "below_4000") || opt_eqb salary_key (u "4000_5000") then
      ([], Some msg_minimum)
    else if opt_eqb salary_key (u "above_5000") then
      ([mk_product (u "Abu Dhabi Eligible Plan") (u "1350.00 AED") (u "Premium") None],
       None)
    else ([], Some msg_abu_dhabi)
  else
    if opt_eqb salary_key (u "above_5000") then
      ([mk_product (u "General Plan (Eligible)") (u "999.00 AED") (u "Standard") None],
       None)
    else ([], Some msg_place).

(** The body of the [for p in products] loop that attaches the URL. *)
Definition attach_url (p : product) : product :=
  let url :=
    if str_in (u "DHA-Basic") (p_name p) then
      if str_eqb (p_plan p) (u "NLSB") then url_nlsb
      else if str_eqb (p_plan p) (u "LSB") then url_lsb
      else url_dha
    else if str_in (u "Abu Dhabi") (p_name p) then url_abu_dhabi
    else url_general in
  let url :=
    if negb (startswith (u "http://") url || startswith (u "https://") url)
    then u "https://" ++ url
    else url in
  mk_product (p_name p) (p_price p) (p_plan p) (Some url).

(** What the upload handler puts in its response. *)
Definition upload_products (place salary_key : option pystr)
  : list product * option pystr :=
  let '(products, message) := upload_table place salary_key in
  (map attach_url products, message).

End Recommend.

(* ================================================================== *)
(** ** [emirates_id_upload]: the upload handler *)

(** One uploaded file with what [ocr_space_file_multi_lang] returned for
    it: text, status code and error text. *)
Record upload_file := {
  uf_name : pystr;
  uf_text : pystr;
  uf_code : nat;
  uf_err : pystr
}.

Record processed_file := {
  pf_name : pystr;
  pf_text : pystr;
  pf_side : side;
  pf_is_pdf : bool
}.

Record upload_payload := {
  r_ok : bool;
  r_id : nat;
  r_fields : dict;
  r_missing_fields : list string;
  r_sides_front : bool;
  r_sides_back : bool;
  r_next_step : pystr;
  r_files_processed : nat;
  r_issuing_place_detected : option pystr;
  r_products : list product;
  r_message : option pystr;
  r_ask_mobile : bool
}.

Inductive response :=
| JsonError (http_status : nat) (error : pystr)
| JsonOk (payload : upload_payload).

Definition endswith (suffix s : pystr) : bool := startswith (rev suffix) (rev s).

(** [front_texts], [back_texts] and their space-joined forms. *)
Definition front_texts (pfs : list processed_file) : list pystr :=
  map pf_text (filter (fun f => side_eqb (pf_side f) Front || side_eqb (pf_side f) Unknown) pfs).
Definition back_texts (pfs : list processed_file) : list pystr :=
  map pf_text (filter (fun f => side_eqb (pf_side f) Back) pfs).

Definition combine (texts : list pystr) : pystr :=
  match texts with
  | [] => []
  | _ => join (u " ") texts
  end.

(** The two blobs handed to the extractors, after the fallback. *)
Definition combined_texts (pfs : list processed_file) : pystr * pystr :=
  let front_combined := combine (front_texts pfs) in
  let back_combined := combine (back_texts pfs) in
  if negb (truthy front_combined) && truthy back_combined then
    (back_combined, back_combined)
  else if negb (truthy back_combined) && truthy front_combined then
    (front_combined, [])
  else (front_combined, back_combined).

Definition expected_front : list string :=
  ["emirates_id"; "name"; "dob"; "nationality"; "gender";
   "address"; "issuing_date"; "expiry_date"]%string.
Definition expected_back : list string :=
  ["occupation"; "employer"; "issuing_place"]%string.

Definition missing_fields (record : EmiratesIDRecord) : list string :=
  let missing :=
    filter (fun field => negb (truthy_opt (getattr record field)))
           (expected_front ++ expected_back) in
  if opt_eqb (family_sponsor record) (u "Yes")
     && negb (truthy_opt (family_sponsor_name record))
  then missing ++ ["family_sponsor_name"%string]
  else missing.

(** The [for field, value in {...}.items()] loop of the update branch. *)
Definition merge_item (r : EmiratesIDRecord) (kv : string * pystr) : EmiratesIDRecord :=
  if hasattr (fst kv) && truthy (snd kv) then setattr r (fst kv) (Some (snd kv)) else r.

Definition merge_record (r : EmiratesIDRecord) (front_data back_data : dict)
    (sponsor_name : option pystr) : EmiratesIDRecord :=
  let r := fold_left merge_item (dict_union front_data back_data) r in
  if truthy_opt sponsor_name then setattr r "family_sponsor_name" sponsor_name else r.

(** The record that [get_or_create] creates from its [defaults]. *)
Definition create_record (fresh_id : nat) (front_data back_data : dict)
    (sponsor_name : option pystr) (front_combined back_combined : pystr)
    (pfs : list processed_file) : EmiratesIDRecord :=
  {| rec_id := fresh_id;
     emirates_id := dict_get front_data "emirates_id";
     name := dict_get front_data "name";
     dob := dict_get front_data "dob";
     issuing_date := dict_get front_data "issuing_date";
     nationality := dict_get front_data "nationality";
     gender := dict_get front_data "gender";
     address := dict_get front_data "address";
     occupation := dict_get back_data "occupation";
     employer := dict_get back_data "employer";
     issuing_place := dict_get back_data "issuing_place";
     family_sponsor := dict_get back_data "family_sponsor";
     family_sponsor_name := sponsor_name;
     expiry_date := dict_get front_data "expiry_date";
     raw_response := Some (firstn 2000 front_combined, firstn 2000 back_combined,
                           map pf_name pfs);
     status := Some (u "pending") |}.

(** A session field is filled from the record only while it is empty. *)
Definition sync_field (from_record session_value : option pystr) : option pystr :=
  if truthy_opt from_record && negb (truthy_opt session_value)
  then from_record else session_value.

Definition sync_session (record : EmiratesIDRecord) (s : ChatSession) : ChatSession :=
  {| step := step s;
     salary := salary s;
     full_name := sync_field (name record) (full_name s);
     emirates_id_number := sync_field (emirates_id record) (emirates_id_number s);
     s_dob := sync_field (dob record) (s_dob s);
     expiry := sync_field (expiry_date record) (expiry s);
     s_nationality := sync_field (nationality record) (s_nationality s);
     s_occupation := sync_field (occupation record) (s_occupation s);
     emirates_id_uploaded := true |}.

Definition set_step (s : ChatSession) (v : pystr) : ChatSession :=
  {| step := v; salary := salary s; full_name := full_name s;
     emirates_id_number := emirates_id_number s; s_dob := s_dob s; expiry := expiry s;
     s_nationality := s_nationality s; s_occupation := s_occupation s;
     emirates_id_uploaded := emirates_id_uploaded s |}.

Section Upload.
Variable U : UCD.

(** The loop over the uploaded files: the first file whose OCR status is
    not 0 ends the request with an error. *)
Fixpoint process_files (files : list upload_file) (acc : list processed_file)
  : pystr + list processed_file :=
  match files with
  | [] => inr acc
  | f :: files' =>
      if negb (uf_code f =? 0) then
        inl (u "OCR.space failed for " ++ uf_name f ++ u ": " ++ uf_err f)
      else
        process_files files'
          (acc ++ [ {| pf_name := uf_name f; pf_text := uf_text f;
                       pf_side := detect_document_side U (uf_text f);
                       pf_is_pdf := endswith (u ".pdf") (str_lower U (uf_name f)) |} ])
  end.

(** [(?:family sponsor name|...)\s*[:\-]?\s*([^\n\r]{2,80})], ignoring case *)
Definition sponsor_name_re : regex :=
  seqs [alts [liti U (u "family sponsor name"); liti U (u "اسم الكفيل"); liti U (u "كفيل")];
        label_sep U; Grp (Rep true 2 (Some 80) cls_not_nl)].

Definition find_sponsor_name (back_data : dict) (back_combined : pystr)
  : result (option pystr) :=
  if opt_eqb (dict_get back_data "family_sponsor") (u "Yes") then
    match re_search U sponsor_name_re back_combined with
    | Some m => v <- attr_strip U (group1 m) ;; Ok (Some v)
    | None => Ok None
    end
  else Ok None.

(** What the handler has stored and worked out when it turns to the
    recommendation: the files as classified, the two extracted
    dictionaries, the record and the session as saved, and the list of
    missing fields. *)
Record upload_state := {
  st_files : list processed_file;
  st_front_data : dict;
  st_back_data : dict;
  st_record : EmiratesIDRecord;
  st_session : ChatSession;
  st_missing : list string
}.

(** The first part of the handler (from the loop over the files to the
    step): the OCR texts are classified and combined, the fields
    extracted, the record created or updated, the session synced, the
    missing fields listed and the step advanced.  [existing] is the
    session's record if it has one, [fresh_id] the key a new record
    gets.  An OCR failure ends the request with an error response and
    nothing is written. *)
Definition upload_store (session : ChatSession) (existing : option EmiratesIDRecord)
    (fresh_id : nat) (files : list upload_file) : result (response + upload_state) :=
  match files with
  | [] => Ok (inl (JsonError 400 (u "No files received")))
  | _ =>
  match process_files files [] with
  | inl err => Ok (inl (JsonError 500 err))
  | inr processed_files =>
      let '(front_combined, back_combined) := combined_texts processed_files in
      front_data <- parse_fields U front_combined ;;
      back_data <- parse_back_side_fields U back_combined ;;
      sponsor_name <- find_sponsor_name back_data back_combined ;;
      let record :=
        match existing with
        | None => create_record fresh_id front_data back_data sponsor_name
                                front_combined back_combined processed_files
        | Some r => merge_record r front_data back_data sponsor_name
        end in
      let session := sync_session record session in
      let missing := missing_fields record in
      let has_back_side := existsb (fun f => side_eqb (pf_side f) Back) processed_files in
      let session :=
        if has_back_side
           && str_mem (step session) [u "awaiting_id_frontside"; u "awaiting_id_backside"]
        then set_step session (u "complete") else session in
      Ok (inr {| st_files := processed_files; st_front_data := front_data;
                 st_back_data := back_data; st_record := record;
                 st_session := session; st_missing := missing |})
  end
  end.

(** [session.mobile]: [ChatSession] declares no column [mobile] and the
    handler never assigns the attribute to the session it has fetched,
    so the read raises [AttributeError]. *)
Definition session_mobile (session : ChatSession) : result (option pystr) :=
  Raise AttributeError.

(** The second part of the handler: the recommendation and the
    response. *)
Definition upload_respond (st : upload_state) : result response :=
  let record := st_record st in
  let session := st_session st in
  _ <- compute_products_based_on_data U (Some session) (Some record) ;;
  let place := normalize_place U (Some record) in
  salary_key <- normalize_salary U (Some session) ;;
  let '(products, message) := upload_table place salary_key in
  mobile <- session_mobile session ;;
  let ask_mobile := negb (truthy_opt mobile) in
  let products := map attach_url products in
  Ok (JsonOk {| r_ok := true;
                r_id := rec_id record;
                r_fields := dict_union (st_front_data st) (st_back_data st);
                r_missing_fields := st_missing st;
                r_sides_front := negb (length (front_texts (st_files st)) =? 0);
                r_sides_back := negb (length (back_texts (st_files st)) =? 0);
                r_next_step := u "complete";
                r_files_processed := length (st_files st);
                r_issuing_place_detected := place;
                r_products := products;
                r_message := message;
                r_ask_mobile := ask_mobile |}).

(** The handler, from the point where the session has been found: what
    it answers (or the exception it ends with), and the record and the
    session as last saved. *)
Definition emirates_id_upload (session : ChatSession) (existing : option EmiratesIDRecord)
    (fresh_id : nat) (files : list upload_file)
  : result response * option EmiratesIDRecord * ChatSession :=
  match upload_store session existing fresh_id files with
  | Raise e => (Raise e, existing, session)
  | Ok (inl error_response) => (Ok error_response, existing, session)
  | Ok (inr st) => (upload_respond st, Some (st_record st), st_session st)
  end.

End Upload.

(* ================================================================== *)
(** ** [ocr_space_file_multi_lang] ([api/ocr_space.py]) *)


Section MultiLang.
Variable U : UCD.



End MultiLang.

(* ================================================================== *)
(** ** The scripted conversation: [fallback_to_fsm] ([api/views.py]) *)

(** A [ChatSession] row with the columns that the conversation reads
    or writes besides those above. *)
Record ChatFlow := {
  cf_session : ChatSession;
  is_completed : bool;
  looking_for_insurance : option pystr;
  role : option pystr;
  depender_type : option pystr
}.

Definition with_session (flow : ChatFlow) (s : ChatSession) : ChatFlow :=
  {| cf_session := s; is_completed := is_completed flow;
     looking_for_insurance := looking_for_insurance flow;
     role := role flow; depender_type := depender_type flow |}.

Definition with_step (flow : ChatFlow) (v : pystr) : ChatFlow :=
  with_session flow (set_step (cf_session flow) v).

Definition set_salary (s : ChatSession) (v : option pystr) : ChatSession :=
  {| step := step s; salary := v; full_name := full_name s;
     emirates_id_number := emirates_id_number s; s_dob := s_dob s; expiry := expiry s;
     s_nationality := s_nationality s; s_occupation := s_occupation s;
     emirates_id_uploaded := emirates_id_uploaded s |}.

Definition with_looking (flow : ChatFlow) (v : pystr) : ChatFlow :=
  {| cf_session := cf_session flow; is_completed := is_completed flow;
     looking_for_insurance := Some v;
     role := role flow; depender_type := depender_type flow |}.

Definition with_completed (flow : ChatFlow) : ChatFlow :=
  {| cf_session := cf_session flow; is_completed := true;
     looking_for_insurance := looking_for_insurance flow;
     role := role flow; depender_type := depender_type flow |}.

Definition with_role (flow : ChatFlow) (v : pystr) : ChatFlow :=
  {| cf_session := cf_session flow; is_completed := is_completed flow;
     looking_for_insurance := looking_for_insurance flow;
     role := Some v; depender_type := depender_type flow |}.

Definition with_depender_type (flow : ChatFlow) (v : pystr) : ChatFlow :=
  {| cf_session := cf_session flow; is_completed := is_completed flow;
     looking_for_insurance := looking_for_insurance flow;
     role := role flow; depender_type := Some v |}.

(** A [ChatMessage] row. *)
Record ChatMessage := {
  cm_role : pystr;
  cm_content : pystr
}.

Inductive chat_response :=
| ChatLoginRequired                    (* status 401, login_required *)
| ChatReply (reply : pystr) (options : list pystr) (step_shown : pystr).

Definition salary_options : list pystr :=
  [u "below 4000 AED"; u "4000 - 5000 AED"; u "above 5000 AED"].

Section Conversation.
Variable U : UCD.

(** The reply of the free chat once the flow is complete: the language
    model's answer, stripped, or the apology that carries its error. *)
Variable free_chat : pystr -> pystr.

(** The branch taken for the current step: the reply, the options and
    the session as changed, or nothing when the request is turned away
    before anything is changed. *)
Definition fsm_branch (flow : ChatFlow) (user_text : pystr) (authenticated : bool)
  : option (pystr * list pystr * ChatFlow) :=
  let step := if truthy (step (cf_session flow)) then step (cf_session flow)
              else u "start" in
  if str_eqb step (u "start") then
    Some (u "Are you looking for medical insurance?", [u "Yes"; u "No"],
          with_step flow (u "q1"))
  else if str_eqb step (u "q1") then
    if startswith (u "y") (str_lower U user_text) then
      if negb authenticated then None
      else Some (u "Are you an employee or a depender?", [u "Employee"; u "Depender"],
                 with_step (with_looking flow (u "Yes")) (u "q2"))
    else Some (u "Okay. Let me know if you need help later.", [],
               with_completed (with_looking flow (u "No")))
  else if str_eqb step (u "q2") then
    let text := str_lower U user_text in
    if str_mem text [u "e"; u "employee"] then
      Some (u "What is your current monthly salary?", salary_options,
            with_step (with_role flow (u "Employee")) (u "q3"))
    else if str_mem text [u "d"; u "depender"] then
      Some (u "What type of depender are you?", [u "Spouse"; u "Child"],
            with_step (with_role flow (u "Depender")) (u "q2a"))
    else Some (u "Please select Employee or Depender.", [u "Employee"; u "Depender"], flow)
  else if str_eqb step (u "q2a") then
    let text := str_lower U user_text in
    if str_mem text [u "s"; u "spouse"] then
      Some (u "What is your sponsor's current monthly salary?", salary_options,
            with_step (with_depender_type flow (u "Spouse")) (u "q3"))
    else if str_mem text [u "c"; u "child"] then
      Some (u "What is your sponsor's current monthly salary?", salary_options,
            with_step (with_depender_type flow (u "Child")) (u "q3"))
    else Some (u "Please select Spouse or Child.", [u "Spouse"; u "Child"], flow)
  else if str_eqb step (u "q3") then
    Some (u "Please upload the insured person's valid Emirates ID.", [],
          with_step (with_session flow (set_salary (cf_session flow) (Some user_text)))
                    (u "awaiting_id_frontside"))
  else if str_eqb step (u "awaiting_id_frontside") then
    Some (u "I see you're trying to upload an Emirates ID. Please use the file upload button to submit the front side of your Emirates ID.",
          [], flow)
  else if str_eqb step (u "awaiting_id_backside") then
    Some (u "I see you're trying to upload an Emirates ID. Please use the file upload button to submit the back side of your Emirates ID.",
          [], flow)
  else if str_eqb step (u "complete") then
    Some (free_chat user_text, [], flow)
  else
    Some (u "I seem to have lost track. Let's start over. Are you looking for medical insurance?",
          [u "Yes"; u "No"], with_step flow (u "start")).

(** The answer, the session as saved and the messages stored. *)
Definition fallback_to_fsm (flow : ChatFlow) (user_text : pystr) (authenticated : bool)
  : chat_response * ChatFlow * list ChatMessage :=
  match fsm_branch flow user_text authenticated with
  | None => (ChatLoginRequired, flow, [])
  | Some (reply, options, flow') =>
      (ChatReply reply options (step (cf_session flow')), flow',
       (if truthy user_text
        then [ {| cm_role := u "user"; cm_content := user_text |} ] else [])
       ++ (if truthy reply
           then [ {| cm_role := u "bot"; cm_content := reply |} ] else []))
  end.

End Conversation.

(* ================================================================== *)
(** ** [save_mobile] and [update_emirates_id_record] ([api/views.py]) *)





Inductive update_response :=
| UpdateError (http_status : nat) (error : pystr)
| UpdateOk (message : pystr) (field : pystr) (value : option pystr).

(** The columns that [update_emirates_id_record] lets a client set. *)
Definition allowed : list string :=
  ["emirates_id"; "name"; "address"; "expiry_date"; "dob"; "issuing_date";
   "nationality"; "occupation"; "employer"; "issuing_place"; "family_sponsor";
   "family_sponsor_name"]%string.

(** [x or s] with [s] the empty string, for [x] a string or [None]. *)
Definition or_empty (x : option pystr) : pystr :=
  match x with Some s => s | None => [] end.

(** For a POST request whose body holds [id], [field] and [value], each
    a string or absent ([rec_id] a number, 0 when absent); [rec] is the
    record with that id, if any.  The result carries the answer and
    the record as saved. *)
Definition update_emirates_id_record (U : UCD) (rec_id : nat)
    (field value : option pystr) (rec : option EmiratesIDRecord)
  : update_response * option EmiratesIDRecord :=
  let field := str_lower U (strip U (or_empty field)) in
  let value := strip U (or_empty value) in
  if (rec_id =? 0) || negb (truthy field) then
    (UpdateError 400 (u "id and field required"), rec)
  else
    match rec with
    | None => (UpdateError 404 (u "record not found"), None)
    | Some r =>
        if str_mem field [u "sex"; u "gender"] then
          let v := str_lower U value in
          let canon :=
            if str_mem v [u "m"; u "male"; u "ذكر"] then u "Male"
            else if str_mem v [u "f"; u "female"; u "أنثى"] then u "Female"
            else if truthy value then str_title U value else [] in
          let r := setattr r "gender" (Some canon) in
          (UpdateOk (if truthy canon
                     then u "Thank you, gender saved as " ++ canon ++ u "."
                     else u "Gender information saved.")
                    (u "gender") (gender r),
           Some r)
        else
          match find (fun column => str_eqb field (u column)) allowed with
          | None => (UpdateError 400 (u "field not allowed"), Some r)
          | Some column =>
              (UpdateOk (u "Saved") field (Some value),
               Some (setattr r column (Some value)))
          end
    end.

(* ================================================================== *)
(** ** [AuthenticationMiddleware.process_request] ([api/middleware.py]) *)

(** What [json.loads(request.body.decode('utf-8'))] gives inside
    [middleware.py]: the module imports [JsonResponse], [MiddlewareMixin]
    and [urlparse] but never [json], so evaluating the name raises
    [NameError] before the body is looked at; no value is produced. *)
Definition middleware_json_loads (body : pystr) : option (option pystr) := None.

(** [None] lets the request through; [Some 401] is the refusal. *)
Definition process_request (U : UCD) (path method body : pystr)
    (is_authenticated : bool) : option nat :=
  if startswith (u "/api/auth/") path || startswith (u "/static/") path then None
  else if str_eqb path (u "/") then None
  else
    let let_through :=
      if startswith (u "/api/insurance-chat/") path && str_eqb method (u "POST") then
        match middleware_json_loads body with
        | Some user_text => str_mem (str_lower U (or_empty user_text)) [[]; u "yes"]
        | None => false
        end
      else false in
    if let_through then None
    else if negb is_authenticated then Some 401
    else None.


(* ================================================================== *)
(** * Properties *)

(** ** The concrete database satisfies the laws *)

(** Case analysis on the comparisons of code points in sight, dropping
    the impossible cases as they appear. *)
Ltac nbool :=
  repeat (match goal with
          | |- context [(?a <=? ?b)%N] => destruct (N.leb_spec a b)
          | |- context [(?a <? ?b)%N] => destruct (N.ltb_spec a b)
          | |- context [(?a =? ?b)%N] => destruct (N.eqb_spec a b)
          | H : context [(?a <=? ?b)%N] |- _ => destruct (N.leb_spec a b)
          | H : context [(?a <? ?b)%N] |- _ => destruct (N.ltb_spec a b)
          | H : context [(?a =? ?b)%N] |- _ => destruct (N.eqb_spec a b)
          end; cbn [andb orb negb] in *; try discriminate; try lia);
  try reflexivity.

Lemma ascii_space_cases (c : char) :
  ascii_is_space c = true ->
  In c [9; 10; 11; 12; 13; 28; 29; 30; 31; 32]%N.
Proof.
  unfold ascii_is_space. intros H.
  apply existsb_exists in H as [x [Hin Hx]].
  apply N.eqb_eq in Hx. now subst.
Qed.

Lemma ascii_ucd_ok : UCD_ok ascii_ucd.
Proof.
  constructor; cbn [ascii_ucd str_lower str_upper digit_value is_digit is_space
                    is_alnum ci_eq]; intros; try reflexivity.
  - destruct (ascii_is_digit c); congruence.
  - destruct (ascii_is_digit c); [|congruence].
    now rewrite orb_true_r.
  - apply ascii_space_cases in H. cbn [In] in H.
    repeat (destruct H as [<- | H]; [reflexivity|]). destruct H.
  - unfold is_ascii in H. apply N.ltb_lt in H.
    replace (1569 <=? c)%N with false by (symmetry; apply N.leb_gt; lia).
    cbn [andb]. now rewrite orb_false_r.
  - unfold is_ascii, ascii_is_letter, ascii_lower in *. nbool.
  - unfold ascii_lower. nbool.
Qed.

(* ================================================================== *)
(** ** The recommendation tables *)

(** A result carries exactly one of a non-empty product list and a
    message. *)
Definition exactly_one (pm : list product * option pystr) : Prop :=
  (fst pm <> [] /\ snd pm = None) \/ (fst pm = [] /\ snd pm <> None).

Ltac table_cases :=
  repeat match goal with
  | |- context [opt_eqb ?x ?s] => destruct (opt_eqb x s)
  end; simpl.

Lemma recommend_exactly_one (place salary_key : option pystr) :
  exactly_one (recommend place salary_key).
Proof.
  unfold exactly_one, recommend.
  table_cases; (left; split; [discriminate | reflexivity])
            || (right; split; [reflexivity | discriminate]).
Qed.

Lemma upload_products_exactly_one (place salary_key : option pystr) :
  exactly_one (upload_products place salary_key).
Proof.
  unfold exactly_one, upload_products, upload_table.
  table_cases; (left; split; [discriminate | reflexivity])
            || (right; split; [reflexivity | discriminate]).
Qed.

(** C1.  Whatever the issuing place and the salary band are (any string
    or [None] each, so also an unrecognised place and an unknown band),
    the helper [compute_products_based_on_data] and the table inside the
    upload handler both answer with exactly one of a non-empty product
    list and a message; and the helper always answers, for every session
    and record. *)
Theorem recommendation_exactly_one :
  (forall place salary_key : option pystr,
      exactly_one (recommend place salary_key)
      /\ exactly_one (upload_products place salary_key))
  /\ (forall U session record pm,
        compute_products_based_on_data U session record = Ok pm -> exactly_one pm).
Proof.
  split.
  - intros; split.
    + apply recommend_exactly_one.
    + apply upload_products_exactly_one.
  - intros U session record pm H.
    unfold compute_products_based_on_data in H.
    destruct (normalize_salary U session) as [k|e]; simpl in H; [|discriminate].
    injection H as <-. apply recommend_exactly_one.
Qed.

Definition nlsb_864 : product :=
  mk_product (u "DHA-Basic") (u "864.00") (u "NLSB") (Some url_nlsb).
Definition lsb_1893 : product :=
  mk_product (u "DHA-Basic") (u "1893.00") (u "LSB") (Some url_lsb).

(** The helper gives Dubai with a salary of 4000 or more the two plans. *)
Lemma recommend_dubai_upper_bands (salary_key : pystr) :
  salary_key = u "4000_5000" \/ salary_key = u "above_5000" ->
  recommend (Some (u "Dubai")) (Some salary_key) = ([nlsb_864; lsb_1893], None).
Proof.
  intros [-> | ->]; reflexivity.
Qed.

(** C2, at the upload handler.  For Dubai and either upper band the
    table written inside [emirates_id_upload] holds the LSB plan at
    1893.00 twice and no NLSB plan at 864.00, unlike the helper's. *)
Theorem upload_dubai_upper_bands_lsb_twice :
  upload_products (Some (u "Dubai")) (Some (u "4000_5000")) = ([lsb_1893; lsb_1893], None)
  /\ upload_products (Some (u "Dubai")) (Some (u "above_5000")) = ([lsb_1893; lsb_1893], None)
  /\ recommend (Some (u "Dubai")) (Some (u "4000_5000")) = ([nlsb_864; lsb_1893], None)
  /\ recommend (Some (u "Dubai")) (Some (u "above_5000")) = ([nlsb_864; lsb_1893], None).
Proof.
  split; [|split; [|split]]; vm_compute; reflexivity.
Qed.

(* ================================================================== *)
(** ** Grouping the texts by side *)

Lemma join_nonempty (sep : pystr) (xs : list pystr) :
  (exists x, In x xs /\ x <> []) -> join sep xs <> [].
Proof.
  induction xs as [|x xs IH]; intros [y [Hin Hy]]; [destruct Hin|].
  destruct xs as [|x' xs'].
  - destruct Hin as [->|[]]. exact Hy.
  - cbn [join]. destruct x as [|c x]; [|discriminate].
    destruct Hin as [Heq|Hin]; [now subst y|].
    destruct sep; [|discriminate].
    simpl. apply IH. now exists y.
Qed.

Lemma combine_nonempty (xs : list pystr) :
  (exists x, In x xs /\ x <> []) -> combine xs <> [].
Proof.
  intros H. destruct xs as [|x xs].
  - destruct H as [? [[] _]].
  - unfold combine. now apply join_nonempty.
Qed.

Lemma truthy_false (s : pystr) : truthy s = false <-> s = [].
Proof. destruct s; simpl; split; congruence. Qed.

Lemma truthy_true (s : pystr) : truthy s = true <-> s <> [].
Proof. destruct s; simpl; split; congruence. Qed.

(** The claim that either blob, when it alone is empty, takes the text of
    the other. *)
Definition borrows_both_ways : Prop :=
  forall pfs : list processed_file,
    let front_combined := combine (front_texts pfs) in
    let back_combined := combine (back_texts pfs) in
    (front_combined = [] -> back_combined <> [] ->
     fst (combined_texts pfs) = back_combined)
    /\ (back_combined = [] -> front_combined <> [] ->
        snd (combined_texts pfs) = front_combined).

Definition one_front_file : list processed_file :=
  [ {| pf_name := u "front.jpg"; pf_text := u "Name: Sara";
       pf_side := Front; pf_is_pdf := false |} ].

(** C3 as stated fails: with one front file and no back file the back
    blob stays empty. *)
Lemma back_blob_does_not_borrow : ~ borrows_both_ways.
Proof.
  intros H. destruct (H one_front_file) as [_ Hb].
  vm_compute in Hb. specialize (Hb eq_refl). 
  assert (Hne : [78; 97; 109; 101; 58; 32; 83; 97; 114; 97]%N <> @nil N) by discriminate.
  specialize (Hb Hne). discriminate.
Qed.

(** C3, amended.  The front blob is the space-joined text of the front
    and unknown files and the back blob that of the back files.  An
    empty front blob takes the back text; the back blob is never
    replaced.  So the front extractor gets non-empty input whenever any
    file yielded text, and the back extractor gets exactly the back
    files' text. *)
Theorem combined_texts_spec (pfs : list processed_file) :
  let front_combined := combine (front_texts pfs) in
  let back_combined := combine (back_texts pfs) in
  fst (combined_texts pfs)
    = (if negb (truthy front_combined) then back_combined else front_combined)
  /\ snd (combined_texts pfs) = back_combined
  /\ ((exists f, In f pfs /\ pf_text f <> []) -> fst (combined_texts pfs) <> []).
Proof.
  intros fc bc. unfold combined_texts. fold fc bc.
  assert (Hfst : fst (if negb (truthy fc) && truthy bc then (bc, bc)
                      else if negb (truthy bc) && truthy fc then (fc, [])
                      else (fc, bc))
                 = if negb (truthy fc) then bc else fc).
  { destruct (truthy fc) eqn:Ef, (truthy bc) eqn:Eb; simpl; try reflexivity.
    apply truthy_false in Ef, Eb. congruence. }
  split; [exact Hfst|]. split.
  - destruct (truthy fc) eqn:Ef, (truthy bc) eqn:Eb; simpl; try reflexivity.
    apply truthy_false in Eb. congruence.
  - intros [f [Hin Hne]]. rewrite Hfst.
    destruct (pf_side f) eqn:Es.
    + assert (Hf : fc <> []).
      { apply combine_nonempty. exists (pf_text f). split; [|exact Hne].
        unfold front_texts. apply in_map, filter_In. split; [exact Hin|].
        now rewrite Es. }
      apply truthy_true in Hf. now rewrite Hf; simpl; apply truthy_true.
    + assert (Hb : bc <> []).
      { apply combine_nonempty. exists (pf_text f). split; [|exact Hne].
        unfold back_texts. apply in_map, filter_In. split; [exact Hin|].
        now rewrite Es. }
      destruct (truthy fc) eqn:Ef; simpl; [now apply truthy_true|exact Hb].
    + assert (Hf : fc <> []).
      { apply combine_nonempty. exists (pf_text f). split; [|exact Hne].
        unfold front_texts. apply in_map, filter_In. split; [exact Hin|].
        now rewrite Es. }
      apply truthy_true in Hf. now rewrite Hf; simpl; apply truthy_true.
Qed.

(* ================================================================== *)
(** ** The side classifier *)

(** The three outcomes, by comparison of the two scores. *)
Lemma detect_by_scores (U : UCD) (text : pystr) :
  let back_score := score back_indicators (str_lower U text) in
  let front_score := score front_indicators (str_lower U text) in
  (front_score < back_score -> detect_document_side U text = Back)
  /\ (back_score < front_score -> detect_document_side U text = Front)
  /\ (back_score = front_score -> detect_document_side U text = Unknown).
Proof.
  intros b f. unfold detect_document_side. fold b f.
  repeat split.
  - intros H. apply Nat.ltb_lt in H. now rewrite H.
  - intros H. destruct (f <? b) eqn:E1; [apply Nat.ltb_lt in E1; lia|].
    apply Nat.ltb_lt in H. now rewrite H.
  - intros H. destruct (f <? b) eqn:E1; [apply Nat.ltb_lt in E1; lia|].
    destruct (b <? f) eqn:E2; [apply Nat.ltb_lt in E2; lia|]. reflexivity.
Qed.

(** The empty text scores nothing on either side. *)
Lemma detect_empty (U : UCD) : UCD_ok U -> detect_document_side U [] = Unknown.
Proof.
  intros Hok. unfold detect_document_side.
  rewrite (lower_ascii U Hok []) by reflexivity. reflexivity.
Qed.

(** [p] occurs in [s] as a substring. *)
Definition occurs (p s : pystr) : Prop := exists pre post, s = pre ++ p ++ post.

Lemma startswith_prefix (p s : pystr) :
  startswith p s = true <-> exists post, s = p ++ post.
Proof.
  revert s. induction p as [|x p IH]; intros s; cbn [startswith].
  - split; [intros _; now exists s | reflexivity].
  - destruct s as [|y s].
    + split; [discriminate | intros [post H]; discriminate].
    + rewrite andb_true_iff, N.eqb_eq, IH. split.
      * intros [-> [post ->]]. now exists post.
      * intros [post H]. injection H as -> ->. split; [reflexivity | now exists post].
Qed.

(** [p in s] is substring containment. *)
Lemma str_in_occurs (p s : pystr) : str_in p s = true <-> occurs p s.
Proof.
  unfold occurs. split.
  - induction s as [|c s IH]; cbn [str_in]; rewrite orb_true_iff.
    + intros [H|H]; [|discriminate].
      apply startswith_prefix in H as [post ->]. now exists [], post.
    + intros [H|H].
      * apply startswith_prefix in H as [post ->]. now exists [], post.
      * destruct (IH H) as (pre & post & ->). now exists (c :: pre), post.
  - intros (pre & post & ->). induction pre as [|c pre IH].
    + cbn [app].
      assert (H : startswith p (p ++ post) = true)
        by (apply startswith_prefix; now exists post).
      destruct (p ++ post); cbn [str_in]; now rewrite H.
    + cbn [app str_in]. rewrite IH. apply orb_true_r.
Qed.

(** The hit count of a keyword list on a text: the number of entries of
    the list, as listed, that occur in the text. *)
Inductive hit_count (text : pystr) : list pystr -> nat -> Prop :=
| hit_count_nil : hit_count text [] 0
| hit_count_hit (entry : pystr) (entries : list pystr) (n : nat) :
    occurs entry text -> hit_count text entries n ->
    hit_count text (entry :: entries) (S n)
| hit_count_miss (entry : pystr) (entries : list pystr) (n : nat) :
    ~ occurs entry text -> hit_count text entries n ->
    hit_count text (entry :: entries) n.

Lemma score_hit_count (entries : list pystr) (text : pystr) :
  hit_count text entries (score entries text).
Proof.
  unfold score. induction entries as [|entry entries IH]; cbn [filter length].
  - constructor.
  - destruct (str_in entry text) eqn:E; cbn [length].
    + apply hit_count_hit; [now apply str_in_occurs | exact IH].
    + apply hit_count_miss; [|exact IH].
      intros H. apply str_in_occurs in H. congruence.
Qed.

Lemma hit_count_unique (text : pystr) (entries : list pystr) (n m : nat) :
  hit_count text entries n -> hit_count text entries m -> n = m.
Proof.
  intros Hn. revert m.
  induction Hn as [|entry entries n Ho _ IH|entry entries n Ho _ IH];
    intros m Hm; inversion Hm; subst; try contradiction; auto.
Qed.

(** [keyword] occurs in [text] in some spelling of upper and lower case
    ASCII letters. *)
Definition occurs_ignoring_case (keyword text : pystr) : Prop :=
  exists pre mid post, text = pre ++ mid ++ post /\ map ascii_lower mid = keyword.

Lemma occurs_in_lowered (keyword text : pystr) :
  occurs keyword (map ascii_lower text) <-> occurs_ignoring_case keyword text.
Proof.
  unfold occurs, occurs_ignoring_case. split.
  - intros (pre & post & H).
    apply map_eq_app in H as (l1 & l2 & -> & _ & H2).
    apply map_eq_app in H2 as (mid & l3 & -> & Hm & _).
    now exists l1, mid, l3.
  - intros (pre & mid & post & -> & <-).
    exists (map ascii_lower pre), (map ascii_lower post).
    now rewrite !map_app.
Qed.

(** The entries of a list without repetition, each kept at its last
    place. *)
Fixpoint distinct (entries : list pystr) : list pystr :=
  match entries with
  | [] => []
  | entry :: rest =>
      if str_mem entry rest then distinct rest else entry :: distinct rest
  end.

(** The claim with the hit count of a side read as the number of its
    keywords found in the text. *)
Definition classifies_by_keywords_found : Prop :=
  forall text : pystr,
    let back_found := score (distinct back_indicators) (str_lower ascii_ucd text) in
    let front_found := score (distinct front_indicators) (str_lower ascii_ucd text) in
    (front_found < back_found -> detect_document_side ascii_ucd text = Back)
    /\ (back_found < front_found -> detect_document_side ascii_ucd text = Front)
    /\ (back_found = front_found -> detect_document_side ascii_ucd text = Unknown).

(** C7 as stated fails: in "Occupation Name" one back keyword and one
    front keyword are found, and the classifier answers back, because
    the back list names occupation twice. *)
Lemma one_keyword_each_side_is_back : ~ classifies_by_keywords_found.
Proof.
  intros H.
  destruct (H (u "Occupation Name")) as (_ & _ & Heq).
  assert (Hback : detect_document_side ascii_ucd (u "Occupation Name") = Back)
    by (vm_compute; reflexivity).
  rewrite Heq in Hback; [discriminate|].
  vm_compute. reflexivity.
Qed.

(** C7, amended.  The hit count of a side is the number of entries of
    its keyword list, as listed, that occur as substrings of the
    lower-cased text (the back list names occupation and employer
    twice, so each of them counts twice); it is determined by the text.
    The classifier answers back when the back count is the larger, front
    when the front count is the larger and unknown when they are equal,
    as for the empty text.  For ASCII text, occurring in the lower-cased
    text is occurring in the text in some spelling of upper and lower
    case. *)
Theorem detect_document_side_spec (U : UCD) (text : pystr) :
  UCD_ok U ->
  exists back_hits front_hits,
    hit_count (str_lower U text) back_indicators back_hits
    /\ hit_count (str_lower U text) front_indicators front_hits
    /\ (forall n, hit_count (str_lower U text) back_indicators n -> n = back_hits)
    /\ (forall n, hit_count (str_lower U text) front_indicators n -> n = front_hits)
    /\ (front_hits < back_hits -> detect_document_side U text = Back)
    /\ (back_hits < front_hits -> detect_document_side U text = Front)
    /\ (back_hits = front_hits -> detect_document_side U text = Unknown)
    /\ (text = [] -> back_hits = 0 /\ front_hits = 0
                     /\ detect_document_side U text = Unknown)
    /\ (forallb is_ascii text = true ->
        forall keyword,
          occurs keyword (str_lower U text) <-> occurs_ignoring_case keyword text).
Proof.
  intros Hok.
  exists (score back_indicators (str_lower U text)),
         (score front_indicators (str_lower U text)).
  pose proof (score_hit_count back_indicators (str_lower U text)) as Hb.
  pose proof (score_hit_count front_indicators (str_lower U text)) as Hf.
  destruct (detect_by_scores U text) as (H1 & H2 & H3).
  split; [exact Hb|]. split; [exact Hf|].
  split; [intros n Hn; exact (hit_count_unique _ _ _ _ Hn Hb)|].
  split; [intros n Hn; exact (hit_count_unique _ _ _ _ Hn Hf)|].
  split; [exact H1|]. split; [exact H2|]. split; [exact H3|]. split.
  - intros ->. rewrite (lower_ascii U Hok []) by reflexivity.
    split; [reflexivity|]. split; [reflexivity|]. now apply detect_empty.
  - intros Ha keyword. rewrite (lower_ascii U Hok text Ha).
    apply occurs_in_lowered.
Qed.

Lemma detect_document_side_spec_witness :
  hit_count (str_lower ascii_ucd (u "Occupation Name")) back_indicators 2
  /\ hit_count (str_lower ascii_ucd (u "Occupation Name")) front_indicators 1
  /\ detect_document_side ascii_ucd (u "Occupation Name") = Back
  /\ occurs_ignoring_case (u "occupation") (u "Occupation Name").
Proof.
  destruct (detect_document_side_spec ascii_ucd (u "Occupation Name") ascii_ucd_ok)
    as (b & f & Hb & Hf & Ub & Uf & Hback & _ & _ & _ & Hci).
  assert (Eb : score back_indicators (str_lower ascii_ucd (u "Occupation Name")) = b)
    by (apply Ub, score_hit_count).
  assert (Ef : score front_indicators (str_lower ascii_ucd (u "Occupation Name")) = f)
    by (apply Uf, score_hit_count).
  vm_compute in Eb, Ef. subst b f.
  split; [exact Hb|]. split; [exact Hf|]. split; [apply Hback; lia|].
  apply Hci; [reflexivity|]. apply str_in_occurs. vm_compute. reflexivity.
Defined.

(** C10.  An entry of an indicator list adds one to the score when it
    occurs in the lower-cased text, however often it occurs; as employer
    is listed twice among the back indicators, a text that contains it
    has a back score of at least 2, and is classified back whenever its
    front score is at most 1. *)
Theorem employer_counts_twice (U : UCD) (text : pystr) :
  str_in (u "employer") (str_lower U text) = true ->
  2 <= score back_indicators (str_lower U text)
  /\ score back_indicators (str_lower U text) <= length back_indicators
  /\ (score front_indicators (str_lower U text) <= 1 ->
      detect_document_side U text = Back).
Proof.
  intros H.
  assert (H2 : 2 <= score back_indicators (str_lower U text)).
  { unfold score, back_indicators. simpl. rewrite H.
    repeat match goal with
           | |- context [str_in ?k ?t] => destruct (str_in k t)
           end; simpl; lia. }
  split; [exact H2|]. split.
  - unfold score. apply filter_length_le.
  - intros Hf. apply detect_by_scores. lia.
Qed.

(** Repeating a keyword in the text does not raise the score. *)
Lemma repeated_keyword_scores_once :
  score back_indicators (str_lower ascii_ucd (u "employer employer employer")) = 2
  /\ detect_document_side ascii_ucd (u "employer employer employer name") = Back.
Proof. split; reflexivity. Qed.

Lemma employer_counts_twice_witness :
  str_in (u "employer") (str_lower ascii_ucd (u "Employer name")) = true
  /\ detect_document_side ascii_ucd (u "Employer name") = Back.
Proof.
  split; [reflexivity|].
  apply (employer_counts_twice ascii_ucd (u "Employer name")); [reflexivity|].
  vm_compute. lia.
Defined.

(* ================================================================== *)
(** ** Merging an upload into an existing record *)

Lemma getattr_setattr (r : EmiratesIDRecord) (f g : string) (v : option pystr) :
  In g record_fields ->
  getattr (setattr r f v) g = if String.eqb f g then v else getattr r g.
Proof.
  unfold record_fields. simpl.
  intros H.
  repeat (destruct H as [<- | H]; [reflexivity|]).
  destruct H.
Qed.

Lemma hasattr_record_field (g : string) : In g record_fields -> hasattr g = true.
Proof.
  unfold record_fields. simpl. intros H.
  repeat (destruct H as [<- | H]; [reflexivity|]).
  destruct H.
Qed.

Lemma dict_get_not_in (d : dict) (k : string) :
  ~ In k (map fst d) -> dict_get d k = None.
Proof.
  induction d as [|[k' v] d IH]; simpl; intros H; [reflexivity|].
  destruct (String.eqb_spec k' k) as [->|Hne]; [tauto|].
  apply IH. tauto.
Qed.

Lemma dict_set_keys (d : dict) (k : string) (v : pystr) (x : string) :
  In x (map fst (dict_set d k v)) <-> x = k \/ In x (map fst d).
Proof.
  induction d as [|[k' v'] d IH]; simpl.
  - intuition congruence.
  - destruct (String.eqb_spec k' k) as [->|Hne]; simpl.
    + intuition congruence.
    + rewrite IH. intuition congruence.
Qed.

Lemma dict_set_nodup (d : dict) (k : string) (v : pystr) :
  NoDup (map fst d) -> NoDup (map fst (dict_set d k v)).
Proof.
  induction d as [|[k' v'] d IH]; simpl; intros H.
  - constructor; [tauto | constructor].
  - inversion H as [|? ? Hnin Hnd]; subst.
    destruct (String.eqb_spec k' k) as [->|Hne]; simpl.
    + now constructor.
    + constructor; [|now apply IH].
      rewrite dict_set_keys. intuition congruence.
Qed.

Lemma dict_union_nodup (a b : dict) :
  NoDup (map fst a) -> NoDup (map fst (dict_union a b)).
Proof.
  unfold dict_union. revert a.
  induction b as [|[k v] b IH]; simpl; intros a H; [exact H|].
  apply IH. now apply dict_set_nodup.
Qed.

(** The update loop, field by field: a truthy value in the dictionary
    replaces the stored one, anything else leaves it. *)
Lemma merge_loop_getattr (d : dict) (r : EmiratesIDRecord) (g : string) :
  NoDup (map fst d) -> In g record_fields ->
  getattr (fold_left merge_item d r) g =
    if truthy_opt (dict_get d g) then dict_get d g else getattr r g.
Proof.
  intros Hnd Hg. revert r.
  induction d as [|[k v] d IH]; intros r; simpl; [reflexivity|].
  inversion Hnd as [|? ? Hnin Hnd']; subst.
  rewrite (IH Hnd').
  destruct (String.eqb_spec k g) as [->|Hne].
  - rewrite (dict_get_not_in d g Hnin). simpl.
    unfold merge_item. simpl. rewrite (hasattr_record_field g Hg). simpl.
    destruct (truthy v); [|reflexivity].
    rewrite (getattr_setattr _ _ _ _ Hg). now rewrite String.eqb_refl.
  - assert (Hsame : getattr (merge_item r (k, v)) g = getattr r g).
    { unfold merge_item. simpl.
      destruct (hasattr k && truthy v); [|reflexivity].
      rewrite (getattr_setattr _ _ _ _ Hg).
      destruct (String.eqb_spec k g); [contradiction | reflexivity]. }
    now rewrite Hsame.
Qed.

Lemma dict_get_set_other (d : dict) (k k' : string) (v : pystr) :
  k' <> k -> dict_get (dict_set d k v) k' = dict_get d k'.
Proof.
  intros Hne. induction d as [|[k0 v0] d IH]; simpl.
  - destruct (String.eqb_spec k k'); congruence.
  - destruct (String.eqb_spec k0 k) as [->|H0]; simpl.
    + destruct (String.eqb_spec k k'); congruence.
    + destruct (String.eqb_spec k0 k'); [reflexivity | exact IH].
Qed.

Lemma dict_get_set_same (d : dict) (k : string) (v : pystr) :
  dict_get (dict_set d k v) k = Some v.
Proof.
  induction d as [|[k0 v0] d IH]; simpl.
  - now rewrite String.eqb_refl.
  - destruct (String.eqb_spec k0 k) as [->|H0]; simpl.
    + now rewrite String.eqb_refl.
    + destruct (String.eqb_spec k0 k); [contradiction | exact IH].
Qed.

(** Lookup in [{**a, **b}]: the value of [b] if it has the key, that of
    [a] otherwise. *)
Lemma dict_union_get (a b : dict) (k : string) :
  NoDup (map fst b) ->
  dict_get (dict_union a b) k
    = match dict_get b k with Some v => Some v | None => dict_get a k end.
Proof.
  unfold dict_union. revert a.
  induction b as [|[k' v'] b IH]; intros a Hnd; cbn [fold_left fst snd dict_get];
    [reflexivity|].
  inversion Hnd as [|? ? Hnin Hnd']; subst.
  rewrite (IH _ Hnd').
  destruct (String.eqb_spec k' k) as [->|Hne].
  - rewrite (dict_get_not_in b k Hnin). apply dict_get_set_same.
  - rewrite dict_get_set_other by congruence. reflexivity.
Qed.

(** The value an upload offers for a record field: the sponsor name found
    by its own pattern for [family_sponsor_name]; otherwise what the
    back-side extractor gives for the field, and what the front-side
    extractor gives when the back-side extractor has nothing for it. *)
Definition extracted (front_data back_data : dict) (sponsor_name : option pystr)
    (field : string) : option pystr :=
  if String.eqb field "family_sponsor_name" && truthy_opt sponsor_name
  then sponsor_name
  else match dict_get back_data field with
       | Some v => Some v
       | None => dict_get front_data field
       end.

(** C5.  In the update branch, every text column of the record ends up
    with the newly extracted value when that value is non-empty, and
    keeps its stored value when the extracted value is empty or absent;
    so a populated column stays populated.  The newly extracted value
    is read off the two extractors' dictionaries: the back-side value
    where there is one, else the front-side value. *)
Theorem merge_record_spec (r : EmiratesIDRecord) (front_data back_data : dict)
    (sponsor_name : option pystr) (field : string) :
  NoDup (map fst front_data) ->
  NoDup (map fst back_data) ->
  In field record_fields ->
  let new := extracted front_data back_data sponsor_name field in
  getattr (merge_record r front_data back_data sponsor_name) field
    = (if truthy_opt new then new else getattr r field)
  /\ (truthy_opt (getattr r field) = true ->
      truthy_opt (getattr (merge_record r front_data back_data sponsor_name) field) = true).
Proof.
  intros Hnd Hnb Hf new.
  assert (Heq : getattr (merge_record r front_data back_data sponsor_name) field
                = if truthy_opt new then new else getattr r field).
  { unfold merge_record, new, extracted.
    rewrite <- (dict_union_get front_data back_data field Hnb).
    destruct (truthy_opt sponsor_name) eqn:Es.
    - rewrite (getattr_setattr _ _ _ _ Hf).
      rewrite (String.eqb_sym field).
      destruct (String.eqb "family_sponsor_name" field); simpl.
      + now rewrite Es.
      + apply merge_loop_getattr; [now apply dict_union_nodup | exact Hf].
    - rewrite andb_false_r.
      apply merge_loop_getattr; [now apply dict_union_nodup | exact Hf]. }
  split; [exact Heq|].
  intros Hold. rewrite Heq.
  destruct (truthy_opt new) eqn:En; [exact En | exact Hold].
Qed.

Definition stored_record : EmiratesIDRecord :=
  {| rec_id := 7; emirates_id := Some (u "784-1990-1234567-1");
     name := Some (u "Sara Ali"); dob := None; issuing_date := None;
     nationality := Some (u "India"); gender := None; address := None;
     occupation := None; employer := Some (u "Acme"); issuing_place := Some (u "Dubai");
     family_sponsor := None; family_sponsor_name := None; expiry_date := None;
     raw_response := None; status := Some (u "pending") |}.

(** A second upload: a corrected name and an address from the front
    side; an occupation, another issuing place, an empty employer and an
    address from the back side. *)
Definition second_front : dict :=
  [("name"%string, u "Sara Ali Khan"); ("address"%string, u "Villa 1")].
Definition second_back : dict :=
  [("occupation"%string, u "Engineer"); ("issuing_place"%string, u "Sharjah");
   ("employer"%string, []); ("address"%string, u "Villa 2")].

Lemma merge_record_spec_witness :
  let merged := merge_record stored_record second_front second_back None in
  getattr merged "name" = Some (u "Sara Ali Khan")
  /\ getattr merged "occupation" = Some (u "Engineer")
  /\ getattr merged "issuing_place" = Some (u "Sharjah")
  /\ getattr merged "employer" = Some (u "Acme")
  /\ getattr merged "address" = Some (u "Villa 2")
  /\ getattr merged "nationality" = Some (u "India").
Proof.
  assert (Hf : NoDup (map fst second_front))
    by (repeat constructor; cbn; intuition discriminate).
  assert (Hb : NoDup (map fst second_back))
    by (repeat constructor; cbn; intuition discriminate).
  cbv zeta.
  split; [|split; [|split; [|split; [|split]]]].
  - apply (merge_record_spec stored_record second_front second_back None "name" Hf Hb).
    cbn. tauto.
  - apply (merge_record_spec stored_record second_front second_back None "occupation" Hf Hb).
    cbn. tauto.
  - apply (merge_record_spec stored_record second_front second_back None "issuing_place"
                             Hf Hb).
    cbn. tauto.
  - apply (merge_record_spec stored_record second_front second_back None "employer" Hf Hb).
    cbn. tauto.
  - apply (merge_record_spec stored_record second_front second_back None "address" Hf Hb).
    cbn. tauto.
  - apply (merge_record_spec stored_record second_front second_back None "nationality"
                             Hf Hb).
    cbn. tauto.
Defined.
(* ================================================================== *)
(** ** Facts about the matcher *)

Lemma advance_spec (k : nat) (st : mstate) :
  k <= length (rest st) ->
  advance k st = {| seen := rev (firstn k (rest st)) ++ seen st;
                    rest := skipn k (rest st);
                    grp1 := grp1 st |}.
Proof.
  revert st. induction k as [|k IH]; intros [sn rs g]; simpl; intros Hk.
  - reflexivity.
  - destruct rs as [|c t]; simpl in *; [lia|].
    rewrite IH by (simpl; lia). simpl.
    now rewrite <- app_assoc.
Qed.

Lemma run_length_le (p : char -> bool) (s : pystr) : run_length p s <= length s.
Proof. induction s as [|c t IH]; simpl; [lia|]. destruct (p c); simpl; lia. Qed.

Lemma run_length_firstn (p : char -> bool) (s : pystr) (k : nat) :
  k <= run_length p s -> forallb p (firstn k s) = true.
Proof.
  revert k. induction s as [|c t IH]; intros k Hk; simpl in *.
  - now destruct k.
  - destruct k as [|k]; [reflexivity|].
    destruct (p c) eqn:E; [|lia]. simpl. rewrite E. apply IH. lia.
Qed.

Lemma run_length_all (p : char -> bool) (s t : pystr) :
  forallb p s = true -> run_length p (s ++ t) = length s + run_length p t.
Proof.
  induction s as [|c s IH]; simpl; intros H; [reflexivity|].
  apply andb_true_iff in H as [Hc Hs]. rewrite Hc. now rewrite IH.
Qed.

Lemma count_up_snoc (lo n : nat) : count_up lo (S n) = count_up lo n ++ [lo + n].
Proof.
  revert lo. induction n as [|n IH]; intros lo.
  - simpl. now rewrite Nat.add_0_r.
  - change (count_up lo (S (S n))) with (lo :: count_up (S lo) (S n)).
    rewrite IH. simpl. now rewrite Nat.add_succ_r.
Qed.

Lemma count_up_in (lo n k : nat) : In k (count_up lo n) <-> lo <= k < lo + n.
Proof.
  revert lo. induction n as [|n IH]; intros lo; simpl; [lia|].
  rewrite IH. lia.
Qed.

(** The counts tried by a repetition lie between its bounds and within
    the run of matching characters. *)
Lemma rep_counts_in (g : bool) (lo : nat) (hi : option nat) (avail k : nat) :
  In k (rep_counts g lo hi avail) ->
  lo <= k /\ k <= avail /\ match hi with Some h => k <= h | None => True end.
Proof.
  unfold rep_counts. intros H.
  assert (H' : In k (count_up lo (S (match hi with Some h => Nat.min h avail | None => avail end) - lo))).
  { destruct g; [now apply in_rev in H | exact H]. }
  apply count_up_in in H'. destruct hi; lia.
Qed.

(** [\d{n}], and the like: exactly [n] characters of the class. *)
Lemma rmatch_exactly (U : UCD) (n : nat) (p : char -> bool) (st : mstate) :
  rmatch U (exactly n p) st =
    if n <=? run_length p (rest st) then [advance n st] else [].
Proof.
  unfold exactly. cbn [rmatch]. unfold rep_counts.
  destruct (Nat.leb_spec n (run_length p (rest st))) as [H|H].
  - rewrite Nat.min_l by exact H.
    replace (S n - n) with 1 by lia. reflexivity.
  - rewrite Nat.min_r by lia.
    replace (S (run_length p (rest st)) - n) with 0 by lia. reflexivity.
Qed.

(** A greedy [p+] takes the whole run. *)
Lemma match_at_plus (U : UCD) (p : char -> bool) (sn rs : pystr) :
  match_at U (plus p) sn rs =
    match run_length p rs with
    | O => None
    | S a => Some {| m_start := length sn; group0 := firstn (S a) rs; group1 := None |}
    end.
Proof.
  unfold match_at, plus. cbn [rmatch]. unfold rep_counts, mk_state. cbn [rest].
  replace (S (run_length p rs) - 1) with (run_length p rs) by lia.
  destruct (run_length p rs) as [|a] eqn:E; [reflexivity|].
  rewrite count_up_snoc, rev_app_distr. cbn [rev app map Nat.add].
  assert (Hle : S a <= length rs) by (rewrite <- E; apply run_length_le).
  rewrite advance_spec by exact Hle.
  cbn [rest grp1].
  rewrite length_skipn.
  replace (length rs - (length rs - S a)) with (S a) by lia.
  reflexivity.
Qed.

(** The first maximal run of characters of a class. *)
Definition first_run (p : char -> bool) (s : pystr) : pystr :=
  let t := dropwhile (fun c => negb (p c)) s in
  firstn (run_length p t) t.

Lemma findall_plus_all (U : UCD) (p : char -> bool) (skip : nat) (sn rs : pystr) :
  Forall (fun d => d <> [] /\ forallb p d = true)
         (map group0 (matches_from U (plus p) skip sn rs)).
Proof.
  revert skip sn. induction rs as [|c t IH]; intros skip sn.
  - destruct skip; cbn [matches_from]; [|constructor].
    rewrite match_at_plus. cbn. constructor.
  - destruct skip as [|k]; [|cbn [matches_from]; apply IH].
    cbn [matches_from]. rewrite match_at_plus.
    destruct (run_length p (c :: t)) as [|a] eqn:E.
    + apply IH.
    + cbn [map group0]. constructor; [|apply IH].
      split; [cbn; discriminate|].
      apply run_length_firstn. lia.
Qed.

Lemma findall_plus_head (U : UCD) (p : char -> bool) (sn rs : pystr) :
  hd_error (map group0 (matches_from U (plus p) O sn rs)) =
    match first_run p rs with
    | [] => None
    | d => Some d
    end.
Proof.
  revert sn. induction rs as [|c t IH]; intros sn.
  - cbn [matches_from]. rewrite match_at_plus. reflexivity.
  - cbn [matches_from]. rewrite match_at_plus.
    unfold first_run. cbn [dropwhile run_length].
    destruct (p c) eqn:E; cbn [negb].
    + cbn [run_length]. rewrite E. reflexivity.
    + rewrite IH. reflexivity.
Qed.

(* ================================================================== *)
(** ** Salary normalisation *)

Lemma digits_value_some (U : UCD) (d : pystr) (acc : N) :
  forallb (cls_d U) d = true -> exists n, digits_value U acc d = Some n.
Proof.
  revert acc. induction d as [|c d IH]; intros acc H; simpl.
  - now exists acc.
  - simpl in H. apply andb_true_iff in H as [Hc Hd].
    unfold cls_d in Hc. destruct (digit_value U c) as [v|]; [|discriminate].
    now apply IH.
Qed.

Lemma py_int_digits (U : UCD) (d : pystr) :
  d <> [] -> forallb (cls_d U) d = true ->
  exists n, py_int U d = Ok n /\ digits_value U 0 d = Some n.
Proof.
  intros Hne Hd. destruct (digits_value_some U d 0 Hd) as [n Hn].
  exists n. split; [|exact Hn].
  unfold py_int. destruct d; [congruence|]. now rewrite Hn.
Qed.

(** Converting every digit run found by [\d+] succeeds, and the first
    number is the value of the first run. *)
Lemma ints_of_runs (U : UCD) (ds : list pystr) :
  Forall (fun d => d <> [] /\ forallb (cls_d U) d = true) ds ->
  exists ns,
    fold_right (fun d acc => n <- py_int U d ;; ns <- acc ;; Ok (n :: ns)) (Ok []) ds
      = Ok ns
    /\ hd_error ns = match ds with
                     | [] => None
                     | d :: _ => digits_value U 0 d
                     end.
Proof.
  induction 1 as [|d ds [Hne Hd] _ [ns [IH _]]].
  - now exists [].
  - destruct (py_int_digits U d Hne Hd) as [n [Hn Hv]].
    exists (n :: ns). cbn [fold_right]. rewrite Hn, IH. cbn [bind hd_error].
    split; [reflexivity | now rewrite Hv].
Qed.

(** The first integer written in a string: the value of its first run
    of decimal digits, if it has one. *)
Definition first_number (U : UCD) (s : pystr) : option N :=
  match first_run (cls_d U) s with
  | [] => None
  | d => digits_value U 0 d
  end.

(** [(session.salary or "").lower()] *)
Definition salary_raw (U : UCD) (session : ChatSession) : pystr :=
  str_lower U (match salary session with
               | Some x => if truthy x then x else []
               | None => []
               end).

Lemma salary_numbers_first (U : UCD) (raw : pystr) :
  exists ns, salary_numbers U raw = Ok ns /\ hd_error ns = first_number U raw.
Proof.
  unfold salary_numbers, re_findall0.
  destruct (ints_of_runs U _ (findall_plus_all U (cls_d U) 0 [] raw)) as [ns [Hns Hhd]].
  exists ns. split; [exact Hns|].
  rewrite Hhd. unfold first_number.
  pose proof (findall_plus_head U (cls_d U) [] raw) as Hh.
  destruct (map group0 (matches_from U (plus (cls_d U)) 0 [] raw)) as [|d ds];
    cbn [hd_error] in Hh.
  - now destruct (first_run (cls_d U) raw).
  - destruct (first_run (cls_d U) raw); [discriminate|]. now injection Hh as ->.
Qed.

(** When no substring rule applies, the band is that of the first
    integer in the answer, and there is none without a digit. *)
Lemma normalize_salary_numeric (U : UCD) (session : ChatSession) :
  salary_rules U (salary_raw U session) = None ->
  normalize_salary U (Some session)
    = Ok (match first_number U (salary_raw U session) with
          | Some n => bucket n
          | None => None
          end).
Proof.
  intros Hr. unfold normalize_salary. fold (salary_raw U session). rewrite Hr.
  destruct (salary_numbers_first U (salary_raw U session)) as [ns [Hns Hhd]].
  destruct (truthy (salary_raw U session)) eqn:Et.
  - rewrite Hns. cbn [bind]. rewrite <- Hhd.
    destruct ns as [|n ns]; reflexivity.
  - apply truthy_false in Et. rewrite Et. reflexivity.
Qed.

Lemma normalize_salary_rule (U : UCD) (session : ChatSession) (k : pystr) :
  salary_rules U (salary_raw U session) = Some k ->
  normalize_salary U (Some session) = Ok (Some k).
Proof.
  intros Hr. unfold normalize_salary. fold (salary_raw U session). now rewrite Hr.
Qed.


(** *** ASCII answers do not depend on the database *)

Lemma dropwhile_ext (p q : char -> bool) (l : pystr) :
  (forall c, In c l -> p c = q c) -> dropwhile p l = dropwhile q l.
Proof.
  induction l as [|c l IH]; intros H; simpl; [reflexivity|].
  rewrite <- (H c) by (now left). destruct (p c); [|reflexivity].
  apply IH. intros; apply H. now right.
Qed.

Lemma dropwhile_incl (p : char -> bool) (l : pystr) (c : char) :
  In c (dropwhile p l) -> In c l.
Proof.
  induction l as [|x l IH]; simpl; [tauto|].
  destruct (p x); simpl; tauto.
Qed.

Lemma strip_by_ext (p q : char -> bool) (l : pystr) :
  (forall c, In c l -> p c = q c) -> strip_by p l = strip_by q l.
Proof.
  intros H. unfold strip_by, rstrip_by.
  rewrite (dropwhile_ext p q l H). f_equal.
  apply dropwhile_ext. intros c Hc. apply H.
  apply in_rev in Hc. now apply dropwhile_incl in Hc.
Qed.

Lemma run_length_ext (p q : char -> bool) (l : pystr) :
  (forall c, In c l -> p c = q c) -> run_length p l = run_length q l.
Proof.
  induction l as [|c l IH]; intros H; simpl; [reflexivity|].
  rewrite <- (H c) by (now left). destruct (p c); [|reflexivity].
  f_equal. apply IH. intros; apply H. now right.
Qed.

Lemma first_run_ext (p q : char -> bool) (l : pystr) :
  (forall c, In c l -> p c = q c) -> first_run p l = first_run q l.
Proof.
  intros H. unfold first_run.
  rewrite (dropwhile_ext (fun c => negb (p c)) (fun c => negb (q c)) l)
    by (intros c Hc; now rewrite (H c Hc)).
  f_equal. apply run_length_ext. intros c Hc. apply H.
  now apply dropwhile_incl in Hc.
Qed.

Lemma firstn_incl (n : nat) (l : pystr) (c : char) :
  In c (firstn n l) -> In c l.
Proof.
  revert l. induction n as [|n IH]; intros [|x l]; simpl; try tauto.
  intros [H|H]; [now left | right; now apply IH].
Qed.

Lemma first_run_incl (p : char -> bool) (l : pystr) (c : char) :
  In c (first_run p l) -> In c l.
Proof.
  unfold first_run. intros H.
  apply firstn_incl in H. now apply dropwhile_incl in H.
Qed.

Lemma all_ascii_in (s : pystr) :
  forallb is_ascii s = true -> forall c, In c s -> is_ascii c = true.
Proof. intros H. now apply forallb_forall. Qed.

Section AsciiAgreement.
Variable U : UCD.
Hypothesis Hok : UCD_ok U.

Lemma cls_d_ascii (c : char) :
  is_ascii c = true -> cls_d U c = cls_d ascii_ucd c.
Proof.
  intros H. unfold cls_d. rewrite (digit_ascii U Hok c H). reflexivity.
Qed.

Lemma strip_ascii (s : pystr) :
  forallb is_ascii s = true -> strip U s = strip ascii_ucd s.
Proof.
  intros H. unfold strip. apply strip_by_ext.
  intros c Hc. apply (space_ascii U Hok). now apply (all_ascii_in s H).
Qed.

Lemma digits_value_ascii (s : pystr) (acc : N) :
  forallb is_ascii s = true -> digits_value U acc s = digits_value ascii_ucd acc s.
Proof.
  revert acc. induction s as [|c s IH]; intros acc H; simpl; [reflexivity|].
  simpl in H. apply andb_true_iff in H as [Hc Hs].
  rewrite (digit_ascii U Hok c Hc).
  destruct (ascii_is_digit c); [now apply IH | reflexivity].
Qed.

Lemma first_number_ascii (s : pystr) :
  forallb is_ascii s = true -> first_number U s = first_number ascii_ucd s.
Proof.
  intros H. unfold first_number.
  rewrite (first_run_ext (cls_d U) (cls_d ascii_ucd) s)
    by (intros c Hc; apply cls_d_ascii; now apply (all_ascii_in s H)).
  destruct (first_run (cls_d ascii_ucd) s) as [|c d] eqn:E; [reflexivity|].
  apply digits_value_ascii. apply forallb_forall. intros x Hx.
  apply (all_ascii_in s H). apply (first_run_incl (cls_d ascii_ucd)). now rewrite E.
Qed.

Lemma salary_rules_ascii (raw : pystr) :
  forallb is_ascii raw = true -> salary_rules U raw = salary_rules ascii_ucd raw.
Proof.
  intros H. unfold salary_rules. now rewrite (strip_ascii raw H).
Qed.

Lemma ascii_lower_is_ascii (s : pystr) :
  forallb is_ascii s = true -> forallb is_ascii (map ascii_lower s) = true.
Proof.
  induction s as [|c s IH]; simpl; [reflexivity|].
  intros H. apply andb_true_iff in H as [Hc Hs]. rewrite (IH Hs), andb_true_r.
  unfold is_ascii, ascii_lower in *. nbool.
Qed.

(** For an answer written in ASCII the band is the one computed with
    the ASCII tables. *)
Lemma normalize_salary_ascii (session : ChatSession) :
  forallb is_ascii (match salary session with Some x => x | None => [] end) = true ->
  normalize_salary U (Some session) = normalize_salary ascii_ucd (Some session).
Proof.
  intros H.
  assert (Hraw : salary_raw U session = salary_raw ascii_ucd session
                 /\ forallb is_ascii (salary_raw ascii_ucd session) = true).
  { unfold salary_raw. destruct (salary session) as [x|]; [destruct (truthy x)|];
      (rewrite (lower_ascii U Hok) by (exact H || reflexivity));
      (split; [reflexivity|]); cbn [ascii_ucd str_lower];
      try apply ascii_lower_is_ascii; try exact H; reflexivity. }
  destruct Hraw as [Hraw Ha].
  destruct (salary_rules ascii_ucd (salary_raw ascii_ucd session)) as [k|] eqn:Er.
  - rewrite (normalize_salary_rule ascii_ucd session k Er).
    apply normalize_salary_rule. rewrite Hraw. now rewrite salary_rules_ascii.
  - rewrite (normalize_salary_numeric ascii_ucd session Er).
    rewrite normalize_salary_numeric by (rewrite Hraw; now rewrite salary_rules_ascii).
    rewrite Hraw. now rewrite first_number_ascii.
Qed.

End AsciiAgreement.






Definition session_with_salary (x : pystr) : ChatSession :=
  {| step := u "q3"; salary := Some x; full_name := None;
     emirates_id_number := None; s_dob := None; expiry := None;
     s_nationality := None; s_occupation := None; emirates_id_uploaded := false |}.


(* ================================================================== *)
(** ** The matcher: groups and positions *)

(** Every match of the pattern passes through its group. *)
Fixpoint sets_grp (r : regex) : bool :=
  match r with
  | Seq a b => sets_grp a || sets_grp b
  | Alt a b => sets_grp a && sets_grp b
  | Grp _ => true
  | Ahead r' => sets_grp r'
  | _ => false
  end.

Lemma advance_grp1 (k : nat) (st : mstate) : grp1 (advance k st) = grp1 st.
Proof.
  revert st. induction k as [|k IH]; intros st; simpl; [reflexivity|].
  destruct (rest st); [reflexivity|]. now rewrite IH.
Qed.

Lemma advance_rest_suffix (k : nat) (st : mstate) :
  exists j, rest (advance k st) = skipn j (rest st).
Proof.
  revert st. induction k as [|k IH]; intros st; simpl.
  - now exists 0.
  - destruct (rest st) as [|c t] eqn:E.
    + exists 0. now rewrite E.
    + destruct (IH {| seen := c :: seen st; rest := t; grp1 := grp1 st |}) as [j Hj].
      exists (S j). exact Hj.
Qed.

(** A group once set stays set. *)
Lemma rmatch_keeps_grp (U : UCD) (r : regex) :
  forall st st', In st' (rmatch U r st) -> grp1 st <> None -> grp1 st' <> None.
Proof.
  induction r; intros st st' Hin Hg; cbn [rmatch] in Hin.
  - destruct Hin as [<-|[]]. exact Hg.
  - destruct (rest st) as [|c t] eqn:E; [destruct Hin|].
    destruct (p c); [|destruct Hin].
    destruct Hin as [<-|[]]. now rewrite advance_grp1.
  - apply in_flat_map in Hin as [st1 [H1 H2]]. eauto.
  - apply in_app_or in Hin as [H|H]; eauto.
  - apply in_map_iff in Hin as [k [<- _]]. now rewrite advance_grp1.
  - apply in_map_iff in Hin as [st1 [<- _]]. discriminate.
  - destruct (at_boundary U st); [|destruct Hin]. destruct Hin as [<-|[]]. exact Hg.
  - destruct (at_eol st); [|destruct Hin]. destruct Hin as [<-|[]]. exact Hg.
  - destruct (rmatch U r st) as [|st1 l] eqn:E; [destruct Hin|].
    destruct Hin as [<-|[]]. cbn [grp1].
    apply (IHr st st1); [rewrite E; now left | exact Hg].
Qed.

Lemma rmatch_sets_grp (U : UCD) (r : regex) :
  forall st st', In st' (rmatch U r st) -> sets_grp r = true -> grp1 st' <> None.
Proof.
  induction r; intros st st' Hin Hs; cbn [rmatch] in Hin; cbn [sets_grp] in Hs;
    try discriminate.
  - apply in_flat_map in Hin as [st1 [H1 H2]].
    apply orb_true_iff in Hs as [Hs|Hs].
    + apply (rmatch_keeps_grp U r2 st1 st' H2). eauto.
    + eauto.
  - apply andb_true_iff in Hs as [Ha Hb].
    apply in_app_or in Hin as [H|H]; eauto.
  - apply in_map_iff in Hin as [st1 [<- _]]. discriminate.
  - destruct (rmatch U r st) as [|st1 l] eqn:E; [destruct Hin|].
    destruct Hin as [<-|[]]. cbn [grp1].
    apply (IHr st st1); [rewrite E; now left | exact Hs].
Qed.

Lemma match_at_group1 (U : UCD) (r : regex) (sn rs : pystr) (m : match_obj) :
  sets_grp r = true -> match_at U r sn rs = Some m -> group1 m <> None.
Proof.
  unfold match_at. intros Hs H.
  destruct (rmatch U r (mk_state sn rs)) as [|st l] eqn:E; [discriminate|].
  injection H as <-. cbn [group1].
  apply (rmatch_sets_grp U r (mk_state sn rs) st); [rewrite E; now left | exact Hs].
Qed.

Lemma search_from_match_at (U : UCD) (r : regex) (rs : pystr) :
  forall sn m, search_from U r sn rs = Some m ->
  exists sn' rs', match_at U r sn' rs' = Some m.
Proof.
  induction rs as [|c t IH]; intros sn m H; cbn [search_from] in H.
  - destruct (match_at U r sn []) eqn:E; [|discriminate].
    injection H as <-. eauto.
  - destruct (match_at U r sn (c :: t)) eqn:E.
    + injection H as <-. eauto.
    + eauto.
Qed.

(** When the pattern has its group on every path, a match found by
    [re.search] has a [group(1)]. *)
Lemma search_group1 (U : UCD) (r : regex) (s : pystr) (m : match_obj) :
  sets_grp r = true -> re_search U r s = Some m ->
  exists g, group1 m = Some g.
Proof.
  intros Hs H. apply search_from_match_at in H as [sn' [rs' H]].
  pose proof (match_at_group1 U r sn' rs' m Hs H) as Hg.
  destruct (group1 m) as [g|]; [now exists g | congruence].
Qed.

Lemma attr_strip_group1 (U : UCD) (r : regex) (s : pystr) (m : match_obj) :
  sets_grp r = true -> re_search U r s = Some m ->
  exists v, attr_strip U (group1 m) = Ok v.
Proof.
  intros Hs H. destruct (search_group1 U r s m Hs H) as [g Hg].
  rewrite Hg. now exists (strip U g).
Qed.

(* ================================================================== *)
(** ** The extractors always return *)

(** [d'] comes from [d] by assignments to keys among [ks]. *)
Definition touches (ks : list string) (d d' : dict) : Prop :=
  (forall k, ~ In k ks -> dict_get d' k = dict_get d k)
  /\ (NoDup (map fst d) -> NoDup (map fst d'))
  /\ (forall k, In k (map fst d') -> In k (map fst d) \/ In k ks).

Lemma touches_refl (ks : list string) (d : dict) : touches ks d d.
Proof. repeat split; auto. Qed.

Lemma touches_set (ks : list string) (d : dict) (k : string) (v : pystr) :
  In k ks -> touches ks d (dict_set d k v).
Proof.
  intros Hk. split; [|split].
  - intros k' Hn. apply dict_get_set_other. intros ->. contradiction.
  - apply dict_set_nodup.
  - intros k' H. apply dict_set_keys in H as [->|H]; auto.
Qed.

Lemma touches_trans (ks : list string) (d d' d'' : dict) :
  touches ks d d' -> touches ks d' d'' -> touches ks d d''.
Proof.
  intros [G1 [N1 K1]] [G2 [N2 K2]]. split; [|split].
  - intros k Hn. now rewrite G2, G1.
  - auto.
  - intros k H. destruct (K2 k H) as [H'|H']; auto.
Qed.

Lemma touches_incl (ks ks' : list string) (d d' : dict) :
  incl ks ks' -> touches ks d d' -> touches ks' d d'.
Proof.
  intros Hi [G [N K]]. split; [|split].
  - intros k Hn. apply G. intros H. apply Hn, Hi, H.
  - exact N.
  - intros k H. destruct (K k H); auto.
Qed.

Lemma index_lt {A} (xs : list A) (i : nat) :
  i < length xs -> exists x, index xs i = Ok x.
Proof.
  intros H. unfold index.
  destruct (nth_error xs i) as [x|] eqn:E; [now exists x|].
  apply nth_error_None in E. lia.
Qed.

Ltac in_list := cbn [In]; tauto.

Section Totality.
Variable U : UCD.

Lemma step_emirates_id_touches (raw : pystr) (d : dict) :
  touches ["emirates_id"%string] d (step_emirates_id U raw d).
Proof.
  unfold step_emirates_id. destruct (re_search U (id_re U) raw).
  - apply touches_set. now left.
  - apply touches_refl.
Qed.

Lemma name_re_grp : sets_grp (name_re U) = true.
Proof. reflexivity. Qed.

Lemma step_labeled_name_ok (raw : pystr) (d : dict) :
  exists d', step_labeled_name U raw d = Ok d' /\ touches ["name"%string] d d'.
Proof.
  unfold step_labeled_name.
  destruct (re_search U (name_re U) raw) as [m|] eqn:E.
  - destruct (attr_strip_group1 U _ _ m name_re_grp E) as [v Hv].
    rewrite Hv. cbn [bind]. eexists. split; [reflexivity|].
    apply touches_set. now left.
  - eexists. split; [reflexivity | apply touches_refl].
Qed.

Lemma name_scan_ok (lines rem : list pystr) (idx : nat) :
  exists r, name_scan U lines rem idx = Ok r.
Proof.
  revert idx. induction rem as [|line rem IH]; intros idx; cbn [name_scan].
  - now eexists.
  - destruct (existsb _ stopwords); [apply IH|].
    destruct (any_digit U line); [apply IH|].
    destruct ((2 <=? length (split_ws U line)) && (3 <? length line)); [|apply IH].
    destruct (str_in _ _ || str_in _ _); [apply IH|].
    destruct (idx + 1 <? length lines) eqn:El.
    + apply Nat.ltb_lt in El. destruct (index_lt lines (idx + 1) El) as [nxt Hn].
      rewrite Hn. cbn [bind]. now eexists.
    + cbn [bind]. now eexists.
Qed.

Lemma step_fallback_name_ok (normalized : pystr) (d : dict) :
  exists d', step_fallback_name U normalized d = Ok d' /\ touches ["name"%string] d d'.
Proof.
  unfold step_fallback_name.
  destruct (negb (dict_mem d "name")).
  - destruct (name_scan_ok (stripped_lines U normalized) (stripped_lines U normalized) 0)
      as [c Hc].
    rewrite Hc. cbn [bind]. eexists. split; [reflexivity|].
    destruct (truthy_opt c); [|apply touches_refl].
    destruct c; [|apply touches_refl]. apply touches_set. now left.
  - eexists. split; [reflexivity | apply touches_refl].
Qed.

Lemma format_date_ok (s : pystr) : exists v, format_date U s = Ok v.
Proof.
  unfold format_date, try_except.
  match goal with |- exists v, match ?m with _ => _ end = _ => destruct m end;
    now eexists.
Qed.

Lemma set_date_ok (k : string) (x : option pystr) (d : dict) :
  exists d', set_date U k x d = Ok d' /\ touches [k] d d'.
Proof.
  unfold set_date. destruct x as [s|].
  - destruct (truthy s).
    + destruct (format_date_ok s) as [v Hv]. rewrite Hv. cbn [bind].
      eexists. split; [reflexivity|]. apply touches_set. now left.
    + eexists. split; [reflexivity | apply touches_refl].
  - eexists. split; [reflexivity | apply touches_refl].
Qed.

Definition date_keys : list string := ["dob"; "issuing_date"; "expiry_date"]%string.

Lemma step_dates_ok (raw : pystr) (d : dict) :
  exists d', step_dates U raw d = Ok d' /\ touches date_keys d d'.
Proof.
  unfold step_dates.
  set (all_dates := re_findall1 U (date_pattern U) raw).
  destruct (set_date_ok "dob" (find_date_by_labels U raw dob_labels) d) as [d1 [H1 T1]].
  rewrite H1. cbn [bind].
  destruct (set_date_ok "issuing_date" (find_date_by_labels U raw issuing_labels) d1)
    as [d2 [H2 T2]].
  rewrite H2. cbn [bind].
  destruct (set_date_ok "expiry_date" (find_date_by_labels U raw expiry_labels) d2)
    as [d3 [H3 T3]].
  rewrite H3. cbn [bind].
  assert (T123 : touches date_keys d d3).
  { apply touches_trans with d2; [apply touches_trans with d1|].
    - eapply touches_incl; [|exact T1]. intros k [<-|[]]. now left.
    - eapply touches_incl; [|exact T2]. intros k [<-|[]]. right; now left.
    - eapply touches_incl; [|exact T3]. intros k [<-|[]]. right; right; now left. }
  assert (H4 : exists d4,
             (if negb (dict_mem d3 "expiry_date") && negb (length all_dates =? 0)
              then d0 <- index_last all_dates ;; v <- format_date U d0 ;;
                   Ok (dict_set d3 "expiry_date" v)
              else Ok d3) = Ok d4 /\ touches date_keys d3 d4).
  { destruct (negb (dict_mem d3 "expiry_date") && negb (length all_dates =? 0)) eqn:E.
    - apply andb_true_iff in E as [_ E]. apply negb_true_iff, Nat.eqb_neq in E.
      unfold index_last.
      destruct (index_lt all_dates (length all_dates - 1)) as [d0 H0]; [lia|].
      rewrite H0. cbn [bind]. destruct (format_date_ok d0) as [v Hv].
      rewrite Hv. cbn [bind]. eexists. split; [reflexivity|].
      apply touches_set. right; right; now left.
    - eexists. split; [reflexivity | apply touches_refl]. }
  destruct H4 as [d4 [H4 T4]]. rewrite H4. cbn [bind].
  destruct (negb (truthy_opt (find_date_by_labels U raw issuing_labels))
            && negb (length all_dates =? 0)).
  - destruct (2 <=? length all_dates) eqn:E2.
    + apply Nat.leb_le in E2.
      destruct (index_lt all_dates 1) as [d0 H0]; [lia|].
      rewrite H0. cbn [bind]. destruct (format_date_ok d0) as [v Hv].
      rewrite Hv. cbn [bind]. eexists. split; [reflexivity|].
      apply touches_trans with d4; [now apply touches_trans with d3|].
      apply touches_set. right; now left.
    + eexists. split; [reflexivity|]. now apply touches_trans with d3.
  - eexists. split; [reflexivity|]. now apply touches_trans with d3.
Qed.

Lemma nationality_re_grp : sets_grp (nationality_re U) = true.
Proof. reflexivity. Qed.

Lemma step_nationality_ok (raw : pystr) (d : dict) :
  exists d', step_nationality U raw d = Ok d' /\ touches ["nationality"%string] d d'.
Proof.
  unfold step_nationality.
  destruct (re_search U (nationality_re U) raw) as [m|] eqn:E.
  - destruct (attr_strip_group1 U _ _ m nationality_re_grp E) as [v Hv].
    rewrite Hv. cbn [bind]. eexists. split; [reflexivity|].
    apply touches_set. now left.
  - eexists. split; [reflexivity | apply touches_refl].
Qed.

Lemma step_gender_touches (raw : pystr) (d : dict) :
  touches ["gender"; "sex"]%string d (step_gender U raw d).
Proof.
  unfold step_gender.
  destruct (gender_scan U raw (gender_patterns U)) as [g|]; [|apply touches_refl].
  destruct (truthy g); [|apply touches_refl].
  destruct (str_mem _ _); [|destruct (str_mem _ _)];
    (eapply touches_trans; [apply touches_set; now left | apply touches_set; right; now left]).
Qed.

Lemma address_re_grp : sets_grp (address_re U) = true.
Proof. reflexivity. Qed.

Lemma address_after_nationality_ok (nat_low : pystr) (lines rem : list pystr) (idx : nat) :
  exists r, address_after_nationality U nat_low lines rem idx = Ok r.
Proof.
  revert idx. induction rem as [|line rem IH]; intros idx;
    cbn [address_after_nationality].
  - now eexists.
  - destruct (str_in nat_low (str_lower U line)); [|apply IH].
    destruct (idx + 1 <? length lines) eqn:El; [|apply IH].
    apply Nat.ltb_lt in El. destruct (index_lt lines (idx + 1) El) as [cand Hc].
    rewrite Hc. cbn [bind].
    destruct ((4 <? length cand) && negb (any_digit U cand)); [now eexists | apply IH].
Qed.

Lemma step_address_ok (raw normalized : pystr) (d : dict) :
  exists d', step_address U raw normalized d = Ok d' /\ touches ["address"%string] d d'.
Proof.
  unfold step_address.
  destruct (re_search U (address_re U) raw) as [m|] eqn:E.
  - destruct (attr_strip_group1 U _ _ m address_re_grp E) as [v Hv].
    rewrite Hv. cbn [bind]. eexists. split; [reflexivity|].
    apply touches_set. now left.
  - assert (H1 : exists d1,
               (if dict_mem d "nationality" then
                  nat_val <- dict_item d "nationality" ;;
                  found <- address_after_nationality U (str_lower U nat_val)
                             (stripped_lines U normalized) (stripped_lines U normalized) 0 ;;
                  Ok (match found with
                      | Some cand => dict_set d "address" cand
                      | None => d
                      end)
                else Ok d) = Ok d1 /\ touches ["address"%string] d d1).
    { unfold dict_mem, dict_item.
      destruct (dict_get d "nationality") as [nv|].
      - cbn [bind].
        destruct (address_after_nationality_ok (str_lower U nv)
                    (stripped_lines U normalized) (stripped_lines U normalized) 0)
          as [found Hf].
        rewrite Hf. cbn [bind]. eexists. split; [reflexivity|].
        destruct found; [apply touches_set; now left | apply touches_refl].
      - eexists. split; [reflexivity | apply touches_refl]. }
    destruct H1 as [d1 [H1 T1]]. rewrite H1. cbn [bind].
    destruct (negb (dict_mem d1 "address")).
    + eexists. split; [reflexivity|].
      destruct (address_scan U (rev (stripped_lines U normalized)));
        [|exact T1].
      apply touches_trans with d1; [exact T1 | apply touches_set; now left].
    + eexists. split; [reflexivity | exact T1].
Qed.

Definition front_keys : list string :=
  ["emirates_id"; "name"; "dob"; "issuing_date"; "expiry_date"; "nationality";
   "gender"; "sex"; "address"]%string.

(** The keys that the steps after the first may assign. *)
Definition later_keys : list string :=
  ["name"; "dob"; "issuing_date"; "expiry_date"; "nationality";
   "gender"; "sex"; "address"]%string.

(** [parse_fields] returns the cleaned dictionary built by its steps. *)
Lemma parse_fields_steps (text : pystr) :
  exists d, parse_fields U text = Ok (clean_all U d)
            /\ touches later_keys (step_emirates_id U text []) d.
Proof.
  unfold parse_fields.
  set (d0 := step_emirates_id U text []).
  destruct (step_labeled_name_ok text d0) as [d1 [H1 T1]]. rewrite H1. cbn [bind].
  destruct (step_fallback_name_ok (replace_char 13 10 text) d1) as [d2 [H2 T2]].
  rewrite H2. cbn [bind].
  destruct (step_dates_ok text d2) as [d3 [H3 T3]]. rewrite H3. cbn [bind].
  destruct (step_nationality_ok text d3) as [d4 [H4 T4]]. rewrite H4. cbn [bind].
  pose proof (step_gender_touches text d4) as T5.
  destruct (step_address_ok text (replace_char 13 10 text) (step_gender U text d4))
    as [d6 [H6 T6]].
  rewrite H6. cbn [bind].
  exists d6. split; [reflexivity|].
  apply touches_trans with (step_gender U text d4);
    [apply touches_trans with d4; [apply touches_trans with d3;
       [apply touches_trans with d2; [apply touches_trans with d1|]|]|]|].
  - eapply touches_incl; [|exact T1]. intros k [<-|[]]. unfold later_keys. in_list.
  - eapply touches_incl; [|exact T2]. intros k [<-|[]]. unfold later_keys. in_list.
  - eapply touches_incl; [|exact T3]. unfold date_keys, later_keys.
    intros k [<-|[<-|[<-|[]]]]; in_list.
  - eapply touches_incl; [|exact T4]. intros k [<-|[]]. unfold later_keys. in_list.
  - eapply touches_incl; [|exact T5]. unfold later_keys.
    intros k [<-|[<-|[]]]; in_list.
  - eapply touches_incl; [|exact T6]. intros k [<-|[]]. unfold later_keys. in_list.
Qed.

Lemma clean_all_keys (d : dict) : map fst (clean_all U d) = map fst d.
Proof. unfold clean_all. rewrite map_map. reflexivity. Qed.

Lemma clean_all_get (d : dict) (k : string) :
  dict_get (clean_all U d) k = option_map (clean_value U) (dict_get d k).
Proof.
  induction d as [|[k0 v0] d IH]; simpl; [reflexivity|].
  destruct (String.eqb k0 k); [reflexivity | exact IH].
Qed.

End Totality.

Section BackTotality.
Variable U : UCD.

Lemma free_text_patterns_grp (labels : list pystr) :
  Forall (fun p => sets_grp p = true) (free_text_patterns U labels).
Proof.
  unfold free_text_patterns. repeat constructor; cbn; now rewrite ?orb_true_r.
Qed.

Lemma free_text_scan_ok (raw : pystr) (patterns : list regex) :
  Forall (fun p => sets_grp p = true) patterns ->
  exists r, free_text_scan U raw patterns = Ok r.
Proof.
  induction 1 as [|p ps Hp _ IH]; cbn [free_text_scan].
  - now eexists.
  - destruct (re_search U p raw) as [m|] eqn:E; [|exact IH].
    destruct (attr_strip_group1 U _ _ m Hp E) as [v Hv]. rewrite Hv. cbn [bind].
    destruct (1 <? length (re_sub_empty U (junk_re U) v)); [now eexists | exact IH].
Qed.

Lemma step_free_text_ok (k : string) (labels : list pystr) (raw : pystr) (d : dict) :
  exists d', step_free_text U k (free_text_patterns U labels) raw d = Ok d'
             /\ touches [k] d d'.
Proof.
  unfold step_free_text.
  destruct (free_text_scan_ok raw _ (free_text_patterns_grp labels)) as [r Hr].
  rewrite Hr. cbn [bind]. eexists. split; [reflexivity|].
  destruct r; [apply touches_set; now left | apply touches_refl].
Qed.

Lemma family_sponsor_patterns_grp :
  Forall (fun p => sets_grp p = true) (family_sponsor_patterns U).
Proof.
  unfold family_sponsor_patterns. repeat constructor; cbn; now rewrite ?orb_true_r.
Qed.

Lemma family_sponsor_scan_ok (raw : pystr) (patterns : list regex) (d : dict) :
  Forall (fun p => sets_grp p = true) patterns ->
  exists d', family_sponsor_scan U raw patterns d = Ok d'
             /\ touches ["family_sponsor"%string] d d'.
Proof.
  induction 1 as [|p ps Hp _ IH]; cbn [family_sponsor_scan].
  - eexists. split; [reflexivity | apply touches_refl].
  - destruct (re_search U p raw) as [m|] eqn:E; [|exact IH].
    destruct (attr_strip_group1 U _ _ m Hp E) as [v Hv]. rewrite Hv. cbn [bind].
    destruct (str_mem _ _); [|destruct (str_mem _ _)];
      eexists; (split; [reflexivity|]);
      try (apply touches_set; now left); apply touches_refl.
Qed.

Definition back_keys : list string :=
  ["occupation"; "employer"; "issuing_place"; "family_sponsor"]%string.

Lemma parse_back_side_fields_steps (text : pystr) :
  exists d, parse_back_side_fields U text = Ok d /\ touches back_keys [] d.
Proof.
  unfold parse_back_side_fields, occupation_patterns, employer_patterns,
    issuing_place_patterns.
  destruct (step_free_text_ok "occupation"
              [u "Occupation"; u "المهنة"; u "Profession"; u "الوظيفة"] text [])
    as [d1 [H1 T1]].
  rewrite H1. cbn [bind].
  destruct (step_free_text_ok "employer"
              [u "Employer"; u "صاحب العمل"; u "Company"; u "الشركة"; u "جهة العمل"]
              text d1) as [d2 [H2 T2]].
  rewrite H2. cbn [bind].
  destruct (step_free_text_ok "issuing_place"
              [u "Issuing Place"; u "مكان الإصدار"; u "Place of Issue"; u "جهة الإصدار"]
              text d2) as [d3 [H3 T3]].
  rewrite H3. cbn [bind].
  destruct (family_sponsor_scan_ok text _ d3 family_sponsor_patterns_grp) as [d4 [H4 T4]].
  exists d4. split; [exact H4|].
  apply touches_trans with d3; [apply touches_trans with d2;
    [apply touches_trans with d1|]|].
  - eapply touches_incl; [|exact T1]. intros k [<-|[]]. unfold back_keys. in_list.
  - eapply touches_incl; [|exact T2]. intros k [<-|[]]. unfold back_keys. in_list.
  - eapply touches_incl; [|exact T3]. intros k [<-|[]]. unfold back_keys. in_list.
  - eapply touches_incl; [|exact T4]. intros k [<-|[]]. unfold back_keys. in_list.
Qed.

End BackTotality.

(** What a dictionary built from the empty one by assignments to [ks]
    looks like. *)
Lemma touches_from_empty (ks : list string) (d : dict) :
  touches ks [] d ->
  NoDup (map fst d) /\ (forall k, In k (map fst d) -> In k ks).
Proof.
  intros [_ [N K]]. split.
  - apply N. constructor.
  - intros k H. destruct (K k H) as [[]|H']. exact H'.
Qed.

Lemma parse_fields_returns (U : UCD) (text : pystr) :
  exists d, parse_fields U text = Ok d
            /\ NoDup (map fst d)
            /\ (forall k, In k (map fst d) -> In k front_keys)
            /\ (re_search U (id_re U) text = None -> dict_get d "emirates_id" = None).
Proof.
  destruct (parse_fields_steps U text) as [d [Hd T]].
  exists (clean_all U d). split; [exact Hd|].
  assert (T0 : touches front_keys [] d).
  { apply touches_trans with (step_emirates_id U text []).
    - eapply touches_incl; [|apply step_emirates_id_touches].
      intros k [<-|[]]. now left.
    - eapply touches_incl; [|exact T]. intros k H. now right. }
  destruct (touches_from_empty _ _ T0) as [N K].
  rewrite clean_all_keys. split; [exact N|]. split; [exact K|].
  intros Hnone. rewrite clean_all_get.
  destruct T as [G _]. rewrite G by (unfold later_keys; cbn [In]; intuition discriminate).
  unfold step_emirates_id. now rewrite Hnone.
Qed.

Lemma parse_back_side_fields_returns (U : UCD) (text : pystr) :
  exists d, parse_back_side_fields U text = Ok d
            /\ NoDup (map fst d)
            /\ (forall k, In k (map fst d) -> In k back_keys).
Proof.
  destruct (parse_back_side_fields_steps U text) as [d [Hd T]].
  exists d. split; [exact Hd|]. now apply touches_from_empty.
Qed.

Lemma parse_fields_empty (U : UCD) : parse_fields U [] = Ok [].
Proof. vm_compute. reflexivity. Qed.

Lemma parse_back_side_fields_empty (U : UCD) : parse_back_side_fields U [] = Ok [].
Proof. vm_compute. reflexivity. Qed.

(** C9.  For every input string the front-side and the back-side
    extractor return a dictionary and raise nothing; its keys are
    distinct and among the field names of that side; a field whose
    pattern finds nothing is left out (shown for the ID number); the
    empty string gives the empty dictionary. *)
Theorem extractors_never_raise (U : UCD) (text : pystr) :
  (exists d, parse_fields U text = Ok d
             /\ NoDup (map fst d)
             /\ (forall k, In k (map fst d) -> In k front_keys)
             /\ (re_search U (id_re U) text = None -> dict_get d "emirates_id" = None))
  /\ (exists d, parse_back_side_fields U text = Ok d
                /\ NoDup (map fst d)
                /\ (forall k, In k (map fst d) -> In k back_keys))
  /\ parse_fields U [] = Ok []
  /\ parse_back_side_fields U [] = Ok [].
Proof.
  split; [apply parse_fields_returns|].
  split; [apply parse_back_side_fields_returns|].
  split; [apply parse_fields_empty | apply parse_back_side_fields_empty].
Qed.

(* ================================================================== *)
(** ** The ID number *)

(** The characters of [s], one by one, belong to the classes [ps]. *)
Fixpoint chars_match (ps : list (char -> bool)) (s : pystr) : bool :=
  match ps, s with
  | [], _ => true
  | p :: ps', c :: s' => p c && chars_match ps' s'
  | _ :: _, [] => false
  end.

(** Three digits, hyphen, four digits, hyphen, seven digits, hyphen,
    one digit. *)
Definition id_classes (U : UCD) : list (char -> bool) :=
  repeat (cls_d U) 3 ++ [N.eqb 45] ++ repeat (cls_d U) 4 ++ [N.eqb 45]
  ++ repeat (cls_d U) 7 ++ [N.eqb 45] ++ [cls_d U].

(** An ID token stands between the text [sn] (read backwards) and the
    text [rs]: [rs] starts with the eighteen characters of the shape, and
    neither the character before them nor the one after is a word
    character. *)
Definition id_token_at (U : UCD) (sn rs : pystr) : bool :=
  negb (word_at U sn) && chars_match (id_classes U) rs
  && negb (word_at U (skipn 18 rs)).

Lemma chars_match_length (ps : list (char -> bool)) (s : pystr) :
  chars_match ps s = true -> length ps <= length s.
Proof.
  revert s. induction ps as [|p ps IH]; intros [|c s]; simpl; try lia; try discriminate.
  intros H. apply andb_true_iff in H as [_ H]. apply IH in H. lia.
Qed.

Lemma chars_match_app (ps qs : list (char -> bool)) (s : pystr) :
  chars_match (ps ++ qs) s
  = chars_match ps s && chars_match qs (skipn (length ps) s).
Proof.
  revert s. induction ps as [|p ps IH]; intros s; simpl; [reflexivity|].
  destruct s as [|c s]; [reflexivity|]. rewrite IH. now rewrite andb_assoc.
Qed.

Lemma chars_match_repeat (p : char -> bool) (n : nat) (s : pystr) :
  chars_match (repeat p n) s = (n <=? run_length p s).
Proof.
  revert s. induction n as [|n IH]; intros s; simpl; [reflexivity|].
  destruct s as [|c s]; [reflexivity|]. simpl.
  destruct (p c); simpl; [apply IH | reflexivity].
Qed.

Lemma chars_match_forall (q : char -> bool) (ps : list (char -> bool)) (s : pystr) :
  (forall p c, In p ps -> p c = true -> q c = true) ->
  chars_match ps s = true -> forallb q (firstn (length ps) s) = true.
Proof.
  revert s. induction ps as [|p ps IH]; intros s Hq H; [reflexivity|].
  destruct s as [|c s]; [discriminate|]. simpl in *.
  apply andb_true_iff in H as [Hc Hs].
  rewrite (Hq p c (or_introl eq_refl) Hc). simpl.
  apply IH; [|exact Hs]. intros p' c' Hin. apply Hq. now right.
Qed.

Lemma advance_nil (k : nat) (st : mstate) : rest st = [] -> advance k st = st.
Proof. intros H. destruct k; simpl; [reflexivity|]. now rewrite H. Qed.

Lemma advance_add (a b : nat) (st : mstate) :
  advance (a + b) st = advance b (advance a st).
Proof.
  revert st. induction a as [|a IH]; intros st; [reflexivity|].
  cbn [Nat.add advance]. destruct (rest st) as [|c t] eqn:E.
  - symmetry. now apply advance_nil.
  - apply IH.
Qed.

Section IdPattern.
Variable U : UCD.

(** What is left to match after a prefix of single characters. *)
Definition after_chars (ps : list (char -> bool)) (R : regex) (st : mstate)
  : list mstate :=
  if chars_match ps (rest st) then rmatch U R (advance (length ps) st) else [].

Lemma rest_advance_matched (ps : list (char -> bool)) (st : mstate) :
  chars_match ps (rest st) = true ->
  rest (advance (length ps) st) = skipn (length ps) (rest st).
Proof.
  intros H. apply chars_match_length in H. now rewrite advance_spec.
Qed.

Lemma after_chars_exactly (ps : list (char -> bool)) (n : nat) (p : char -> bool)
    (R : regex) (st : mstate) :
  after_chars ps (Seq (exactly n p) R) st = after_chars (ps ++ repeat p n) R st.
Proof.
  unfold after_chars. rewrite chars_match_app.
  destruct (chars_match ps (rest st)) eqn:E; [|reflexivity].
  cbn [rmatch andb]. rewrite rmatch_exactly, (rest_advance_matched ps st E).
  rewrite chars_match_repeat.
  destruct (n <=? run_length p (skipn (length ps) (rest st))); [|reflexivity].
  cbn [flat_map]. rewrite app_nil_r, length_app, repeat_length.
  now rewrite advance_add.
Qed.

Lemma after_chars_chr (ps : list (char -> bool)) (p : char -> bool)
    (R : regex) (st : mstate) :
  after_chars ps (Seq (Chr p) R) st = after_chars (ps ++ [p]) R st.
Proof.
  unfold after_chars. rewrite chars_match_app.
  destruct (chars_match ps (rest st)) eqn:E; [|reflexivity].
  cbn [rmatch andb]. rewrite (rest_advance_matched ps st E).
  destruct (skipn (length ps) (rest st)) as [|c t]; [reflexivity|].
  cbn [chars_match]. rewrite andb_true_r.
  destruct (p c); [|reflexivity].
  cbn [flat_map]. rewrite app_nil_r, length_app. cbn [length].
  now rewrite advance_add.
Qed.

Lemma after_chars_last (ps : list (char -> bool)) (p : char -> bool) (st : mstate) :
  after_chars ps (Seq (Chr p) Bnd) st =
    if chars_match (ps ++ [p]) (rest st)
       && at_boundary U (advance (length (ps ++ [p])) st)
    then [advance (length (ps ++ [p])) st] else [].
Proof.
  rewrite after_chars_chr. unfold after_chars.
  destruct (chars_match (ps ++ [p]) (rest st)); [|reflexivity].
  cbn [rmatch andb]. reflexivity.
Qed.

Lemma rmatch_bnd_seq (R : regex) (st : mstate) :
  rmatch U (Seq Bnd R) st = if at_boundary U st then rmatch U R st else [].
Proof.
  cbn [rmatch]. destruct (at_boundary U st); [|reflexivity].
  cbn [flat_map]. now rewrite app_nil_r.
Qed.

(** The ID pattern matches at a position exactly when the shape stands
    there between two word boundaries. *)
Lemma rmatch_id_re (st : mstate) :
  rmatch U (id_re U) st =
    if at_boundary U st && chars_match (id_classes U) (rest st)
       && at_boundary U (advance 18 st)
    then [advance 18 st] else [].
Proof.
  unfold id_re, seqs, chr. rewrite rmatch_bnd_seq.
  destruct (at_boundary U st); [|reflexivity].
  cbn [andb].
  match goal with
  | |- rmatch U ?R st = _ => change (rmatch U R st) with (after_chars [] R st)
  end.
  rewrite after_chars_exactly, after_chars_chr, after_chars_exactly, after_chars_chr,
    after_chars_exactly, after_chars_chr, after_chars_last.
  reflexivity.
Qed.

Hypothesis Hok : UCD_ok U.

Lemma digit_is_word (c : char) : cls_d U c = true -> is_word U c = true.
Proof.
  unfold cls_d, is_word. intros H.
  rewrite (digit_is_alnum U Hok c); [reflexivity|].
  destruct (digit_value U c); congruence.
Qed.

(** A token starts and ends with a digit. *)
Lemma id_token_ends (rs : pystr) :
  chars_match (id_classes U) rs = true ->
  word_at U rs = true /\ word_at U (rev (firstn 18 rs)) = true.
Proof.
  intros H. pose proof (chars_match_length _ _ H) as Hl.
  change (length (id_classes U)) with 18 in Hl.
  do 18 (destruct rs as [|? rs]; [cbn [length] in Hl; lia|]).
  cbn [id_classes repeat app chars_match] in H.
  repeat (apply andb_true_iff in H as [? H]).
  split.
  - cbn [word_at]. now apply digit_is_word.
  - cbn [firstn rev app word_at]. now apply digit_is_word.
Qed.

Lemma word_at_app (a b : pystr) : a <> [] -> word_at U (a ++ b) = word_at U a.
Proof. destruct a; [congruence | reflexivity]. Qed.

Lemma match_at_id (sn rs : pystr) :
  match_at U (id_re U) sn rs =
    if id_token_at U sn rs
    then Some {| m_start := length sn; group0 := firstn 18 rs; group1 := None |}
    else None.
Proof.
  unfold match_at, id_token_at. rewrite rmatch_id_re.
  unfold mk_state at 1 2. cbn [rest].
  destruct (chars_match (id_classes U) rs) eqn:E;
    [|now rewrite !andb_false_r, ?andb_false_l].
  destruct (id_token_ends rs E) as [Hs He].
  pose proof (chars_match_length _ _ E) as Hl.
  change (length (id_classes U)) with 18 in Hl.
  rewrite (advance_spec 18 (mk_state sn rs)) by exact Hl.
  unfold at_boundary. cbn [seen rest mk_state grp1].
  assert (Hne : rev (firstn 18 rs) <> []).
  { intros Hc. apply (f_equal (@length char)) in Hc.
    rewrite length_rev, length_firstn in Hc. cbn [length] in Hc. lia. }
  rewrite Hs, (word_at_app _ _ Hne), He.
  cbn [xorb]. rewrite !andb_true_r.
  destruct (word_at U sn); cbn [negb andb]; [reflexivity|].
  destruct (word_at U (skipn 18 rs)); cbn [negb]; [reflexivity|].
  cbn [xorb andb rest grp1].
  rewrite length_skipn. replace (length rs - (length rs - 18)) with 18 by lia.
  reflexivity.
Qed.

End IdPattern.

(** *** Where [re.search] finds its match *)

Lemma search_from_hit (U : UCD) (r : regex) (sn rs : pystr) (m : match_obj) :
  match_at U r sn rs = Some m -> search_from U r sn rs = Some m.
Proof. intros H. destruct rs; cbn [search_from]; now rewrite H. Qed.

Lemma search_from_skip (U : UCD) (r : regex) (pre : pystr) :
  forall sn rs,
  (forall k, k < length pre ->
     match_at U r (rev (firstn k pre) ++ sn) (skipn k pre ++ rs) = None) ->
  search_from U r sn (pre ++ rs) = search_from U r (rev pre ++ sn) rs.
Proof.
  induction pre as [|c pre IH]; intros sn rs H; [reflexivity|].
  cbn [app search_from].
  pose proof (H 0 ltac:(cbn [length]; lia)) as H0.
  cbn [firstn skipn rev app] in H0. rewrite H0.
  rewrite IH.
  - cbn [rev]. now rewrite <- app_assoc.
  - intros k Hk. specialize (H (S k)). cbn [firstn skipn rev length] in H.
    rewrite <- app_assoc in H. apply H. lia.
Qed.

Lemma search_from_nowhere (U : UCD) (r : regex) (rs : pystr) :
  forall sn,
  (forall k, k <= length rs ->
     match_at U r (rev (firstn k rs) ++ sn) (skipn k rs) = None) ->
  search_from U r sn rs = None.
Proof.
  induction rs as [|c rs IH]; intros sn H; cbn [search_from].
  - pose proof (H 0 ltac:(cbn [length]; lia)) as H0.
    cbn [firstn skipn rev app] in H0. now rewrite H0.
  - pose proof (H 0 ltac:(cbn [length]; lia)) as H0.
    cbn [firstn skipn rev app] in H0. rewrite H0. apply IH.
    intros k Hk. specialize (H (S k)). cbn [firstn skipn rev length] in H.
    rewrite <- app_assoc in H. apply H. lia.
Qed.

Lemma strip_by_clean (p : char -> bool) (s : pystr) :
  forallb (fun c => negb (p c)) s = true -> strip_by p s = s.
Proof.
  intros H.
  assert (Hd : forall t, forallb (fun c => negb (p c)) t = true -> dropwhile p t = t).
  { intros [|c t] Ht; [reflexivity|]. simpl in *.
    apply andb_true_iff in Ht as [Hc _]. apply negb_true_iff in Hc. now rewrite Hc. }
  unfold strip_by, rstrip_by. rewrite (Hd s H), Hd, rev_involutive; [reflexivity|].
  apply forallb_forall. intros c Hc. apply in_rev in Hc.
  revert c Hc. now apply forallb_forall.
Qed.

Section IdExtraction.
Variable U : UCD.
Hypothesis Hok : UCD_ok U.

Lemma digit_not_space (c : char) : cls_d U c = true -> is_space U c = false.
Proof.
  intros H. destruct (is_space U c) eqn:E; [|reflexivity].
  apply (space_not_alnum U Hok) in E.
  assert (Ha : is_alnum U c = true).
  { apply (digit_is_alnum U Hok). unfold cls_d in H.
    destruct (digit_value U c); congruence. }
  congruence.
Qed.

Lemma digit_not_colon (c : char) : cls_d U c = true -> (c =? 58)%N = false.
Proof.
  intros H. destruct (N.eqb_spec c 58) as [->|]; [|reflexivity].
  unfold cls_d in H. rewrite (digit_ascii U Hok 58 eq_refl) in H. discriminate.
Qed.

Lemma id_class_cases (p : char -> bool) :
  In p (id_classes U) -> p = cls_d U \/ p = N.eqb 45.
Proof.
  unfold id_classes. cbn [repeat app In]. intuition.
Qed.

(** Stripping and cleaning leave an ID token as it is. *)
Lemma id_token_clean (rs : pystr) :
  chars_match (id_classes U) rs = true ->
  strip U (firstn 18 rs) = firstn 18 rs
  /\ clean_value U (firstn 18 rs) = firstn 18 rs.
Proof.
  intros H.
  assert (Hq : forallb (fun c => negb (is_space U c) && negb (c =? 58)%N)
                       (firstn 18 rs) = true).
  { apply (chars_match_forall _ (id_classes U) rs); [|exact H].
    intros p c Hp Hc. destruct (id_class_cases p Hp) as [-> | ->].
    - now rewrite (digit_not_space c Hc), (digit_not_colon c Hc).
    - apply N.eqb_eq in Hc. subst c.
      now rewrite (space_ascii U Hok 45 eq_refl). }
  assert (Hs : strip U (firstn 18 rs) = firstn 18 rs).
  { apply strip_by_clean. apply forallb_forall. intros c Hc.
    apply (proj1 (forallb_forall _ _) Hq) in Hc.
    now apply andb_true_iff in Hc as [Hc _]. }
  split; [exact Hs|].
  unfold clean_value. rewrite Hs.
  assert (Hr : rstrip_by (N.eqb 58) (firstn 18 rs) = firstn 18 rs).
  { unfold rstrip_by.
    assert (Hd : dropwhile (A:=char) (N.eqb 58) (rev (firstn 18 rs))
                 = rev (firstn 18 rs)).
    { destruct (rev (firstn 18 rs)) as [|c t] eqn:Er; [reflexivity|].
      cbn [dropwhile].
      assert (Hin : In c (firstn 18 rs)) by (apply in_rev; rewrite Er; now left).
      apply (proj1 (forallb_forall _ _) Hq) in Hin.
      apply andb_true_iff in Hin as [_ Hc]. apply negb_true_iff in Hc.
      rewrite N.eqb_sym. now rewrite Hc. }
    now rewrite Hd, rev_involutive. }
  now rewrite Hr.
Qed.

(** The search for the ID pattern, in terms of token positions. *)
Lemma search_id_first (pre rs : pystr) :
  id_token_at U (rev pre) rs = true ->
  (forall k, k < length pre ->
     id_token_at U (rev (firstn k pre)) (skipn k (pre ++ rs)) = false) ->
  re_search U (id_re U) (pre ++ rs)
    = Some {| m_start := length pre; group0 := firstn 18 rs; group1 := None |}.
Proof.
  intros Hat Hbefore. unfold re_search.
  rewrite search_from_skip.
  - apply search_from_hit. rewrite (match_at_id U Hok), app_nil_r, Hat.
    now rewrite length_rev.
  - intros k Hk. rewrite (match_at_id U Hok), app_nil_r.
    specialize (Hbefore k Hk).
    rewrite skipn_app in Hbefore.
    replace (k - length pre) with 0 in Hbefore by lia.
    cbn [skipn] in Hbefore. now rewrite Hbefore.
Qed.

Lemma search_id_none (text : pystr) :
  (forall k, k <= length text ->
     id_token_at U (rev (firstn k text)) (skipn k text) = false) ->
  re_search U (id_re U) text = None.
Proof.
  intros H. unfold re_search. apply search_from_nowhere.
  intros k Hk. rewrite (match_at_id U Hok), app_nil_r. now rewrite (H k Hk).
Qed.

Lemma parse_fields_emirates_id (text : pystr) (m : match_obj) :
  re_search U (id_re U) text = Some m ->
  exists d, parse_fields U text = Ok d
            /\ dict_get d "emirates_id" = Some (clean_value U (strip U (group0 m))).
Proof.
  intros Hm. destruct (parse_fields_steps U text) as [d [Hd [G _]]].
  exists (clean_all U d). split; [exact Hd|].
  rewrite clean_all_get, G by (unfold later_keys; cbn [In]; intuition discriminate).
  unfold step_emirates_id. rewrite Hm. cbn [dict_set dict_get].
  now rewrite String.eqb_refl.
Qed.

End IdExtraction.

(** The claim with a token read as any stretch of the text that has the
    shape: the extractor returns the first stretch of eighteen
    characters made of three digits, hyphen, four digits, hyphen, seven
    digits, hyphen, one digit. *)
Definition first_shape_is_extracted : Prop :=
  forall pre rs : pystr,
    chars_match (id_classes ascii_ucd) rs = true ->
    (forall k, k < length pre ->
       chars_match (id_classes ascii_ucd) (skipn k (pre ++ rs)) = false) ->
    exists d, parse_fields ascii_ucd (pre ++ rs) = Ok d
              /\ dict_get d "emirates_id" = Some (firstn 18 rs).

(** C6 as stated fails: a number that follows a letter directly is not
    extracted, the pattern asking for a word boundary before it. *)
Lemma glued_number_is_not_extracted : ~ first_shape_is_extracted.
Proof.
  intros H.
  destruct (H (u "ID") (u "784-1990-1234567-1")) as (d & Hd & Hg).
  - vm_compute. reflexivity.
  - intros k Hk. change (length (u "ID")) with 2 in Hk.
    destruct k as [|[|k]]; [vm_compute; reflexivity .. | lia].
  - vm_compute in Hd. injection Hd as <-. vm_compute in Hg. discriminate.
Qed.

(** With a second number further on, it is the second that is returned. *)
Lemma glued_number_is_skipped :
  exists d, parse_fields ascii_ucd (u "ID784-1990-1234567-1 784-1991-7654321-2") = Ok d
            /\ dict_get d "emirates_id" = Some (u "784-1991-7654321-2").
Proof. eexists. split; vm_compute; reflexivity. Qed.

(** C6, amended.  When a text holds an ID token (three digits, hyphen,
    four digits, hyphen, seven digits, hyphen, one digit, with no word
    character directly before or after it), [parse_fields] returns, and
    its [emirates_id] is the first such token, character for character. *)
Theorem emirates_id_is_first_token (U : UCD) (pre rs : pystr) :
  UCD_ok U ->
  id_token_at U (rev pre) rs = true ->
  (forall k, k < length pre ->
     id_token_at U (rev (firstn k pre)) (skipn k (pre ++ rs)) = false) ->
  exists d, parse_fields U (pre ++ rs) = Ok d
            /\ dict_get d "emirates_id" = Some (firstn 18 rs).
Proof.
  intros Hok Hat Hbefore.
  pose proof (search_id_first U Hok pre rs Hat Hbefore) as Hs.
  destruct (parse_fields_emirates_id U (pre ++ rs) _ Hs) as [d [Hd Hg]].
  exists d. split; [exact Hd|]. rewrite Hg. cbn [group0].
  unfold id_token_at in Hat.
  apply andb_true_iff in Hat as [Hat _]. apply andb_true_iff in Hat as [_ Hcm].
  destruct (id_token_clean U Hok rs Hcm) as [Hstrip Hclean].
  now rewrite Hstrip, Hclean.
Qed.

Lemma emirates_id_is_first_token_witness :
  exists d, parse_fields ascii_ucd (u "ID " ++ u "784-1990-1234567-1 Name: Sara") = Ok d
            /\ dict_get d "emirates_id" = Some (u "784-1990-1234567-1").
Proof.
  apply (emirates_id_is_first_token ascii_ucd (u "ID ")
           (u "784-1990-1234567-1 Name: Sara") ascii_ucd_ok).
  - vm_compute. reflexivity.
  - intros k Hk. change (length (u "ID ")) with 3 in Hk.
    destruct k as [|[|[|k]]]; [vm_compute; reflexivity .. | lia].
Defined.

(* ================================================================== *)
(** ** Texts on which a pattern cannot match *)

(** The pattern needs a character other than [sp]. *)
Fixpoint stuck_on (sp : char) (r : regex) : Prop :=
  match r with
  | Chr p => p sp = false
  | Seq a b => stuck_on sp a \/ stuck_on sp b
  | Alt a b => stuck_on sp a /\ stuck_on sp b
  | Rep _ lo _ p => 1 <= lo /\ p sp = false
  | Grp r' => stuck_on sp r'
  | Ahead r' => stuck_on sp r'
  | _ => False
  end.

Lemma Forall_skipn_eq (sp : char) (j : nat) (s : pystr) :
  Forall (eq sp) s -> Forall (eq sp) (skipn j s).
Proof.
  revert s. induction j as [|j IH]; intros s H; [exact H|].
  destruct s as [|c s]; [constructor|]. inversion H; subst. now apply IH.
Qed.

Lemma rmatch_rest_suffix (U : UCD) (r : regex) :
  forall st st', In st' (rmatch U r st) -> exists j, rest st' = skipn j (rest st).
Proof.
  induction r; intros st st' Hin; cbn [rmatch] in Hin.
  - destruct Hin as [<-|[]]. now exists 0.
  - destruct (rest st) as [|c t] eqn:E; [destruct Hin|].
    destruct (p c); [|destruct Hin]. destruct Hin as [<-|[]].
    rewrite <- E. apply advance_rest_suffix.
  - apply in_flat_map in Hin as [st1 [H1 H2]].
    destruct (IHr1 _ _ H1) as [j1 E1]. destruct (IHr2 _ _ H2) as [j2 E2].
    exists (j1 + j2). rewrite E2, E1, skipn_skipn. f_equal. lia.
  - apply in_app_or in Hin as [H|H]; eauto.
  - apply in_map_iff in Hin as [k [<- _]]. apply advance_rest_suffix.
  - apply in_map_iff in Hin as [st1 [<- H1]]. cbn [rest]. eauto.
  - destruct (at_boundary U st); [|destruct Hin]. destruct Hin as [<-|[]]. now exists 0.
  - destruct (at_eol st); [|destruct Hin]. destruct Hin as [<-|[]]. now exists 0.
  - destruct (rmatch U r st); [destruct Hin|]. destruct Hin as [<-|[]]. now exists 0.
Qed.

Lemma flat_map_nil {A B} (f : A -> list B) (l : list A) :
  (forall x, In x l -> f x = []) -> flat_map f l = [].
Proof.
  induction l as [|x l IH]; intros H; [reflexivity|].
  cbn [flat_map]. rewrite (H x) by (now left). apply IH. intros; apply H. now right.
Qed.

Lemma run_length_stuck (sp : char) (p : char -> bool) (s : pystr) :
  p sp = false -> Forall (eq sp) s -> run_length p s = 0.
Proof.
  intros Hp H. destruct s as [|c s]; [reflexivity|].
  inversion H; subst. cbn [run_length]. now rewrite Hp.
Qed.

(** On a text made of [sp] alone such a pattern matches nowhere. *)
Lemma rmatch_stuck (U : UCD) (sp : char) (r : regex) :
  forall st, stuck_on sp r -> Forall (eq sp) (rest st) -> rmatch U r st = [].
Proof.
  induction r; intros st Hs Hall; cbn [stuck_on] in Hs; cbn [rmatch];
    try contradiction.
  - destruct (rest st) as [|c t]; [reflexivity|].
    inversion Hall; subst. now rewrite Hs.
  - destruct Hs as [Hs|Hs].
    + now rewrite (IHr1 st Hs Hall).
    + apply flat_map_nil. intros st1 H1. apply IHr2; [exact Hs|].
      destruct (rmatch_rest_suffix U r1 _ _ H1) as [j ->].
      now apply Forall_skipn_eq.
  - destruct Hs as [Ha Hb]. now rewrite (IHr1 st Ha Hall), (IHr2 st Hb Hall).
  - destruct Hs as [Hlo Hp]. rewrite (run_length_stuck sp p _ Hp Hall).
    unfold rep_counts.
    replace (S (match hi with Some h => Nat.min h 0 | None => 0 end) - lo) with 0
      by (destruct hi; lia).
    now destruct greedy.
  - now rewrite (IHr st Hs Hall).
  - now rewrite (IHr st Hs Hall).
Qed.

Lemma match_at_stuck (U : UCD) (sp : char) (r : regex) (sn rs : pystr) :
  stuck_on sp r -> Forall (eq sp) rs -> match_at U r sn rs = None.
Proof.
  intros Hs Hall. unfold match_at.
  now rewrite (rmatch_stuck U sp r (mk_state sn rs) Hs Hall).
Qed.

Lemma search_stuck (U : UCD) (sp : char) (r : regex) (s : pystr) :
  stuck_on sp r -> Forall (eq sp) s -> re_search U r s = None.
Proof.
  intros Hs. unfold re_search. generalize (@nil char) as sn.
  induction s as [|c s IH]; intros sn Hall; cbn [search_from];
    rewrite (match_at_stuck U sp r _ _ Hs Hall); [reflexivity|].
  inversion Hall; subst. now apply IH.
Qed.

Lemma matches_stuck (U : UCD) (sp : char) (r : regex) (s : pystr) :
  stuck_on sp r -> Forall (eq sp) s ->
  forall skip sn, matches_from U r skip sn s = [].
Proof.
  intros Hs. induction s as [|c s IH]; intros Hall skip sn.
  - destruct skip; cbn [matches_from]; [|reflexivity].
    now rewrite (match_at_stuck U sp r _ _ Hs Hall).
  - inversion Hall; subst.
    destruct skip; cbn [matches_from]; [|now apply IH].
    rewrite (match_at_stuck U _ r _ _ Hs Hall). now apply IH.
Qed.

Lemma seqs_stuck_first (sp : char) (r : regex) (rs : list regex) :
  stuck_on sp r -> stuck_on sp (seqs (r :: rs)).
Proof. intros H. destruct rs; cbn [seqs stuck_on]; [exact H | now left]. Qed.

Lemma alts_stuck (sp : char) (rs : list regex) :
  Forall (stuck_on sp) rs -> stuck_on sp (alts rs).
Proof.
  induction 1 as [|r rs Hr Hrs IH]; [reflexivity|].
  destruct rs; cbn [alts stuck_on]; [exact Hr | now split].
Qed.

(* ================================================================== *)
(** ** An upload whose files all read as empty text *)

Definition spaces (n : nat) : pystr := repeat 32%N n.

Lemma spaces_all (n : nat) : Forall (eq 32%N) (spaces n).
Proof. unfold spaces. induction n; cbn [repeat]; constructor; auto. Qed.

Lemma join_empty_texts (n : nat) : join (u " ") (repeat [] (S n)) = spaces n.
Proof.
  induction n as [|n IH]; [reflexivity|].
  change (join (u " ") (repeat [] (S (S n))))
    with ([] ++ u " " ++ join (u " ") (repeat [] (S n))).
  rewrite IH. reflexivity.
Qed.

Section BlankText.
Variable U : UCD.
Hypothesis Hok : UCD_ok U.

Lemma liti_stuck (s : pystr) (c : char) :
  hd_error s = Some c -> c <> 32%N -> stuck_on 32 (liti U s).
Proof.
  intros Hs Hc. destruct s as [|c' s]; [discriminate|]. injection Hs as ->.
  unfold liti. cbn [map]. apply seqs_stuck_first. cbn [stuck_on].
  rewrite (ci_caseless_text U Hok c 32) by reflexivity.
  now apply N.eqb_neq.
Qed.

Lemma digit_stuck : cls_d U 32 = false.
Proof. unfold cls_d. now rewrite (digit_ascii U Hok 32 eq_refl). Qed.

Lemma space_is_space : is_space U 32 = true.
Proof. now rewrite (space_ascii U Hok 32 eq_refl). Qed.

Lemma id_re_stuck : stuck_on 32 (id_re U).
Proof.
  unfold id_re. cbn [seqs stuck_on exactly]. right. left.
  split; [lia | exact digit_stuck].
Qed.

Lemma date_pattern_stuck : stuck_on 32 (date_pattern U).
Proof.
  unfold date_pattern, date_core. cbn [stuck_on]. apply seqs_stuck_first.
  cbn [stuck_on]. split; [lia | exact digit_stuck].
Qed.

End BlankText.

Ltac lit_stuck := eapply liti_stuck; [eassumption | reflexivity | discriminate].
Ltac each_of tac := repeat (apply Forall_cons; [tac|]); apply Forall_nil.

Section BlankFields.
Variable U : UCD.
Hypothesis Hok : UCD_ok U.

Lemma name_re_stuck : stuck_on 32 (name_re U).
Proof.
  unfold name_re. apply seqs_stuck_first, alts_stuck.
  each_of lit_stuck.
Qed.

Lemma nationality_re_stuck : stuck_on 32 (nationality_re U).
Proof.
  unfold nationality_re. apply seqs_stuck_first, alts_stuck.
  each_of lit_stuck.
Qed.

Lemma address_re_stuck : stuck_on 32 (address_re U).
Proof.
  unfold address_re. apply seqs_stuck_first, alts_stuck.
  each_of lit_stuck.
Qed.

Lemma gender_patterns_stuck : Forall (stuck_on 32) (gender_patterns U).
Proof.
  unfold gender_patterns, gender_label.
  apply Forall_cons; [|apply Forall_cons; [|apply Forall_cons; [|apply Forall_nil]]].
  - apply seqs_stuck_first, alts_stuck. each_of lit_stuck.
  - apply seqs_stuck_first, alts_stuck. each_of lit_stuck.
  - cbn [stuck_on]. apply alts_stuck. each_of lit_stuck.
Qed.

Lemma labelled_date_stuck (lbl : pystr) (c : char) :
  hd_error lbl = Some c -> c <> 32%N -> stuck_on 32 (labelled_date_re U lbl).
Proof.
  intros H1 H2. unfold labelled_date_re. apply seqs_stuck_first.
  now apply (liti_stuck U Hok lbl c).
Qed.

Lemma find_date_blank (labels : list pystr) (n : nat) :
  Forall (fun lbl => stuck_on 32 (labelled_date_re U lbl)) labels ->
  find_date_by_labels U (spaces n) labels = None.
Proof.
  induction 1 as [|lbl labels Hl _ IH]; cbn [find_date_by_labels]; [reflexivity|].
  now rewrite (search_stuck U 32 _ _ Hl (spaces_all n)).
Qed.

Lemma gender_scan_blank (patterns : list regex) (n : nat) :
  Forall (stuck_on 32) patterns -> gender_scan U (spaces n) patterns = None.
Proof.
  induction 1 as [|p ps Hp _ IH]; cbn [gender_scan]; [reflexivity|].
  now rewrite (search_stuck U 32 _ _ Hp (spaces_all n)).
Qed.

Lemma strip_spaces (n : nat) : strip U (spaces n) = [].
Proof.
  unfold strip, strip_by.
  assert (Hd : dropwhile (is_space U) (spaces n) = []).
  { induction n as [|n IH]; [reflexivity|].
    cbn [spaces repeat dropwhile]. now rewrite space_is_space. }
  now rewrite Hd.
Qed.

Lemma replace_char_spaces (n : nat) : replace_char 13 10 (spaces n) = spaces n.
Proof.
  unfold replace_char, spaces. induction n as [|n IH]; [reflexivity|].
  cbn [repeat map]. now rewrite IH.
Qed.

Lemma split_lines_spaces (n : nat) : split_lines (spaces n) = [spaces n].
Proof.
  unfold spaces. induction n as [|n IH]; [reflexivity|].
  cbn [repeat split_lines]. rewrite IH. reflexivity.
Qed.

Lemma stripped_lines_blank (n : nat) :
  stripped_lines U (replace_char 13 10 (spaces n)) = [].
Proof.
  unfold stripped_lines. rewrite replace_char_spaces, split_lines_spaces.
  cbn [map]. now rewrite strip_spaces.
Qed.

Ltac date_labels :=
  each_of ltac:(eapply labelled_date_stuck; [reflexivity | discriminate]).

(** A text of spaces alone gives the front extractor nothing. *)
Lemma parse_fields_blank (n : nat) : parse_fields U (spaces n) = Ok [].
Proof.
  unfold parse_fields, step_emirates_id, step_labeled_name, step_fallback_name,
    step_dates, step_nationality, step_gender, step_address.
  rewrite (search_stuck U 32 _ _ (id_re_stuck U Hok) (spaces_all n)).
  rewrite (search_stuck U 32 _ _ name_re_stuck (spaces_all n)).
  cbn [bind dict_mem dict_get negb]. rewrite stripped_lines_blank.
  cbn [name_scan bind truthy_opt].
  rewrite !find_date_blank
    by (unfold dob_labels, issuing_labels, expiry_labels; date_labels).
  unfold re_findall1.
  rewrite (matches_stuck U 32 _ _ (date_pattern_stuck U Hok) (spaces_all n)).
  cbn [set_date bind map length Nat.eqb negb andb dict_mem dict_get truthy_opt].
  rewrite (search_stuck U 32 _ _ nationality_re_stuck (spaces_all n)).
  cbn [bind]. rewrite (gender_scan_blank _ n gender_patterns_stuck).
  rewrite (search_stuck U 32 _ _ address_re_stuck (spaces_all n)).
  cbn [bind dict_mem dict_get negb rev address_scan].
  reflexivity.
Qed.

End BlankFields.


Section BlankUpload.
Variable U : UCD.
Hypothesis Hok : UCD_ok U.

(** Every OCR call succeeded and returned the empty text. *)
Definition all_blank (files : list upload_file) : Prop :=
  Forall (fun f => uf_code f = 0 /\ uf_text f = []) files.

Definition blank_processed (f : upload_file) : processed_file :=
  {| pf_name := uf_name f; pf_text := []; pf_side := Unknown;
     pf_is_pdf := endswith (u ".pdf") (str_lower U (uf_name f)) |}.

Lemma process_files_blank (files : list upload_file) :
  all_blank files ->
  forall acc, process_files U files acc = inr (acc ++ map blank_processed files).
Proof.
  induction 1 as [|f files [Hc Ht] _ IH]; intros acc; cbn [process_files map].
  - now rewrite app_nil_r.
  - rewrite Hc, Ht. cbn [Nat.eqb negb]. rewrite IH, (detect_empty U Hok).
    now rewrite <- app_assoc.
Qed.

Lemma front_texts_blank (files : list upload_file) :
  front_texts (map blank_processed files) = repeat [] (length files).
Proof. induction files as [|f files IH]; [reflexivity|]. cbn. now f_equal. Qed.

Lemma back_texts_blank (files : list upload_file) :
  back_texts (map blank_processed files) = [].
Proof. induction files as [|f files IH]; [reflexivity|]. exact IH. Qed.

Lemma combine_blank (n : nat) : combine (repeat [] (S n)) = spaces n.
Proof. unfold combine. cbn [repeat]. apply (join_empty_texts n). Qed.

Lemma combined_texts_blank (f : upload_file) (files : list upload_file) :
  combined_texts (map blank_processed (f :: files)) = (spaces (length files), []).
Proof.
  unfold combined_texts. rewrite front_texts_blank, back_texts_blank.
  cbn [length]. rewrite !combine_blank.
  destruct (length files); reflexivity.
Qed.

(** The record created from an upload that extracted nothing. *)
Definition blank_record (fresh_id : nat) (front_combined : pystr)
    (pfs : list processed_file) : EmiratesIDRecord :=
  create_record fresh_id [] [] None front_combined [] pfs.

(** Such an upload, for a session without a record, gets through the
    first part of the handler, which lists the eight front fields and
    the three back fields of [expected_back] as missing. *)
Lemma upload_store_blank (session : ChatSession) (fresh_id : nat)
    (f : upload_file) (files : list upload_file) :
  all_blank (f :: files) ->
  exists st,
    upload_store U session None fresh_id (f :: files) = Ok (inr st)
    /\ st_record st = blank_record fresh_id (spaces (length files))
                                   (map blank_processed (f :: files))
    /\ st_missing st = expected_front ++ expected_back
    /\ st_front_data st = [] /\ st_back_data st = []
    /\ st_files st = map blank_processed (f :: files).
Proof.
  intros Hb. unfold upload_store.
  rewrite (process_files_blank _ Hb []). cbn [app].
  rewrite combined_texts_blank.
  rewrite (parse_fields_blank U Hok), parse_back_side_fields_empty.
  cbn [bind find_sponsor_name dict_get opt_eqb].
  eexists. split; [reflexivity|].
  cbn [st_record st_missing st_front_data st_back_data st_files].
  repeat split; reflexivity.
Qed.

End BlankUpload.

Definition blank_file : upload_file :=
  {| uf_name := u "front.jpg"; uf_text := []; uf_code := 0; uf_err := [] |}.

Definition fresh_session : ChatSession :=
  {| step := u "awaiting_id_frontside"; salary := Some (u "above 5000 AED");
     full_name := None; emirates_id_number := None; s_dob := None;
     expiry := None; s_nationality := None; s_occupation := None;
     emirates_id_uploaded := false |}.

(** The claim that every front field and the four back fields of the
    back-side extractor are in the list of missing fields that the
    handler makes for its response. *)
Definition twelve_fields_reported : Prop :=
  forall st,
    upload_store ascii_ucd fresh_session None 1 [blank_file] = Ok (inr st) ->
    forall field,
      In field (expected_front
                ++ ["occupation"; "employer"; "issuing_place"; "family_sponsor"]%string) ->
      In field (st_missing st).

(** C4 as stated fails: [family_sponsor] is not in the list. *)
Lemma family_sponsor_not_reported : ~ twelve_fields_reported.
Proof.
  intros H.
  destruct (upload_store_blank ascii_ucd ascii_ucd_ok fresh_session 1 blank_file [])
    as (st & Hrun & _ & Hmiss & _).
  - repeat constructor.
  - specialize (H st Hrun "family_sponsor"%string).
    rewrite Hmiss in H.
    assert (Hin : In "family_sponsor"%string
                     (expected_front
                      ++ ["occupation"; "employer"; "issuing_place"; "family_sponsor"]%string))
      by (cbn; tauto).
    specialize (H Hin). cbn in H.
    repeat (destruct H as [H|H]; [discriminate|]). exact H.
Qed.

(** C4, amended.  When every OCR call of a batch returns the empty text
    with status 0 and the session has no record yet, the handler stores
    a record and the list of missing fields that it makes for its
    response is the eight front fields followed by occupation, employer
    and issuing_place; [family_sponsor] is not in it.  The list is what
    the stored record lacks. *)
Theorem blank_upload_missing_fields (U : UCD) (session : ChatSession) (fresh_id : nat)
    (f : upload_file) (files : list upload_file) :
  UCD_ok U ->
  Forall (fun x => uf_code x = 0 /\ uf_text x = []) (f :: files) ->
  exists st,
    upload_store U session None fresh_id (f :: files) = Ok (inr st)
    /\ snd (fst (emirates_id_upload U session None fresh_id (f :: files)))
       = Some (st_record st)
    /\ st_missing st
       = ["emirates_id"; "name"; "dob"; "nationality"; "gender"; "address";
          "issuing_date"; "expiry_date"; "occupation"; "employer";
          "issuing_place"]%string
    /\ ~ In "family_sponsor"%string (st_missing st)
    /\ Forall (fun field => getattr (st_record st) field = None) (st_missing st).
Proof.
  intros Hok Hb.
  destruct (upload_store_blank U Hok session fresh_id f files Hb)
    as (st & Hrun & Hrec & Hmiss & _).
  exists st. split; [exact Hrun|].
  split; [unfold emirates_id_upload; now rewrite Hrun|].
  rewrite Hmiss. split; [reflexivity|]. split.
  - cbn. intros H. repeat (destruct H as [H|H]; [discriminate|]). exact H.
  - rewrite Hrec. repeat constructor.
Qed.

Lemma blank_upload_missing_fields_witness :
  exists st,
    upload_store ascii_ucd fresh_session None 1 [blank_file; blank_file] = Ok (inr st)
    /\ snd (fst (emirates_id_upload ascii_ucd fresh_session None 1 [blank_file; blank_file]))
       = Some (st_record st)
    /\ st_missing st
       = ["emirates_id"; "name"; "dob"; "nationality"; "gender"; "address";
          "issuing_date"; "expiry_date"; "occupation"; "employer";
          "issuing_place"]%string
    /\ ~ In "family_sponsor"%string (st_missing st)
    /\ Forall (fun field => getattr (st_record st) field = None) (st_missing st).
Proof.
  apply (blank_upload_missing_fields ascii_ucd fresh_session 1 blank_file [blank_file]
           ascii_ucd_ok).
  repeat constructor.
Defined.

(* ================================================================== *)
(** ** The upload handler as a whole *)

(** What the loop over the files appends for a file whose OCR call
    succeeded. *)
Definition classify (U : UCD) (f : upload_file) : processed_file :=
  {| pf_name := uf_name f; pf_text := uf_text f;
     pf_side := detect_document_side U (uf_text f);
     pf_is_pdf := endswith (u ".pdf") (str_lower U (uf_name f)) |}.

Definition ocr_error (f : upload_file) : pystr :=
  u "OCR.space failed for " ++ uf_name f ++ u ": " ++ uf_err f.

Lemma process_files_ok (U : UCD) (files : list upload_file) :
  Forall (fun f => uf_code f = 0) files ->
  forall acc, process_files U files acc = inr (acc ++ map (classify U) files).
Proof.
  induction 1 as [|f files Hc _ IH]; intros acc; cbn [process_files map].
  - now rewrite app_nil_r.
  - rewrite Hc. cbn [Nat.eqb negb]. rewrite IH. unfold classify.
    now rewrite <- app_assoc.
Qed.

Lemma process_files_failure (U : UCD) (ok : list upload_file) (f : upload_file)
    (rest : list upload_file) :
  Forall (fun x => uf_code x = 0) ok -> uf_code f <> 0 ->
  forall acc, process_files U (ok ++ f :: rest) acc = inl (ocr_error f).
Proof.
  intros Hok Hf. induction Hok as [|x ok Hx _ IH]; intros acc; cbn [process_files app].
  - destruct (uf_code f) as [|c] eqn:E; [congruence | reflexivity].
  - rewrite Hx. cbn [Nat.eqb negb]. apply IH.
Qed.


Lemma sponsor_name_re_grp (U : UCD) : sets_grp (sponsor_name_re U) = true.
Proof. reflexivity. Qed.

Lemma find_sponsor_name_returns (U : UCD) (back_data : dict) (back_combined : pystr) :
  exists v, find_sponsor_name U back_data back_combined = Ok v.
Proof.
  unfold find_sponsor_name.
  destruct (opt_eqb (dict_get back_data "family_sponsor") (u "Yes"));
    [|now eexists].
  destruct (re_search U (sponsor_name_re U) back_combined) as [m|] eqn:E;
    [|now eexists].
  destruct (attr_strip_group1 U _ _ m (sponsor_name_re_grp U) E) as [v Hv].
  rewrite Hv. now eexists.
Qed.

(** The record an upload leaves behind: created from the extracted
    values, or the stored one with the extracted values merged in. *)
Definition upload_record (existing : option EmiratesIDRecord) (fresh_id : nat)
    (front_data back_data : dict) (sponsor_name : option pystr)
    (pfs : list processed_file) : EmiratesIDRecord :=
  match existing with
  | None => create_record fresh_id front_data back_data sponsor_name
                          (fst (combined_texts pfs)) (snd (combined_texts pfs)) pfs
  | Some r => merge_record r front_data back_data sponsor_name
  end.

(** The session an upload leaves behind. *)
Definition upload_session (record : EmiratesIDRecord) (pfs : list processed_file)
    (session : ChatSession) : ChatSession :=
  let s := sync_session record session in
  if existsb (fun f => side_eqb (pf_side f) Back) pfs
     && str_mem (step s) [u "awaiting_id_frontside"; u "awaiting_id_backside"]
  then set_step s (u "complete") else s.

(** The first part of the handler on a request whose OCR calls all
    succeeded, step by step. *)
Lemma upload_store_success (U : UCD) (session : ChatSession)
    (existing : option EmiratesIDRecord) (fresh_id : nat) (files : list upload_file) :
  files <> [] -> Forall (fun f => uf_code f = 0) files ->
  let pfs := map (classify U) files in
  exists front_data back_data sponsor_name,
    parse_fields U (fst (combined_texts pfs)) = Ok front_data
    /\ parse_back_side_fields U (snd (combined_texts pfs)) = Ok back_data
    /\ find_sponsor_name U back_data (snd (combined_texts pfs)) = Ok sponsor_name
    /\ let record := upload_record existing fresh_id front_data back_data sponsor_name pfs in
       upload_store U session existing fresh_id files
       = Ok (inr {| st_files := pfs; st_front_data := front_data;
                    st_back_data := back_data; st_record := record;
                    st_session := upload_session record pfs session;
                    st_missing := missing_fields record |}).
Proof.
  intros Hne Hall pfs.
  destruct (parse_fields_returns U (fst (combined_texts pfs))) as [fd [Hfd _]].
  destruct (parse_back_side_fields_returns U (snd (combined_texts pfs))) as [bd [Hbd _]].
  destruct (find_sponsor_name_returns U bd (snd (combined_texts pfs))) as [sn Hsn].
  exists fd, bd, sn.
  split; [exact Hfd|]. split; [exact Hbd|]. split; [exact Hsn|].
  destruct files as [|f files]; [congruence|].
  unfold upload_store.
  rewrite (process_files_ok U (f :: files) Hall []). cbn [app]. fold pfs.
  unfold upload_record, upload_session.
  destruct (combined_texts pfs) as [fc bc] eqn:Ect. cbn [fst snd] in *.
  rewrite Hfd, Hbd. cbn [bind]. rewrite Hsn. cbn [bind].
  reflexivity.
Qed.


Lemma upload_session_fields (record : EmiratesIDRecord) (pfs : list processed_file)
    (session : ChatSession) :
  let s' := upload_session record pfs session in
  salary s' = salary session
  /\ emirates_id_uploaded s' = true
  /\ full_name s' = sync_field (name record) (full_name session)
  /\ emirates_id_number s' = sync_field (emirates_id record) (emirates_id_number session)
  /\ s_dob s' = sync_field (dob record) (s_dob session)
  /\ expiry s' = sync_field (expiry_date record) (expiry session)
  /\ s_nationality s' = sync_field (nationality record) (s_nationality session)
  /\ s_occupation s' = sync_field (occupation record) (s_occupation session).
Proof.
  unfold upload_session.
  destruct (existsb _ pfs && str_mem _ _); cbn; tauto.
Qed.


(** X2.  The first file whose OCR call fails ends the request: the answer
    is the error 500 naming that file and carrying its OCR error text,
    whatever the files before it held and whatever comes after it, and
    neither a record nor the session is written. *)
Theorem upload_stops_at_first_ocr_failure (U : UCD) (session : ChatSession)
    (existing : option EmiratesIDRecord) (fresh_id : nat)
    (ok : list upload_file) (f : upload_file) (rest : list upload_file) :
  Forall (fun x => uf_code x = 0) ok ->
  uf_code f <> 0 ->
  emirates_id_upload U session existing fresh_id (ok ++ f :: rest)
    = (Ok (JsonError 500 (u "OCR.space failed for " ++ uf_name f ++ u ": " ++ uf_err f)),
       existing, session).
Proof.
  intros Hok Hf. unfold emirates_id_upload, upload_store.
  rewrite (process_files_failure U ok f rest Hok Hf []).
  destruct (ok ++ f :: rest) eqn:E; [now destruct ok | reflexivity].
Qed.

Definition front_scan : upload_file :=
  {| uf_name := u "front.jpg";
     uf_text := u "Name: Sara Ali" ++ [10%N] ++ u "Nationality: India" ++ [10%N]
                ++ u "ID 784-1990-1234567-1";
     uf_code := 0; uf_err := [] |}.

Definition back_scan : upload_file :=
  {| uf_name := u "back.jpg";
     uf_text := u "Occupation: Engineer" ++ [10%N] ++ u "Employer: Acme" ++ [10%N]
                ++ u "Issuing Place: Dubai";
     uf_code := 0; uf_err := [] |}.

Definition failed_scan : upload_file :=
  {| uf_name := u "blurred.jpg"; uf_text := []; uf_code := 4;
     uf_err := u "Unable to recognize the file type" |}.

Lemma upload_stops_at_first_ocr_failure_witness :
  emirates_id_upload ascii_ucd fresh_session None 1 ([front_scan] ++ failed_scan :: [back_scan])
    = (Ok (JsonError 500 (u "OCR.space failed for " ++ uf_name failed_scan ++ u ": "
                          ++ uf_err failed_scan)),
       None, fresh_session).
Proof.
  apply (upload_stops_at_first_ocr_failure ascii_ucd fresh_session None 1
           [front_scan] failed_scan [back_scan]).
  - repeat constructor.
  - discriminate.
Defined.

(** How a session column stands after the upload, given the record's
    value for it: a filled column is kept, an empty one takes the
    record's value if that is not empty. *)
Definition filled_from (record_value before after : option pystr) : Prop :=
  (truthy_opt before = true -> after = before)
  /\ (truthy_opt before = false -> truthy_opt record_value = true -> after = record_value)
  /\ (truthy_opt before = false -> truthy_opt record_value = false -> after = before).

Lemma sync_field_filled (record_value before : option pystr) :
  filled_from record_value before (sync_field record_value before).
Proof.
  unfold filled_from, sync_field.
  destruct (truthy_opt record_value), (truthy_opt before); cbn; repeat split; congruence.
Qed.

(** X3.  An upload whose OCR calls succeeded never overwrites what the
    session already holds: each of the six session columns that mirror
    the record keeps a non-empty value and is filled from the stored
    record only while it is empty; the salary is not touched; and the
    session is marked as uploaded.  This is the session the handler
    leaves saved. *)
Theorem upload_fills_only_empty_session_fields (U : UCD) (session : ChatSession)
    (existing : option EmiratesIDRecord) (fresh_id : nat) (files : list upload_file) :
  files <> [] -> Forall (fun f => uf_code f = 0) files ->
  exists st,
    upload_store U session existing fresh_id files = Ok (inr st)
    /\ snd (emirates_id_upload U session existing fresh_id files) = st_session st
    /\ filled_from (name (st_record st)) (full_name session) (full_name (st_session st))
    /\ filled_from (emirates_id (st_record st)) (emirates_id_number session)
                   (emirates_id_number (st_session st))
    /\ filled_from (dob (st_record st)) (s_dob session) (s_dob (st_session st))
    /\ filled_from (expiry_date (st_record st)) (expiry session) (expiry (st_session st))
    /\ filled_from (nationality (st_record st)) (s_nationality session)
                   (s_nationality (st_session st))
    /\ filled_from (occupation (st_record st)) (s_occupation session)
                   (s_occupation (st_session st))
    /\ salary (st_session st) = salary session
    /\ emirates_id_uploaded (st_session st) = true.
Proof.
  intros Hne Hall.
  destruct (upload_store_success U session existing fresh_id files Hne Hall)
    as (fd & bd & sn & _ & _ & _ & Hrun).
  cbv zeta in Hrun.
  set (pfs := map (classify U) files) in *.
  set (record := upload_record existing fresh_id fd bd sn pfs) in *.
  destruct (upload_session_fields record pfs session)
    as (Hsal & Hup & H1 & H2 & H3 & H4 & H5 & H6).
  eexists. split; [exact Hrun|].
  split; [unfold emirates_id_upload; now rewrite Hrun|].
  cbn [st_session st_record].
  rewrite H1, H2, H3, H4, H5, H6.
  repeat (split; [apply sync_field_filled|]).
  split; [exact Hsal | exact Hup].
Qed.

Definition named_session : ChatSession :=
  {| step := u "awaiting_id_frontside"; salary := Some (u "4000 - 5000 AED");
     full_name := Some (u "S. Ali");
     emirates_id_number := None; s_dob := None; expiry := None;
     s_nationality := None; s_occupation := None; emirates_id_uploaded := false |}.

Lemma upload_fills_only_empty_session_fields_witness :
  exists st,
    upload_store ascii_ucd named_session None 1 [front_scan; back_scan] = Ok (inr st)
    /\ snd (emirates_id_upload ascii_ucd named_session None 1 [front_scan; back_scan])
       = st_session st
    /\ filled_from (name (st_record st)) (full_name named_session)
                   (full_name (st_session st))
    /\ filled_from (emirates_id (st_record st)) (emirates_id_number named_session)
                   (emirates_id_number (st_session st))
    /\ filled_from (dob (st_record st)) (s_dob named_session) (s_dob (st_session st))
    /\ filled_from (expiry_date (st_record st)) (expiry named_session)
                   (expiry (st_session st))
    /\ filled_from (nationality (st_record st)) (s_nationality named_session)
                   (s_nationality (st_session st))
    /\ filled_from (occupation (st_record st)) (s_occupation named_session)
                   (s_occupation (st_session st))
    /\ salary (st_session st) = salary named_session
    /\ emirates_id_uploaded (st_session st) = true.
Proof.
  apply (upload_fills_only_empty_session_fields ascii_ucd named_session None 1
           [front_scan; back_scan]).
  - discriminate.
  - repeat constructor.
Defined.

(* ================================================================== *)
(** ** Re-uploads, the step and the sides *)

Lemma str_eqb_eq (a b : pystr) : str_eqb a b = true <-> a = b.
Proof.
  revert b. induction a as [|x a IH]; intros [|y b]; cbn; try (split; congruence).
  rewrite andb_true_iff, N.eqb_eq, IH. split.
  - intros [-> ->]. reflexivity.
  - intros H. injection H as -> ->. tauto.
Qed.

Lemma str_eqb_refl (a : pystr) : str_eqb a a = true.
Proof. now apply str_eqb_eq. Qed.

Lemma opt_eqb_eq (x : option pystr) (s : pystr) : opt_eqb x s = true <-> x = Some s.
Proof.
  destruct x as [v|]; cbn; [|split; congruence].
  rewrite str_eqb_eq. split; congruence.
Qed.

(** Keys outside both dictionaries are outside their union. *)
Lemma dict_union_keys (a b : dict) (k : string) :
  In k (map fst (dict_union a b)) -> In k (map fst a) \/ In k (map fst b).
Proof.
  unfold dict_union. revert a.
  induction b as [|[k' v'] b IH]; intros a; cbn [fold_left]; [tauto|].
  intros H. apply IH in H. rewrite dict_set_keys in H. cbn in H |- *.
  destruct H as [[->|H]|H]; auto.
Qed.

Lemma merge_loop_frame (d : dict) (r : EmiratesIDRecord) :
  rec_id (fold_left merge_item d r) = rec_id r
  /\ raw_response (fold_left merge_item d r) = raw_response r.
Proof.
  revert r. induction d as [|kv d IH]; intros r; cbn [fold_left]; [tauto|].
  destruct (IH (merge_item r kv)) as [-> ->].
  unfold merge_item. destruct (hasattr (fst kv) && truthy (snd kv)); cbn; tauto.
Qed.

Lemma merge_record_frame (r : EmiratesIDRecord) (front_data back_data : dict)
    (sponsor_name : option pystr) :
  rec_id (merge_record r front_data back_data sponsor_name) = rec_id r
  /\ raw_response (merge_record r front_data back_data sponsor_name) = raw_response r.
Proof.
  unfold merge_record.
  destruct (merge_loop_frame (dict_union front_data back_data) r) as [H1 H2].
  destruct (truthy_opt sponsor_name); cbn; rewrite ?H1, ?H2; tauto.
Qed.

(** The value of a column after the merge. *)
Lemma merge_record_getattr (r : EmiratesIDRecord) (front_data back_data : dict)
    (sponsor_name : option pystr) (column : string) :
  NoDup (map fst front_data) -> In column record_fields ->
  getattr (merge_record r front_data back_data sponsor_name) column
    = if String.eqb column "family_sponsor_name" && truthy_opt sponsor_name
      then sponsor_name
      else if truthy_opt (dict_get (dict_union front_data back_data) column)
           then dict_get (dict_union front_data back_data) column
           else getattr r column.
Proof.
  intros Hnd Hc. unfold merge_record.
  destruct (truthy_opt sponsor_name) eqn:Es.
  - rewrite (getattr_setattr _ _ _ _ Hc), (String.eqb_sym column).
    destruct (String.eqb "family_sponsor_name" column); cbn [andb]; [reflexivity|].
    apply merge_loop_getattr; [now apply dict_union_nodup | exact Hc].
  - rewrite andb_false_r.
    apply merge_loop_getattr; [now apply dict_union_nodup | exact Hc].
Qed.

(** X4.  A second upload for a session updates the stored record in
    place: the record the handler leaves keeps its key, its
    [raw_response] (the texts and file names of the first upload) and
    its [status], and no column that held a value is left empty. *)
Theorem reupload_keeps_record_identity (U : UCD) (session : ChatSession)
    (stored : EmiratesIDRecord) (fresh_id : nat) (files : list upload_file) :
  files <> [] -> Forall (fun f => uf_code f = 0) files ->
  exists record,
    snd (fst (emirates_id_upload U session (Some stored) fresh_id files)) = Some record
    /\ rec_id record = rec_id stored
    /\ raw_response record = raw_response stored
    /\ status record = status stored
    /\ Forall (fun column => truthy_opt (getattr stored column) = true ->
                             truthy_opt (getattr record column) = true) record_fields.
Proof.
  intros Hne Hall.
  destruct (upload_store_success U session (Some stored) fresh_id files Hne Hall)
    as (fd & bd & sn & Hfd & Hbd & _ & Hrun).
  cbv zeta in Hrun.
  set (pfs := map (classify U) files) in *.
  destruct (parse_fields_returns U (fst (combined_texts pfs))) as (fd' & Hfd' & Hnd & Hkeys & _).
  rewrite Hfd in Hfd'. injection Hfd' as <-.
  destruct (parse_back_side_fields_returns U (snd (combined_texts pfs)))
    as (bd' & Hbd' & _ & Hbkeys).
  rewrite Hbd in Hbd'. injection Hbd' as <-.
  cbn [upload_record] in Hrun.
  destruct (merge_record_frame stored fd bd sn) as [Hid Hraw].
  exists (merge_record stored fd bd sn).
  split; [unfold emirates_id_upload; now rewrite Hrun|].
  split; [exact Hid|]. split; [exact Hraw|]. split.
  - change (status (merge_record stored fd bd sn))
      with (getattr (merge_record stored fd bd sn) "status").
    rewrite (merge_record_getattr stored fd bd sn "status" Hnd) by (cbn; tauto).
    cbn [String.eqb Ascii.eqb Bool.eqb andb].
    rewrite dict_get_not_in; [reflexivity|].
    intros Hin. apply dict_union_keys in Hin. destruct Hin as [Hin|Hin].
    + apply Hkeys in Hin. cbn in Hin.
      repeat (destruct Hin as [Hin|Hin]; [discriminate|]). exact Hin.
    + apply Hbkeys in Hin. cbn in Hin.
      repeat (destruct Hin as [Hin|Hin]; [discriminate|]). exact Hin.
  - apply Forall_forall. intros column Hc Hold.
    rewrite (merge_record_getattr stored fd bd sn column Hnd Hc).
    destruct (String.eqb column "family_sponsor_name" && truthy_opt sn) eqn:E1.
    + apply andb_true_iff in E1. tauto.
    + destruct (truthy_opt (dict_get (dict_union fd bd) column)) eqn:E2;
        [exact E2 | exact Hold].
Qed.

Lemma reupload_keeps_record_identity_witness :
  exists record,
    snd (fst (emirates_id_upload ascii_ucd named_session (Some stored_record) 1 [back_scan]))
      = Some record
    /\ rec_id record = rec_id stored_record
    /\ raw_response record = raw_response stored_record
    /\ status record = status stored_record
    /\ Forall (fun column => truthy_opt (getattr stored_record column) = true ->
                             truthy_opt (getattr record column) = true) record_fields.
Proof.
  apply (reupload_keeps_record_identity ascii_ucd named_session stored_record 1 [back_scan]).
  - discriminate.
  - repeat constructor.
Defined.

Lemma existsb_map {A B} (f : A -> B) (p : B -> bool) (l : list A) :
  existsb p (map f l) = existsb (fun x => p (f x)) l.
Proof. induction l as [|x l IH]; cbn; [reflexivity | now rewrite IH]. Qed.

(** Whether some file of the batch is classified as a back side. *)
Definition has_back_side (U : UCD) (files : list upload_file) : bool :=
  existsb (fun f => side_eqb (detect_document_side U (uf_text f)) Back) files.

Lemma upload_session_step (U : UCD) (record : EmiratesIDRecord)
    (files : list upload_file) (session : ChatSession) :
  step (upload_session record (map (classify U) files) session)
    = if has_back_side U files
         && str_mem (step session) [u "awaiting_id_frontside"; u "awaiting_id_backside"]
      then u "complete" else step session.
Proof.
  unfold upload_session, has_back_side. rewrite existsb_map.
  cbn [classify pf_side sync_session step].
  destruct (existsb _ files && str_mem (step session) _); reflexivity.
Qed.




Lemma back_texts_none (U : UCD) (files : list upload_file) :
  has_back_side U files = false -> back_texts (map (classify U) files) = [].
Proof.
  unfold has_back_side, back_texts.
  induction files as [|f files IH]; cbn [existsb map filter]; [reflexivity|].
  intros H. apply orb_false_iff in H as [Hf Hr].
  cbn [classify pf_side]. rewrite Hf. now apply IH.
Qed.

Lemma front_texts_all (U : UCD) (files : list upload_file) :
  has_back_side U files = false ->
  front_texts (map (classify U) files) = map uf_text files.
Proof.
  unfold has_back_side, front_texts.
  induction files as [|f files IH]; cbn [existsb map filter]; [reflexivity|].
  intros H. apply orb_false_iff in H as [Hf Hr].
  cbn [classify pf_side pf_text].
  destruct (detect_document_side U (uf_text f)); cbn in Hf |- *;
    [f_equal; now apply IH | discriminate | f_equal; now apply IH].
Qed.

Lemma combined_texts_no_back (U : UCD) (files : list upload_file) :
  has_back_side U files = false ->
  combined_texts (map (classify U) files) = (combine (map uf_text files), []).
Proof.
  intros H. unfold combined_texts.
  rewrite (back_texts_none U files H), (front_texts_all U files H).
  cbn [combine truthy negb andb].
  rewrite andb_false_r. destruct (truthy (combine (map uf_text files))); reflexivity.
Qed.

Lemma normalize_place_none (U : UCD) (record : EmiratesIDRecord) :
  UCD_ok U -> issuing_place record = None -> normalize_place U (Some record) = None.
Proof.
  intros Hok H. unfold normalize_place. rewrite H.
  change (strip U []) with (@nil char).
  rewrite (lower_ascii U Hok []) by reflexivity. reflexivity.
Qed.

(** The plan offered when the issuing place is not known. *)
Definition general_plan : product :=
  mk_product (u "General Plan (Eligible)") (u "999.00 AED") (u "Standard")
             (Some (u "https://gia-insurance-provider.com/general-plan")).

(** X6.  A first upload in which no file is classified as a back side:
    every text goes to the front extractor, the back extractor gets the
    empty text and adds nothing, so the extracted fields are exactly
    what the front extractor found in the space-joined texts; no back
    text is kept, the stored record has no issuing place nor any other
    back-side column, the three back fields are listed as missing, the
    session's step is not advanced, and the handler's table has for such
    a record only the general plan (for a salary above 5000) or the
    request to confirm the issuing place. *)
Theorem upload_without_back_side (U : UCD) (session : ChatSession) (fresh_id : nat)
    (files : list upload_file) :
  UCD_ok U ->
  files <> [] -> Forall (fun f => uf_code f = 0) files ->
  has_back_side U files = false ->
  exists st,
    upload_store U session None fresh_id files = Ok (inr st)
    /\ parse_fields U (join (u " ") (map uf_text files)) = Ok (st_front_data st)
    /\ st_back_data st = []
    /\ front_texts (st_files st) = map uf_text files
    /\ back_texts (st_files st) = []
    /\ occupation (st_record st) = None /\ employer (st_record st) = None
    /\ issuing_place (st_record st) = None /\ family_sponsor (st_record st) = None
    /\ incl expected_back (st_missing st)
    /\ normalize_place U (Some (st_record st)) = None
    /\ step (st_session st) = step session
    /\ forall salary_key,
         upload_products (normalize_place U (Some (st_record st))) salary_key
           = ([general_plan], None)
         \/ upload_products (normalize_place U (Some (st_record st))) salary_key
            = ([], Some msg_place).
Proof.
  intros Hok Hne Hall Hnb.
  destruct (upload_store_success U session None fresh_id files Hne Hall)
    as (fd & bd & sn & Hfd & Hbd & Hsn & Hrun).
  cbv zeta in Hrun.
  set (pfs := map (classify U) files) in *.
  assert (Hct : combined_texts pfs = (combine (map uf_text files), []))
    by (apply combined_texts_no_back; exact Hnb).
  rewrite Hct in Hfd, Hbd, Hsn. cbn [fst snd] in Hfd, Hbd, Hsn.
  rewrite parse_back_side_fields_empty in Hbd. injection Hbd as <-.
  change (find_sponsor_name U [] []) with (@Ok (option pystr) None) in Hsn.
  injection Hsn as <-.
  assert (Hcomb : combine (map uf_text files) = join (u " ") (map uf_text files)).
  { destruct files as [|f files]; [congruence | reflexivity]. }
  set (record := upload_record None fresh_id fd [] None pfs) in *.
  assert (Hplace : normalize_place U (Some record) = None)
    by (apply normalize_place_none; [exact Hok | reflexivity]).
  eexists. split; [exact Hrun|].
  cbn [st_front_data st_back_data st_files st_record st_session st_missing].
  split; [rewrite <- Hcomb; exact Hfd|].
  split; [reflexivity|].
  split; [unfold pfs; apply (front_texts_all U files Hnb)|].
  split; [unfold pfs; apply (back_texts_none U files Hnb)|].
  split; [reflexivity|]. split; [reflexivity|].
  split; [reflexivity|]. split; [reflexivity|].
  split.
  { intros field Hin. unfold missing_fields.
    assert (Hm : In field (filter (fun field => negb (truthy_opt (getattr record field)))
                                  (expected_front ++ expected_back))).
    { apply filter_In. split; [apply in_or_app; now right|].
      cbn in Hin. destruct Hin as [<-|[<-|[<-|[]]]]; reflexivity. }
    destruct (opt_eqb (family_sponsor record) (u "Yes")
              && negb (truthy_opt (family_sponsor_name record)));
      [apply in_or_app; now left | exact Hm]. }
  split; [exact Hplace|].
  split.
  { unfold pfs. rewrite upload_session_step, Hnb. reflexivity. }
  intros salary_key. rewrite Hplace.
  unfold upload_products, upload_table. cbn [opt_eqb].
  destruct (opt_eqb salary_key (u "above_5000")); [left | right];
    vm_compute; reflexivity.
Qed.

Lemma upload_without_back_side_witness :
  exists st,
    upload_store ascii_ucd fresh_session None 1 [front_scan] = Ok (inr st)
    /\ parse_fields ascii_ucd (join (u " ") (map uf_text [front_scan]))
       = Ok (st_front_data st)
    /\ st_back_data st = []
    /\ front_texts (st_files st) = map uf_text [front_scan]
    /\ back_texts (st_files st) = []
    /\ occupation (st_record st) = None /\ employer (st_record st) = None
    /\ issuing_place (st_record st) = None /\ family_sponsor (st_record st) = None
    /\ incl expected_back (st_missing st)
    /\ normalize_place ascii_ucd (Some (st_record st)) = None
    /\ step (st_session st) = step fresh_session
    /\ forall salary_key,
         upload_products (normalize_place ascii_ucd (Some (st_record st))) salary_key
           = ([general_plan], None)
         \/ upload_products (normalize_place ascii_ucd (Some (st_record st))) salary_key
            = ([], Some msg_place).
Proof.
  apply (upload_without_back_side ascii_ucd fresh_session 1 [front_scan] ascii_ucd_ok).
  - discriminate.
  - repeat constructor.
  - vm_compute. reflexivity.
Defined.

(* ================================================================== *)
(** ** The two product tables *)

Definition has_https_url (p : product) : bool :=
  match p_url p with
  | Some url => startswith (u "https://gia-insurance-provider.com/") url
  | None => false
  end.

(** X7.  Every product of either table carries a link into the
    provider's https site: the loop at the end of the upload handler
    gives one to any product whatever its name and plan (so its repair
    of a link without scheme never applies), and so does every row of
    the table of [compute_products_based_on_data]. *)
Theorem product_links_are_https :
  (forall p : product, has_https_url (attach_url p) = true)
  /\ (forall place salary_key : option pystr,
        forallb has_https_url (fst (upload_products place salary_key)) = true
        /\ forallb has_https_url (fst (recommend place salary_key)) = true).
Proof.
  split.
  - intros p. unfold attach_url, has_https_url.
    destruct (str_in (u "DHA-Basic") (p_name p)).
    + destruct (str_eqb (p_plan p) (u "NLSB")); [reflexivity|].
      destruct (str_eqb (p_plan p) (u "LSB")); reflexivity.
    + destruct (str_in (u "Abu Dhabi") (p_name p)); reflexivity.
  - intros place salary_key. unfold upload_products, upload_table, recommend.
    split; table_cases; reflexivity.
Qed.

(** X8.  Except for Dubai with a salary of 4000 or more, the table written
    inside the upload handler (with the links its loop attaches) and the
    table of [compute_products_based_on_data] give the same products and
    the same message. *)
Theorem upload_table_agrees_with_helper (place salary_key : option pystr) :
  (place = Some (u "Dubai") ->
   salary_key <> Some (u "4000_5000") /\ salary_key <> Some (u "above_5000")) ->
  upload_products place salary_key = recommend place salary_key.
Proof.
  intros H. unfold upload_products, upload_table, recommend.
  destruct (opt_eqb place (u "Dubai")) eqn:Ep.
  - apply opt_eqb_eq in Ep. destruct (H Ep) as [H1 H2].
    destruct (opt_eqb salary_key (u "below_4000")); [vm_compute; reflexivity|].
    destruct (opt_eqb salary_key (u "4000_5000")) eqn:E1;
      [apply opt_eqb_eq in E1; contradiction|].
    destruct (opt_eqb salary_key (u "above_5000")) eqn:E2;
      [apply opt_eqb_eq in E2; contradiction|].
    vm_compute; reflexivity.
  - destruct (opt_eqb place (u "Abu Dhabi")),
             (opt_eqb salary_key (u "below_4000")),
             (opt_eqb salary_key (u "4000_5000")),
             (opt_eqb salary_key (u "above_5000")); vm_compute; reflexivity.
Qed.

Lemma upload_table_agrees_with_helper_witness :
  upload_products (Some (u "Abu Dhabi")) (Some (u "above_5000"))
    = recommend (Some (u "Abu Dhabi")) (Some (u "above_5000")).
Proof.
  apply (upload_table_agrees_with_helper (Some (u "Abu Dhabi")) (Some (u "above_5000"))).
  intros H. vm_compute in H. discriminate.
Defined.

(* ================================================================== *)
(** ** What the front-side extractor returns *)

Lemma dropwhile_idem {A} (p : A -> bool) (l : list A) :
  dropwhile p (dropwhile p l) = dropwhile p l.
Proof.
  induction l as [|x l IH]; cbn; [reflexivity|].
  destruct (p x) eqn:E; [exact IH|]. cbn. now rewrite E.
Qed.

Lemma dropwhile_snoc {A} (p : A -> bool) (l : list A) (c : A) :
  p c = false -> dropwhile p (l ++ [c]) = dropwhile p l ++ [c].
Proof.
  intros Hc. induction l as [|x l IH]; cbn.
  - now rewrite Hc.
  - destruct (p x); [exact IH | reflexivity].
Qed.

Lemma rstrip_by_idem (p : char -> bool) (s : pystr) :
  rstrip_by p (rstrip_by p s) = rstrip_by p s.
Proof. unfold rstrip_by. now rewrite rev_involutive, dropwhile_idem. Qed.

(** Removing trailing characters keeps a first character that is not
    one of them. *)
Lemma dropwhile_rstrip (p : char -> bool) (s : pystr) :
  dropwhile p (rstrip_by p (dropwhile (A:=char) p s)) = rstrip_by p (dropwhile (A:=char) p s).
Proof.
  assert (H : dropwhile (A:=char) p s = []
              \/ exists c t, dropwhile (A:=char) p s = c :: t /\ p c = false).
  { induction s as [|x s IH]; cbn; [now left|].
    destruct (p x) eqn:E; [exact IH|]. right. now exists x, s. }
  destruct H as [-> | (c & t & -> & Hc)]; [reflexivity|].
  unfold rstrip_by. cbn [rev]. rewrite (dropwhile_snoc p (rev t) c Hc).
  rewrite rev_app_distr. cbn. now rewrite Hc.
Qed.

Lemma strip_by_idem (p : char -> bool) (s : pystr) :
  strip_by p (strip_by p s) = strip_by p s.
Proof.
  unfold strip_by. now rewrite dropwhile_rstrip, rstrip_by_idem.
Qed.

Section FrontValues.
Variable U : UCD.

(** The run of [parse_fields], with the dictionary before the gender
    step and the one after the address step. *)
Lemma parse_fields_trace (text : pystr) :
  exists d4 d6,
    parse_fields U text = Ok (clean_all U d6)
    /\ touches ["emirates_id"; "name"; "dob"; "issuing_date"; "expiry_date";
                "nationality"]%string [] d4
    /\ touches ["address"%string] (step_gender U text d4) d6.
Proof.
  unfold parse_fields.
  pose proof (step_emirates_id_touches U text []) as T0.
  set (d0 := step_emirates_id U text []) in *.
  destruct (step_labeled_name_ok U text d0) as [d1 [H1 T1]]. rewrite H1. cbn [bind].
  destruct (step_fallback_name_ok U (replace_char 13 10 text) d1) as [d2 [H2 T2]].
  rewrite H2. cbn [bind].
  destruct (step_dates_ok U text d2) as [d3 [H3 T3]]. rewrite H3. cbn [bind].
  destruct (step_nationality_ok U text d3) as [d4 [H4 T4]]. rewrite H4. cbn [bind].
  destruct (step_address_ok U text (replace_char 13 10 text) (step_gender U text d4))
    as [d6 [H6 T6]].
  rewrite H6. cbn [bind].
  exists d4, d6. split; [reflexivity|]. split; [|exact T6].
  apply touches_trans with d3;
    [apply touches_trans with d2; [apply touches_trans with d1;
       [apply touches_trans with d0|]|]|].
  - eapply touches_incl; [|exact T0]. intros k [<-|[]]. in_list.
  - eapply touches_incl; [|exact T1]. intros k [<-|[]]. in_list.
  - eapply touches_incl; [|exact T2]. intros k [<-|[]]. in_list.
  - eapply touches_incl; [|exact T3]. unfold date_keys.
    intros k [<-|[<-|[<-|[]]]]; in_list.
  - eapply touches_incl; [|exact T4]. intros k [<-|[]]. in_list.
Qed.

Lemma str_ne (a b : string) : String.eqb a b = false -> a <> b.
Proof. intros H ->. now rewrite String.eqb_refl in H. Qed.

Lemma step_gender_both (raw : pystr) (d : dict) :
  dict_get d "gender" = None -> dict_get d "sex" = None ->
  dict_get (step_gender U raw d) "gender" = dict_get (step_gender U raw d) "sex".
Proof.
  intros Hg Hs. unfold step_gender.
  destruct (gender_scan U raw (gender_patterns U)) as [g|]; [|congruence].
  destruct (truthy g); [|congruence].
  destruct (str_mem _ _); [|destruct (str_mem _ _)];
    rewrite dict_get_set_same;
    (rewrite dict_get_set_other by (apply str_ne; reflexivity));
    now rewrite dict_get_set_same.
Qed.

End FrontValues.

(** X9.  In the dictionary that the front-side extractor returns, the
    keys [gender] and [sex] always go together and hold the same value:
    either both are absent or both are present and equal. *)
Theorem parse_fields_gender_is_sex (U : UCD) (text : pystr) :
  exists d, parse_fields U text = Ok d
            /\ dict_get d "gender" = dict_get d "sex".
Proof.
  destruct (parse_fields_trace U text) as (d4 & d6 & Hrun & T4 & T6).
  exists (clean_all U d6). split; [exact Hrun|].
  rewrite !clean_all_get. f_equal.
  destruct T6 as [G6 _]. destruct T4 as [G4 _].
  rewrite (G6 "gender"%string), (G6 "sex"%string);
    try (intros [E|[]]; discriminate).
  apply step_gender_both; rewrite G4; try reflexivity;
    (intros H; cbn in H; repeat (destruct H as [H|H]; [discriminate|]); exact H).
Qed.

(** X10.  Every value that the front-side extractor returns has been
    stripped: it neither begins nor ends with a whitespace character
    (stripping it again changes nothing). *)
Theorem parse_fields_values_are_stripped (U : UCD) (text : pystr) :
  exists d, parse_fields U text = Ok d
            /\ Forall (fun kv => strip U (snd kv) = snd kv) d.
Proof.
  destruct (parse_fields_trace U text) as (d4 & d6 & Hrun & _ & _).
  exists (clean_all U d6). split; [exact Hrun|].
  unfold clean_all. apply Forall_forall. intros kv Hin.
  apply in_map_iff in Hin as (kv0 & <- & _). cbn [snd].
  unfold clean_value, strip. apply strip_by_idem.
Qed.

(* ================================================================== *)
(** ** [format_date] *)

Lemma str_in_char (c : char) (s : pystr) : str_in [c] s = existsb (A:=char) (N.eqb c) s.
Proof.
  induction s as [|x s IH]; [reflexivity|].
  cbn [str_in existsb startswith]. rewrite IH. now rewrite andb_true_r.
Qed.

Lemma split_on_clean (sep : char) (a : pystr) :
  existsb (A:=char) (N.eqb sep) a = false -> split_on sep a = [a].
Proof.
  induction a as [|x a IH]; [reflexivity|].
  cbn [existsb split_on]. intros H. apply orb_false_iff in H as [Hx Ha].
  rewrite N.eqb_sym, Hx, (IH Ha). reflexivity.
Qed.

Lemma split_on_app (sep : char) (a rest : pystr) :
  existsb (A:=char) (N.eqb sep) a = false ->
  split_on sep (a ++ sep :: rest) = a :: split_on sep rest.
Proof.
  induction a as [|x a IH]; cbn [existsb split_on app].
  - intros _. now rewrite N.eqb_refl.
  - intros H. apply orb_false_iff in H as [Hx Ha].
    rewrite N.eqb_sym, Hx, (IH Ha). reflexivity.
Qed.

Lemma no_sep_app (c x : char) (a b : pystr) :
  existsb (A:=char) (N.eqb c) a = false -> (c =? x)%N = false ->
  existsb (A:=char) (N.eqb c) b = false ->
  existsb (A:=char) (N.eqb c) (a ++ x :: b) = false.
Proof.
  intros Ha Hx Hb. rewrite existsb_app. cbn [existsb]. now rewrite Ha, Hx, Hb.
Qed.

Section FormatDate.
Variable U : UCD.
Hypothesis Hok : UCD_ok U.

Lemma digits_without (c : char) (s : pystr) :
  is_ascii c = true -> ascii_is_digit c = false ->
  forallb (cls_d U) s = true -> existsb (A:=char) (N.eqb c) s = false.
Proof.
  intros Ha Hd. induction s as [|x s IH]; [reflexivity|].
  cbn [forallb existsb]. intros H. apply andb_true_iff in H as [Hx Hs].
  rewrite (IH Hs), orb_false_r.
  destruct (N.eqb_spec c x) as [<-|]; [|reflexivity].
  unfold cls_d in Hx. rewrite (digit_ascii U Hok c Ha), Hd in Hx. discriminate.
Qed.

Lemma digits_isdigit (s : pystr) :
  s <> [] -> forallb (cls_d U) s = true -> str_isdigit U s = true.
Proof.
  intros Hne H. unfold str_isdigit. destruct s as [|c s]; [congruence|].
  apply forallb_forall. intros x Hx.
  apply (digit_is_digit U Hok).
  assert (Hd : cls_d U x = true) by (revert x Hx; now apply forallb_forall).
  unfold cls_d in Hd. destruct (digit_value U x); congruence.
Qed.

(** The month as [format_date] writes it. *)
Definition month_text (month : pystr) (n : N) : pystr :=
  if ((1 <=? n) && (n <=? 12))%N then nth (N.to_nat n - 1) month_names [] else month.

Lemma format_parts_digits (day month year : pystr) :
  month <> [] -> forallb (cls_d U) month = true ->
  exists n, digits_value U 0 month = Some n
            /\ format_parts U (day, month, year)
               = Ok (day ++ u "/" ++ month_text month n ++ u "/" ++ year).
Proof.
  intros Hne Hm.
  destruct (py_int_digits U month Hne Hm) as (n & Hint & Hval).
  exists n. split; [exact Hval|].
  unfold format_parts, month_text. rewrite (digits_isdigit month Hne Hm), Hint.
  cbn [bind].
  destruct ((1 <=? n) && (n <=? 12))%N eqn:E; [|reflexivity].
  apply andb_true_iff in E as [E1 E2].
  apply N.leb_le in E1, E2.
  assert (Hlt : N.to_nat n - 1 < length month_names) by (cbn; lia).
  unfold index. destruct (nth_error month_names (N.to_nat n - 1)) as [m|] eqn:En.
  - cbn [bind]. apply nth_error_nth with (d := []) in En.
    do 4 f_equal. symmetry. exact En.
  - apply nth_error_None in En. lia.
Qed.

End FormatDate.

(** X11.  [format_date] on a date written as day, month and year in
    decimal digits.  With the same separator twice (slash or hyphen) the
    result is day/month/year with slashes, the month replaced by its
    English three-letter name when its number is from 1 to 12 and kept as
    written otherwise.  With two different separators, which the date
    pattern of the extractor also accepts, the date is returned
    unchanged. *)
Theorem format_date_on_digits (U : UCD) (day month year : pystr) (sep1 sep2 : char) :
  UCD_ok U ->
  forallb (cls_d U) day = true ->
  month <> [] -> forallb (cls_d U) month = true ->
  forallb (cls_d U) year = true ->
  (sep1 = 47 \/ sep1 = 45)%N -> (sep2 = 47 \/ sep2 = 45)%N ->
  exists n, digits_value U 0 month = Some n
    /\ format_date U (day ++ [sep1] ++ month ++ [sep2] ++ year)
       = Ok (if (sep1 =? sep2)%N
             then day ++ u "/" ++ month_text month n ++ u "/" ++ year
             else day ++ [sep1] ++ month ++ [sep2] ++ year).
Proof.
  intros Hok Hd Hne Hm Hy H1 H2.
  destruct (format_parts_digits U Hok day month year Hne Hm) as (n & Hn & Hfp).
  exists n. split; [exact Hn|].
  assert (S47 : forall s, forallb (cls_d U) s = true -> existsb (A:=char) (N.eqb 47) s = false)
    by (intros s; now apply digits_without).
  assert (S45 : forall s, forallb (cls_d U) s = true -> existsb (A:=char) (N.eqb 45) s = false)
    by (intros s; now apply digits_without).
  unfold format_date.
  change (str_in (u "/")) with (str_in [47%N]).
  change (str_in (u "-")) with (str_in [45%N]).
  rewrite !str_in_char, !existsb_app.
  cbn [existsb app]. rewrite !(S47 _ Hd), !(S47 _ Hm), !(S47 _ Hy),
    !(S45 _ Hd), !(S45 _ Hm), !(S45 _ Hy).
  destruct H1 as [-> | ->], H2 as [-> | ->]; cbn [N.eqb Pos.eqb orb].
  - rewrite (split_on_app 47 day _ (S47 _ Hd)), (split_on_app 47 month _ (S47 _ Hm)),
      (split_on_clean 47 year (S47 _ Hy)).
    cbn [unpack3 bind]. rewrite Hfp. reflexivity.
  - rewrite (split_on_app 47 day _ (S47 _ Hd)).
    rewrite split_on_clean; [reflexivity|].
    apply no_sep_app; [apply S47, Hm | reflexivity | apply S47, Hy].
  - change (day ++ 45%N :: month ++ 47%N :: year)
      with (day ++ (45%N :: month) ++ 47%N :: year).
    rewrite app_assoc.
    rewrite split_on_app.
    + rewrite (split_on_clean 47 year (S47 _ Hy)). reflexivity.
    + apply no_sep_app; [apply S47, Hd | reflexivity | apply S47, Hm].
  - rewrite (split_on_app 45 day _ (S45 _ Hd)), (split_on_app 45 month _ (S45 _ Hm)),
      (split_on_clean 45 year (S45 _ Hy)).
    cbn [unpack3 bind]. rewrite Hfp. reflexivity.
Qed.

Lemma format_date_on_digits_witness :
  exists n, digits_value ascii_ucd 0 (u "03") = Some n
    /\ format_date ascii_ucd (u "15" ++ [45%N] ++ u "03" ++ [45%N] ++ u "1990")
       = Ok (if (45 =? 45)%N
             then u "15" ++ u "/" ++ month_text (u "03") n ++ u "/" ++ u "1990"
             else u "15" ++ [45%N] ++ u "03" ++ [45%N] ++ u "1990").
Proof.
  apply (format_date_on_digits ascii_ucd (u "15") (u "03") (u "1990") 45%N 45%N
           ascii_ucd_ok).
  - reflexivity.
  - discriminate.
  - reflexivity.
  - reflexivity.
  - now right.
  - now right.
Defined.

(* ================================================================== *)
(** ** What the back-side extractor returns *)

Section BackValues.
Variable U : UCD.

(** [re.sub] with a one-character class deletes exactly the characters
    of the class. *)
Lemma delete_chr (p : char -> bool) (rs sn : pystr) :
  delete_matches U (Chr p) 0 sn rs = filter (fun c => negb (p c)) rs.
Proof.
  revert sn. induction rs as [|c t IH]; intros sn; [reflexivity|].
  cbn [delete_matches filter]. unfold match_at. cbn [rmatch mk_state rest].
  destruct (p c) eqn:E; cbn [negb].
  - cbn [advance rest seen grp1 mk_state group0 length].
    replace (S (length t) - length t) with 1 by lia.
    cbn [firstn length]. apply IH.
  - f_equal. apply IH.
Qed.

(** A cleaned free-text value: at least two characters, each a word
    character, whitespace or a hyphen. *)
Definition clean_text (v : pystr) : bool :=
  (1 <? length v) && forallb (fun c => negb (cls_junk U c)) v.

Lemma filter_forallb {A} (p : A -> bool) (l : list A) : forallb p (filter p l) = true.
Proof.
  induction l as [|x l IH]; [reflexivity|]. cbn [filter].
  destruct (p x) eqn:E; [|exact IH]. cbn. now rewrite E.
Qed.

Lemma free_text_scan_clean (raw : pystr) (patterns : list regex) (v : pystr) :
  free_text_scan U raw patterns = Ok (Some v) -> clean_text v = true.
Proof.
  induction patterns as [|pattern patterns IH]; cbn [free_text_scan]; [discriminate|].
  destruct (re_search U pattern raw) as [m|]; [|exact IH].
  destruct (attr_strip U (group1 m)) as [x|]; cbn [bind]; [|discriminate].
  destruct (1 <? length (re_sub_empty U (junk_re U) x)) eqn:El; [|exact IH].
  intros H. injection H as <-. unfold clean_text. rewrite El. cbn [andb].
  unfold re_sub_empty, junk_re. rewrite delete_chr. apply filter_forallb.
Qed.

(** The values of a key are clean as long as every step that assigns it
    assigns a clean value. *)
Definition clean_at (k : string) (d : dict) : Prop :=
  forall v, dict_get d k = Some v -> clean_text v = true.

Lemma step_free_text_clean (k k' : string) (labels : list pystr) (raw : pystr) (d : dict) :
  clean_at k d ->
  exists d', step_free_text U k' (free_text_patterns U labels) raw d = Ok d'
             /\ clean_at k d' /\ touches [k'] d d'.
Proof.
  intros Hd.
  destruct (step_free_text_ok U k' labels raw d) as (d' & Hrun & T).
  exists d'. split; [exact Hrun|]. split; [|exact T].
  unfold step_free_text in Hrun.
  destruct (free_text_scan U raw (free_text_patterns U labels)) as [[v|]|] eqn:E;
    cbn [bind] in Hrun; try discriminate; injection Hrun as <-; [|exact Hd].
  intros w Hw. destruct (String.eqb_spec k' k) as [->|Hne].
  - rewrite dict_get_set_same in Hw. injection Hw as <-.
    now apply (free_text_scan_clean raw _ _ E).
  - rewrite dict_get_set_other in Hw by congruence. now apply Hd.
Qed.

Lemma family_sponsor_scan_value (raw : pystr) (patterns : list regex) (d d' : dict) :
  family_sponsor_scan U raw patterns d = Ok d' ->
  d' = d \/ d' = dict_set d "family_sponsor" (u "Yes")
  \/ d' = dict_set d "family_sponsor" (u "No").
Proof.
  induction patterns as [|pattern patterns IH]; cbn [family_sponsor_scan].
  - intros H. injection H as <-. now left.
  - destruct (re_search U pattern raw) as [m|]; [|exact IH].
    destruct (attr_strip U (group1 m)) as [x|]; cbn [bind]; [|discriminate].
    destruct (str_mem _ _); [|destruct (str_mem _ _)];
      intros H; injection H as <-; auto.
Qed.

Lemma parse_back_side_fields_trace (text : pystr) :
  exists d3 d,
    parse_back_side_fields U text = Ok d
    /\ touches ["occupation"; "employer"; "issuing_place"]%string [] d3
    /\ clean_at "occupation" d3 /\ clean_at "employer" d3 /\ clean_at "issuing_place" d3
    /\ (d = d3 \/ d = dict_set d3 "family_sponsor" (u "Yes")
        \/ d = dict_set d3 "family_sponsor" (u "No")).
Proof.
  assert (Hnil : forall k, clean_at k []) by (intros k v H; discriminate).
  unfold parse_back_side_fields, occupation_patterns, employer_patterns,
    issuing_place_patterns.
  set (l1 := [u "Occupation"; u "المهنة"; u "Profession"; u "الوظيفة"]).
  set (l2 := [u "Employer"; u "صاحب العمل"; u "Company"; u "الشركة"; u "جهة العمل"]).
  set (l3 := [u "Issuing Place"; u "مكان الإصدار"; u "Place of Issue"; u "جهة الإصدار"]).
  destruct (step_free_text_ok U "occupation" l1 text []) as (d1 & H1 & T1).
  rewrite H1. cbn [bind].
  destruct (step_free_text_ok U "employer" l2 text d1) as (d2 & H2 & T2).
  rewrite H2. cbn [bind].
  destruct (step_free_text_ok U "issuing_place" l3 text d2) as (d3 & H3 & T3).
  rewrite H3. cbn [bind].
  destruct (family_sponsor_scan_ok U text (family_sponsor_patterns U) d3
              (family_sponsor_patterns_grp U)) as (d & Hd & _).
  exists d3, d. split; [exact Hd|].
  assert (C1 : forall k, clean_at k d1).
  { intros k.
    destruct (step_free_text_clean k "occupation" l1 text [] (Hnil k)) as (x & Hx & Cx & _).
    rewrite H1 in Hx. now injection Hx as <-. }
  assert (C2 : forall k, clean_at k d2).
  { intros k.
    destruct (step_free_text_clean k "employer" l2 text d1 (C1 k)) as (x & Hx & Cx & _).
    rewrite H2 in Hx. now injection Hx as <-. }
  assert (C3 : forall k, clean_at k d3).
  { intros k.
    destruct (step_free_text_clean k "issuing_place" l3 text d2 (C2 k)) as (x & Hx & Cx & _).
    rewrite H3 in Hx. now injection Hx as <-. }
  split.
  { apply touches_trans with d2; [apply touches_trans with d1|].
    - eapply touches_incl; [|exact T1]. intros k [<-|[]]. in_list.
    - eapply touches_incl; [|exact T2]. intros k [<-|[]]. in_list.
    - eapply touches_incl; [|exact T3]. intros k [<-|[]]. in_list. }
  split; [apply C3|]. split; [apply C3|]. split; [apply C3|].
  now apply (family_sponsor_scan_value text (family_sponsor_patterns U)).
Qed.

End BackValues.

(** X12.  In the dictionary that the back-side extractor returns,
    [family_sponsor] is absent or one of the two strings Yes and No,
    whatever the card says and in whatever language; and occupation,
    employer and issuing place, when present, have at least two
    characters, none of which is punctuation: each is a word character,
    whitespace or a hyphen. *)
Theorem parse_back_side_fields_values (U : UCD) (text : pystr) :
  exists d, parse_back_side_fields U text = Ok d
    /\ (dict_get d "family_sponsor" = None
        \/ dict_get d "family_sponsor" = Some (u "Yes")
        \/ dict_get d "family_sponsor" = Some (u "No"))
    /\ Forall (fun k => match dict_get d k with
                        | Some v => clean_text U v = true
                        | None => True
                        end) ["occupation"; "employer"; "issuing_place"]%string.
Proof.
  destruct (parse_back_side_fields_trace U text)
    as (d3 & d & Hrun & T & Co & Ce & Ci & Hd).
  exists d. split; [exact Hrun|].
  assert (Hfs : dict_get d3 "family_sponsor" = None).
  { destruct T as [G _]. rewrite G; [reflexivity|].
    intros H. cbn in H. repeat (destruct H as [H|H]; [discriminate|]). exact H. }
  assert (Hsame : forall k, k <> "family_sponsor"%string -> dict_get d k = dict_get d3 k).
  { intros k Hk. destruct Hd as [-> | [-> | ->]];
      [reflexivity | now apply dict_get_set_other ..]. }
  split.
  - destruct Hd as [-> | [-> | ->]];
      [left; exact Hfs | right; left; apply dict_get_set_same
       | right; right; apply dict_get_set_same].
  - repeat constructor; rewrite Hsame by discriminate.
    + destruct (dict_get d3 "occupation") as [v|] eqn:E; [now apply Co | exact I].
    + destruct (dict_get d3 "employer") as [v|] eqn:E; [now apply Ce | exact I].
    + destruct (dict_get d3 "issuing_place") as [v|] eqn:E; [now apply Ci | exact I].
Qed.

(* ================================================================== *)
(** ** The two readings of an image *)






(* ================================================================== *)
(** ** The scripted conversation *)

(** The step a request is answered for: [session.step or "start"]. *)
Definition current_step (flow : ChatFlow) : pystr :=
  if truthy (step (cf_session flow)) then step (cf_session flow) else u "start".

Definition known_steps : list pystr :=
  [u "start"; u "q1"; u "q2"; u "q2a"; u "q3"; u "awaiting_id_frontside";
   u "awaiting_id_backside"; u "complete"].

(** The moves of the script. *)
Inductive fsm_edge : pystr -> pystr -> Prop :=
| edge_start : fsm_edge (u "start") (u "q1")
| edge_q1_stay : fsm_edge (u "q1") (u "q1")
| edge_q1_yes : fsm_edge (u "q1") (u "q2")
| edge_q2_stay : fsm_edge (u "q2") (u "q2")
| edge_q2_employee : fsm_edge (u "q2") (u "q3")
| edge_q2_depender : fsm_edge (u "q2") (u "q2a")
| edge_q2a_stay : fsm_edge (u "q2a") (u "q2a")
| edge_q2a_chosen : fsm_edge (u "q2a") (u "q3")
| edge_q3 : fsm_edge (u "q3") (u "awaiting_id_frontside")
| edge_front : fsm_edge (u "awaiting_id_frontside") (u "awaiting_id_frontside")
| edge_back : fsm_edge (u "awaiting_id_backside") (u "awaiting_id_backside")
| edge_complete : fsm_edge (u "complete") (u "complete")
| edge_reset (lost : pystr) : ~ In lost known_steps -> fsm_edge lost (u "start").

(** The session a request leaves, and its step. *)
Definition flow_after (U : UCD) (free_chat : pystr -> pystr) (flow : ChatFlow)
    (user_text : pystr) (authenticated : bool) : ChatFlow :=
  snd (fst (fallback_to_fsm U free_chat flow user_text authenticated)).

Definition step_after (U : UCD) (free_chat : pystr -> pystr) (flow : ChatFlow)
    (user_text : pystr) (authenticated : bool) : pystr :=
  step (cf_session (flow_after U free_chat flow user_text authenticated)).

(** A step other than start is the one the session holds. *)
Lemma current_step_kept (flow : ChatFlow) (s : pystr) :
  current_step flow = s -> s <> u "start" -> step (cf_session flow) = s.
Proof.
  unfold current_step.
  destruct (step (cf_session flow)) as [|c l]; cbn [truthy]; intros H Hs;
    [congruence | exact H].
Qed.

Ltac fsm_simpl :=
  cbn [fst snd step cf_session with_step with_session set_step with_looking
       with_completed with_role with_depender_type set_salary salary].

Ltac by_step s :=
  destruct (str_eqb s (u "start")) eqn:E0;
  [| destruct (str_eqb s (u "q1")) eqn:E1;
   [| destruct (str_eqb s (u "q2")) eqn:E2;
    [| destruct (str_eqb s (u "q2a")) eqn:E2a;
     [| destruct (str_eqb s (u "q3")) eqn:E3;
      [| destruct (str_eqb s (u "awaiting_id_frontside")) eqn:E4;
       [| destruct (str_eqb s (u "awaiting_id_backside")) eqn:E5;
        [| destruct (str_eqb s (u "complete")) eqn:E6 ]]]]]]].

Ltac not_first_question s E1 :=
  repeat match goal with
         | |- context [if ?c then _ else _] => destruct c
         end;
  (split; [discriminate|]);
  let Hq := fresh in
  intros (Hq & _ & _); rewrite Hq, str_eqb_refl in E1; discriminate.

Tactic Notation "at_pos" integer(n) := do n right; left; reflexivity.

Ltac closed_ne := let H := fresh in intros H; vm_compute in H; discriminate.

Lemma fsm_edge_known (a b : pystr) : fsm_edge a b -> In b known_steps.
Proof.
  destruct 1; cbn [In known_steps];
    [at_pos 1 | at_pos 1 | at_pos 2 | at_pos 2 | at_pos 4 | at_pos 3 | at_pos 3
     | at_pos 4 | at_pos 5 | at_pos 5 | at_pos 6 | at_pos 7 | at_pos 0].
Qed.

Lemma fsm_edge_backside (a b : pystr) :
  fsm_edge a b -> b = u "awaiting_id_backside" -> a = u "awaiting_id_backside".
Proof.
  destruct 1; intros Hb;
    [vm_compute in Hb; discriminate .. | reflexivity | vm_compute in Hb; discriminate
     | vm_compute in Hb; discriminate].
Qed.

Lemma fsm_step_edge (U : UCD) (free_chat : pystr -> pystr) (flow : ChatFlow)
    (user_text : pystr) (authenticated : bool) :
  fsm_edge (current_step flow) (step_after U free_chat flow user_text authenticated).
Proof.
  unfold step_after, flow_after, fallback_to_fsm, fsm_branch. cbv zeta.
  fold (current_step flow).
  remember (current_step flow) as s eqn:Hs. symmetry in Hs.
  by_step s.
  - apply str_eqb_eq in E0. rewrite E0. fsm_simpl. apply edge_start.
  - apply str_eqb_eq in E1. rewrite E1.
    assert (Hq : step (cf_session flow) = u "q1")
      by (apply current_step_kept; [congruence | closed_ne]).
    destruct (startswith (u "y") (str_lower U user_text)).
    + destruct authenticated; cbn [negb]; fsm_simpl; [apply edge_q1_yes|].
      rewrite Hq. apply edge_q1_stay.
    + fsm_simpl. rewrite Hq. apply edge_q1_stay.
  - apply str_eqb_eq in E2. rewrite E2.
    assert (Hq : step (cf_session flow) = u "q2")
      by (apply current_step_kept; [congruence | closed_ne]).
    destruct (str_mem (str_lower U user_text) [u "e"; u "employee"]);
      [fsm_simpl; apply edge_q2_employee|].
    destruct (str_mem (str_lower U user_text) [u "d"; u "depender"]);
      fsm_simpl; [apply edge_q2_depender|]. rewrite Hq. apply edge_q2_stay.
  - apply str_eqb_eq in E2a. rewrite E2a.
    assert (Hq : step (cf_session flow) = u "q2a")
      by (apply current_step_kept; [congruence | closed_ne]).
    destruct (str_mem (str_lower U user_text) [u "s"; u "spouse"]);
      [fsm_simpl; apply edge_q2a_chosen|].
    destruct (str_mem (str_lower U user_text) [u "c"; u "child"]);
      fsm_simpl; [apply edge_q2a_chosen|]. rewrite Hq. apply edge_q2a_stay.
  - apply str_eqb_eq in E3. rewrite E3. fsm_simpl. apply edge_q3.
  - apply str_eqb_eq in E4. rewrite E4. fsm_simpl.
    assert (Hq : step (cf_session flow) = u "awaiting_id_frontside")
      by (apply current_step_kept; [congruence | closed_ne]).
    rewrite Hq. apply edge_front.
  - apply str_eqb_eq in E5. rewrite E5. fsm_simpl.
    assert (Hq : step (cf_session flow) = u "awaiting_id_backside")
      by (apply current_step_kept; [congruence | closed_ne]).
    rewrite Hq. apply edge_back.
  - apply str_eqb_eq in E6. rewrite E6. fsm_simpl.
    assert (Hq : step (cf_session flow) = u "complete")
      by (apply current_step_kept; [congruence | closed_ne]).
    rewrite Hq. apply edge_complete.
  - fsm_simpl. apply edge_reset. intros Hin. cbn [In known_steps] in Hin.
    destruct Hin as [H|[H|[H|[H|[H|[H|[H|[H|[]]]]]]]]];
      [rewrite <- H, str_eqb_refl in E0 | rewrite <- H, str_eqb_refl in E1
       | rewrite <- H, str_eqb_refl in E2 | rewrite <- H, str_eqb_refl in E2a
       | rewrite <- H, str_eqb_refl in E3 | rewrite <- H, str_eqb_refl in E4
       | rewrite <- H, str_eqb_refl in E5 | rewrite <- H, str_eqb_refl in E6];
      discriminate.
Qed.

(** X14.  The scripted conversation follows its script: each request
    moves the session along one of the listed moves, an unknown step
    leads back to start, the step is always left at one of the eight
    known steps, and no request brings a session to the step that waits
    for the back side if it was not there already. *)
Theorem fsm_follows_the_script (U : UCD) (free_chat : pystr -> pystr) (flow : ChatFlow)
    (user_text : pystr) (authenticated : bool) :
  fsm_edge (current_step flow) (step_after U free_chat flow user_text authenticated)
  /\ In (step_after U free_chat flow user_text authenticated) known_steps
  /\ (step_after U free_chat flow user_text authenticated = u "awaiting_id_backside" ->
      step (cf_session flow) = u "awaiting_id_backside").
Proof.
  pose proof (fsm_step_edge U free_chat flow user_text authenticated) as He.
  split; [exact He|]. split; [exact (fsm_edge_known _ _ He)|].
  intros Hb. apply current_step_kept; [|closed_ne].
  exact (fsm_edge_backside _ _ He Hb).
Qed.

(** The one request that is turned away. *)
Lemma fsm_branch_none (U : UCD) (free_chat : pystr -> pystr) (flow : ChatFlow)
    (user_text : pystr) (authenticated : bool) :
  fsm_branch U free_chat flow user_text authenticated = None
  <-> current_step flow = u "q1"
      /\ startswith (u "y") (str_lower U user_text) = true
      /\ authenticated = false.
Proof.
  unfold fsm_branch. cbv zeta. fold (current_step flow).
  remember (current_step flow) as s eqn:Hs. clear Hs.
  by_step s.
  - apply str_eqb_eq in E0. subst s.
    split; [discriminate|]. intros (Hq & _ & _). vm_compute in Hq. discriminate.
  - apply str_eqb_eq in E1. subst s.
    destruct (startswith (u "y") (str_lower U user_text)).
    + destruct authenticated; cbn [negb].
      * split; [discriminate|]. intros (_ & _ & Ha). discriminate.
      * split; [intros _; repeat split | reflexivity].
    + split; [discriminate|]. intros (_ & Hy & _). discriminate.
  - not_first_question s E1.
  - not_first_question s E1.
  - not_first_question s E1.
  - not_first_question s E1.
  - not_first_question s E1.
  - not_first_question s E1.
  - not_first_question s E1.
Qed.

(** X15.  The scripted conversation asks for a login in one case only:
    a visitor who is not logged in answers the first question with a
    text that starts with y or Y.  Nothing is changed and no message is
    stored for that request; every other request is answered with a
    reply and the step. *)
Theorem login_is_asked_before_the_role (U : UCD) (free_chat : pystr -> pystr)
    (flow : ChatFlow) (user_text : pystr) (authenticated : bool) :
  (fst (fst (fallback_to_fsm U free_chat flow user_text authenticated)) = ChatLoginRequired
   <-> current_step flow = u "q1"
       /\ startswith (u "y") (str_lower U user_text) = true
       /\ authenticated = false)
  /\ (fst (fst (fallback_to_fsm U free_chat flow user_text authenticated))
        = ChatLoginRequired ->
      fallback_to_fsm U free_chat flow user_text authenticated
        = (ChatLoginRequired, flow, []))
  /\ (fst (fst (fallback_to_fsm U free_chat flow user_text authenticated))
        <> ChatLoginRequired ->
      exists reply options,
        fst (fst (fallback_to_fsm U free_chat flow user_text authenticated))
          = ChatReply reply options
                      (step_after U free_chat flow user_text authenticated)).
Proof.
  pose proof (fsm_branch_none U free_chat flow user_text authenticated) as Hn.
  unfold step_after, flow_after, fallback_to_fsm.
  destruct (fsm_branch U free_chat flow user_text authenticated)
    as [[[reply options] flow']|]; cbn [fst snd].
  - split; [|split].
    + split; [discriminate|]. intros H. apply Hn in H. discriminate.
    + discriminate.
    + intros _. now exists reply, options.
  - split; [|split].
    + split; [intros _; now apply Hn | reflexivity].
    + reflexivity.
    + congruence.
Qed.

(** The band of each salary that the script offers. *)
Definition offered_band (answer : pystr) : option pystr :=
  if str_eqb answer (u "below 4000 AED") then Some (u "below_4000")
  else if str_eqb answer (u "4000 - 5000 AED") then Some (u "4000_5000")
  else if str_eqb answer (u "above 5000 AED") then Some (u "above_5000")
  else None.

(** X16.  Each of the three salaries that the script offers at the
    salary question is stored as it is, moves the session on to the
    upload of the front side, and is understood by the salary
    normalization: it gives the band that the answer names. *)
Theorem offered_salaries_are_understood (U : UCD) (free_chat : pystr -> pystr)
    (flow : ChatFlow) (authenticated : bool) (answer : pystr) :
  UCD_ok U ->
  step (cf_session flow) = u "q3" ->
  In answer salary_options ->
  let flow' := flow_after U free_chat flow answer authenticated in
  salary (cf_session flow') = Some answer
  /\ step (cf_session flow') = u "awaiting_id_frontside"
  /\ (exists band, offered_band answer = Some band)
  /\ normalize_salary U (Some (cf_session flow')) = Ok (offered_band answer).
Proof.
  intros Hok Hstep Hin. cbv zeta.
  assert (Hflow : flow_after U free_chat flow answer authenticated
                  = with_step (with_session flow (set_salary (cf_session flow) (Some answer)))
                              (u "awaiting_id_frontside")).
  { unfold flow_after, fallback_to_fsm, fsm_branch. cbv zeta. rewrite Hstep.
    change (truthy (u "q3")) with true. cbv iota.
    change (str_eqb (u "q3") (u "start")) with false.
    change (str_eqb (u "q3") (u "q1")) with false.
    change (str_eqb (u "q3") (u "q2")) with false.
    change (str_eqb (u "q3") (u "q2a")) with false.
    change (str_eqb (u "q3") (u "q3")) with true.
    reflexivity. }
  rewrite Hflow. fsm_simpl.
  split; [reflexivity|]. split; [reflexivity|].
  set (session' := set_step (set_salary (cf_session flow) (Some answer))
                            (u "awaiting_id_frontside")).
  assert (Hs : salary session' = Some answer) by reflexivity.
  cbn [In salary_options] in Hin.
  destruct Hin as [<-|[<-|[<-|[]]]];
    (split; [eexists; vm_compute; reflexivity|]);
    (rewrite (normalize_salary_ascii U Hok) by (now rewrite Hs));
    unfold normalize_salary; rewrite Hs; vm_compute; reflexivity.
Qed.

Definition asked_for_salary : ChatFlow :=
  {| cf_session := session_with_salary [];
     is_completed := false; looking_for_insurance := Some (u "Yes");
     role := Some (u "Employee"); depender_type := None |}.

Lemma offered_salaries_are_understood_witness :
  let flow' := flow_after ascii_ucd (fun _ => []) asked_for_salary (u "above 5000 AED") true in
  salary (cf_session flow') = Some (u "above 5000 AED")
  /\ step (cf_session flow') = u "awaiting_id_frontside"
  /\ (exists band, offered_band (u "above 5000 AED") = Some band)
  /\ normalize_salary ascii_ucd (Some (cf_session flow'))
     = Ok (offered_band (u "above 5000 AED")).
Proof.
  apply (offered_salaries_are_understood ascii_ucd (fun _ => []) asked_for_salary true
           (u "above 5000 AED") ascii_ucd_ok).
  - reflexivity.
  - cbn. tauto.
Defined.

(* ================================================================== *)
(** ** Corrections by the client, the mobile number and the middleware *)


Lemma setattr_frame (r : EmiratesIDRecord) (column : string) (v : option pystr) :
  rec_id (setattr r column v) = rec_id r
  /\ raw_response (setattr r column v) = raw_response r.
Proof. split; reflexivity. Qed.



(** X18.  The gender sent under the field name sex or gender is stored
    in canonical form: m, male and the Arabic word for male in any case
    give Male, f, female and the Arabic word for female give Female,
    anything else is stored title-cased, and the acknowledgement names
    the stored form. *)
Theorem update_gender_is_canonical (U : UCD) (id : nat) (field value : option pystr)
    (r : EmiratesIDRecord) :
  id <> 0 ->
  str_mem (str_lower U (strip U (or_empty field))) [u "sex"; u "gender"] = true ->
  let stripped := strip U (or_empty value) in
  let v := str_lower U stripped in
  exists canon ack,
    update_emirates_id_record U id field value (Some r)
      = (UpdateOk ack (u "gender") (Some canon), Some (setattr r "gender" (Some canon)))
    /\ (str_mem v [u "m"; u "male"; u "ذكر"] = true ->
        canon = u "Male" /\ ack = u "Thank you, gender saved as Male.")
    /\ (str_mem v [u "m"; u "male"; u "ذكر"] = false ->
        str_mem v [u "f"; u "female"; u "أنثى"] = true ->
        canon = u "Female" /\ ack = u "Thank you, gender saved as Female.")
    /\ (str_mem v [u "m"; u "male"; u "ذكر"] = false ->
        str_mem v [u "f"; u "female"; u "أنثى"] = false ->
        canon = (if truthy stripped then str_title U stripped else [])).
Proof.
  intros Hid Hf. cbv zeta.
  unfold update_emirates_id_record. cbv zeta.
  set (f := str_lower U (strip U (or_empty field))) in *.
  set (x := strip U (or_empty value)).
  assert (Ht : truthy f = true).
  { cbn [str_mem existsb] in Hf. rewrite orb_false_r in Hf.
    apply orb_true_iff in Hf as [Hf|Hf]; apply str_eqb_eq in Hf; rewrite Hf;
      reflexivity. }
  destruct id as [|id]; [congruence|]. cbn [Nat.eqb orb]. rewrite Ht. cbn [negb].
  rewrite Hf.
  destruct (str_mem (str_lower U x) [u "m"; u "male"; u "ذكر"]) eqn:Em.
  - do 2 eexists. split; [reflexivity|].
    split; [intros _; split; vm_compute; reflexivity|].
    split; discriminate.
  - destruct (str_mem (str_lower U x) [u "f"; u "female"; u "أنثى"]) eqn:Ew.
    + do 2 eexists. split; [reflexivity|].
      split; [discriminate|].
      split; [intros _ _; split; vm_compute; reflexivity | discriminate].
    + do 2 eexists. split; [reflexivity|].
      split; [discriminate|]. split; [discriminate|]. reflexivity.
Qed.

Lemma update_gender_is_canonical_witness :
  exists canon ack,
    update_emirates_id_record ascii_ucd 7 (Some (u " Sex ")) (Some (u "MALE"))
                              (Some stored_record)
      = (UpdateOk ack (u "gender") (Some canon),
         Some (setattr stored_record "gender" (Some canon)))
    /\ canon = u "Male" /\ ack = u "Thank you, gender saved as Male.".
Proof.
  destruct (update_gender_is_canonical ascii_ucd 7 (Some (u " Sex ")) (Some (u "MALE"))
              stored_record)
    as (canon & ack & Hrun & Hm & _).
  - discriminate.
  - vm_compute. reflexivity.
  - exists canon, ack. split; [exact Hrun|]. apply Hm. vm_compute. reflexivity.
Defined.


(** X20.  The authentication middleware lets a request through exactly when
    its path is under /api/auth/ or /static/, is the root, or the user
    is logged in; every other request is refused with status 401.  The
    exception written for the first calls of the insurance chat never
    applies, the module having no [json] to read the body with. *)
Theorem process_request_needs_login (U : UCD) (path method body : pystr)
    (is_authenticated : bool) :
  process_request U path method body is_authenticated
  = if startswith (u "/api/auth/") path || startswith (u "/static/") path
       || str_eqb path (u "/") || is_authenticated
    then None else Some 401.
Proof.
  unfold process_request, middleware_json_loads.
  destruct (startswith (u "/api/auth/") path || startswith (u "/static/") path);
    [reflexivity|].
  cbn [orb]. destruct (str_eqb path (u "/")); [reflexivity|]. cbn [orb].
  destruct (startswith (u "/api/insurance-chat/") path && str_eqb method (u "POST"));
    destruct is_authenticated; reflexivity.
Qed.
